(** * Orbit MVP: the subscription lifecycle of [src/server.js]

  A shallow embedding of the billing-state engine of the Orbit server
  (reminders, automatic pause, manual pause, mark-paid, lead intake and
  intake approval) and the properties its specification states about it.

  The repository holds three variants of the server.  [src/server.js] is
  the one the data model of the specification follows ([status], [dueAt],
  [pausedAt], ...); it is embedded in [Module Server].  The variant with
  the [isPaused]/[nextDueDate] schema, the only one that derives a client
  code from a business name, is embedded in [Module Billing]; the variant
  whose [sendEmail] has no [try]/[catch] is embedded in [Module Early]. *)

From stdpp Require Import base gmap strings list pretty.
From Stdlib Require Import ZArith Lia Ascii.

(** ** JavaScript values used by the handlers *)

Module Js.

(** Strings are sequences of 8-bit code units (ASCII / Latin-1 text); a
    character beyond Latin-1 in a constant of the source stands as the bytes
    of its UTF-8 encoding. *)

(** [!!s] for a string: the empty string is the only falsy one. *)
Definition truthy (s : string) : bool := bool_decide (s ≠ EmptyString).

(** [!!x] for a value that is a string or [undefined]/[null]. *)
Definition truthy_opt (o : option string) : bool :=
  match o with Some s => truthy s | None => false end.

(** [a || b] on values that are strings or [undefined]. *)
Definition or_else (a b : option string) : option string :=
  if truthy_opt a then a else b.

(** [x || "lit"]. *)
Definition or_str (a : option string) (b : string) : string :=
  match a with Some s => if truthy s then s else b | None => b end.

(** [x || null], for a column that is a nullable string. *)
Definition or_null (s : string) : option string :=
  if truthy s then Some s else None.

(** White space and line terminators below U+0100, as [String.prototype.trim]
    classifies them. *)
Definition is_white (c : ascii) : bool :=
  match c with
  | "009" | "010" | "011" | "012" | "013" | " " | "160" => true
  | _ => false
  end%char.

Fixpoint trimStart (s : string) : string :=
  match s with
  | String c s' => if is_white c then trimStart s' else s
  | EmptyString => EmptyString
  end.

Definition trimEnd (s : string) : string :=
  String.rev (trimStart (String.rev s)).

Definition trim (s : string) : string := trimEnd (trimStart s).

(** A template literal's [${n}] for an integer [n]. *)
Definition num (n : Z) : string := pretty n.

(** The characters that have no literal in a string of this file. *)
Definition nl : string := String "010"%char EmptyString.
Definition dquote : string := String "034"%char EmptyString.

(** The lines of a multi-line template literal, joined by line feeds. *)
Fixpoint lines (l : list string) : string :=
  match l with
  | [] => EmptyString
  | [s] => s
  | s :: l' => s +:+ nl +:+ lines l'
  end.

End Js.

(** ** Dates

  A [Date] is its time value: milliseconds since the epoch, as an integer. *)

Module Date.
Local Open Scope Z_scope.

Definition msPerDay : Z := 1000 * 60 * 60 * 24.

(** The host's time zone, as ECMAScript's [LocalTZA(t, isUTC)]: the offset
    of local time at an instant given in UTC ([tza_utc]) or in local time
    ([tza_local]). *)
Record TimeZone := { tza_utc : Z → Z; tza_local : Z → Z }.

Definition LocalTime (tz : TimeZone) (t : Z) : Z := t + tza_utc tz t.
Definition UTC (tz : TimeZone) (t : Z) : Z := t - tza_local tz t.

(** A zone whose offset never changes (no daylight saving), such as UTC. *)
Definition fixed_offset (tz : TimeZone) : Prop :=
  ∃ off, (∀ t, tza_utc tz t = off) ∧ (∀ t, tza_local tz t = off).

Definition utc_zone : TimeZone := {| tza_utc := λ _, 0; tza_local := λ _, 0 |}.

(** [d.setDate(d.getDate() + days)]: [setDate] rebuilds the local time from
    [MakeDay(Year, Month, dt)] and the time within the day; with
    [dt = DateFromTime(t) + days] that day number is [Day(t) + days], so the
    local time moves by [days] whole days and is converted back to UTC. *)
Definition setDate_plus (tz : TimeZone) (t days : Z) : Z :=
  UTC tz (LocalTime tz t + days * msPerDay).

(** [Math.ceil(ms / d)] for integers [ms] and [d > 0].  The quotient of the
    source is a double; for time values of real dates it is far from the
    precision at which the rounding of the division could reach the next
    integer, and the ceiling is the integer one. *)
Definition ceil_div (ms d : Z) : Z := - ((- ms) / d).

End Date.

(** ** Computations: state and exceptions

    An [async] function is run to completion on a world of type [W]; it
    returns a value or throws (a rejected promise), and the world keeps what
    was done before the throw. *)

Module Async.

Inductive Outcome (A : Type) :=
| Returned (a : A)
| Thrown (e : string).
Arguments Returned {A} a.
Arguments Thrown {A} e.

Section Monad.
Context {W : Type}.

Definition M (A : Type) : Type := W → Outcome A * W.

Definition ret {A} (a : A) : M A := λ w, (Returned a, w).

Definition bind {A B} (m : M A) (k : A → M B) : M B := λ w,
  match m w with
  | (Returned a, w') => k a w'
  | (Thrown e, w') => (Thrown e, w')
  end.

Definition throw {A} (e : string) : M A := λ w, (Thrown e, w).

(** [try { m } catch (err) { h(err) }]. *)
Definition try_catch {A} (m : M A) (h : string → M A) : M A := λ w,
  match m w with
  | (Returned a, w') => (Returned a, w')
  | (Thrown e, w') => h e w'
  end.

Definition gets {A} (f : W → A) : M A := λ w, (Returned (f w), w).
Definition modify (f : W → W) : M unit := λ w, (Returned tt, f w).

(** [if (b) { m }] *)
Definition when (b : bool) (m : M unit) : M unit := if b then m else ret tt.

(** [for (const x of l) { body(x) }] *)
Fixpoint for_of {A} (l : list A) (body : A → M unit) : M unit :=
  match l with
  | [] => ret tt
  | x :: l' => bind (body x) (λ _, for_of l' body)
  end.

(** [m] returns on [w], with a value and a world that satisfy [Q]. *)
Definition returns {A} (m : M A) (w : W) (Q : A → W → Prop) : Prop :=
  ∃ a w', m w = (Returned a, w') ∧ Q a w'.

End Monad.

Arguments M W A : clear implicits.

Module Notations.
Notation "'let*' x := m 'in' k" := (bind m (λ x, k))
  (at level 10, x pattern, m at level 200, k at level 200, only parsing).
Notation "m ;; k" := (bind m (λ _, k))
  (at level 100, k at level 200, right associativity, only parsing).
End Notations.

End Async.

(** ** The server of [src/server.js] *)

Module Server.
Local Open Scope Z_scope.

(** *** Data model (the Prisma models, as the handlers use them)

    Modelled from the spec: the Prisma schema is not among the sources.  The
    columns are those the handlers read and write, with the types section 3
    of the specification gives them; the primary key [id] is a string, [code]
    is unique, and the store picks the [id] of a new row.

    A row is kept without its primary key: tables are finite maps from the
    [id] to the row, and a record read from a table is the pair of both.
    Columns that no handler below reads or writes ([createdAt]) are left
    out. *)

Record Client := {
  name : string;
  code : string;
  email : string;
  bookingLink : option string;
  status : string;
  startedAt : option Z;
  dueAt : option Z;
  pausedAt : option Z;
  pauseReason : option string;
  lastReminderAt : option Z;
}.

Record Lead := {
  clientId : string;
  lead_name : string;
  lead_email : string;
  phone : option string;
  message : option string;
}.

Record IntakeRequest := {
  business : string;
  contact : string;
  intake_email : string;
  intake_bookingLink : option string;
  intake_status : string;
}.

(** The argument of [sendEmail], and the message handed to the transport. *)
Record Mail := { to : string; subject : string; html : string }.

Record Message := {
  msg_from : option string;
  msg_to : string;
  msg_subject : string;
  msg_html : string;
}.

Record SendResult := { ok : bool; error : option string }.

(** What [console.log] receives in [sendEmail]. *)
Inductive LogLine :=
| NotConfigured (to subject : string)
| SendFailed (err : string).

(** *** Configuration and surroundings

    The module constants are taken as computed at start-up ([PLAN_DAYS] and
    [REMIND_DAYS_BEFORE] are the integers [parseInt] returned,
    [YOUR_NOTIFY_EMAIL] is already trimmed); [process_env] is [process.env].
    [clock k] is the time the [k]-th reading of the system clock returns, and
    [sendMail_error k m] is the error [transporter.sendMail] rejects with, if
    it does, when [m] is the [k]-th message handed to it. *)
Record Env := {
  PLAN_DAYS : Z;
  REMIND_DAYS_BEFORE : Z;
  YOUR_NOTIFY_EMAIL : string;
  process_env : gmap string string;
  zone : Date.TimeZone;
  clock : nat → Z;
  sendMail_error : nat → Message → option string;
}.

(** The database, the trace of the mail helper and the number of clock
    readings so far.  [calls] lists the arguments of every call of
    [sendEmail] (an attempted notification), [wire] the messages given to the
    transport, both oldest first. *)
Record World := {
  clients : gmap string Client;
  leads : list Lead;
  intakeRequests : gmap string IntakeRequest;
  calls : list Mail;
  wire : list Message;
  console : list LogLine;
  reads : nat;
}.

Definition with_clients (f : gmap string Client → gmap string Client) (w : World) : World :=
  {| clients := f (clients w); leads := leads w; intakeRequests := intakeRequests w;
     calls := calls w; wire := wire w; console := console w; reads := reads w |}.

Definition with_leads (f : list Lead → list Lead) (w : World) : World :=
  {| clients := clients w; leads := f (leads w); intakeRequests := intakeRequests w;
     calls := calls w; wire := wire w; console := console w; reads := reads w |}.

Definition with_intakeRequests
    (f : gmap string IntakeRequest → gmap string IntakeRequest) (w : World) : World :=
  {| clients := clients w; leads := leads w; intakeRequests := f (intakeRequests w);
     calls := calls w; wire := wire w; console := console w; reads := reads w |}.

Definition with_calls (f : list Mail → list Mail) (w : World) : World :=
  {| clients := clients w; leads := leads w; intakeRequests := intakeRequests w;
     calls := f (calls w); wire := wire w; console := console w; reads := reads w |}.

Definition with_wire (f : list Message → list Message) (w : World) : World :=
  {| clients := clients w; leads := leads w; intakeRequests := intakeRequests w;
     calls := calls w; wire := f (wire w); console := console w; reads := reads w |}.

Definition with_console (f : list LogLine → list LogLine) (w : World) : World :=
  {| clients := clients w; leads := leads w; intakeRequests := intakeRequests w;
     calls := calls w; wire := wire w; console := f (console w); reads := reads w |}.

Definition with_reads (f : nat → nat) (w : World) : World :=
  {| clients := clients w; leads := leads w; intakeRequests := intakeRequests w;
     calls := calls w; wire := wire w; console := console w; reads := f (reads w) |}.

Import Async Async.Notations.
Abbreviation M := (Async.M World).

Section Handlers.
Variable E : Env.

(** *** Helpers *)

(** [Date.now()] and the time value of [new Date()]: one reading of the
    clock. *)
Definition Date_now : M Z := λ w,
  (Returned (clock E (reads w)), with_reads S w).

Definition addDays (date days : Z) : Z :=
  Date.setDate_plus (zone E) date days.

Definition getDaysLeft (dueAt : option Z) : M (option Z) :=
  match dueAt with
  | None => ret None
  | Some due =>
      let* now := Date_now in
      let ms := due - now in
      ret (Some (Date.ceil_div ms (1000 * 60 * 60 * 24)))
  end.

Definition getenv (k : string) : option string := process_env E !! k.

Definition bankDetailsHtml : string :=
  let name := Js.or_str (getenv "BANK_ACCOUNT_NAME") "" in
  let bank := Js.or_str (getenv "BANK_NAME") "" in
  let acc := Js.or_str (getenv "BANK_ACCOUNT_NUMBER") "" in
  let cur := Js.or_str (getenv "BANK_CURRENCY") "" in
  let note := Js.or_str (getenv "BANK_PAYMENT_NOTE") "" in
  if negb (Js.truthy name) && negb (Js.truthy bank) && negb (Js.truthy acc)
  then "<p><b>Payment details will be provided after request.</b></p>"
  else Js.lines [
    "";
    "    <p><b>Bank Transfer Details</b></p>";
    "    <ul>";
    "      <li><b>Account Name:</b> " +:+ name +:+ "</li>";
    "      <li><b>Bank Name:</b> " +:+ bank +:+ "</li>";
    "      <li><b>Account Number:</b> " +:+ acc +:+ "</li>";
    "      <li><b>Currency:</b> " +:+ cur +:+ "</li>";
    "    </ul>";
    "    <p>" +:+ note +:+ "</p>";
    "  " ].

Definition smtpReady : bool :=
  Js.truthy_opt (getenv "SMTP_HOST") && Js.truthy_opt (getenv "SMTP_PORT") &&
  Js.truthy_opt (getenv "SMTP_USER") && Js.truthy_opt (getenv "SMTP_PASS").

Definition console_log (l : LogLine) : M unit :=
  modify (with_console (λ c, c ++ [l])).

(** [await transporter.sendMail(msg)]: the one operation of the mail helper
    that can throw. *)
Definition transporter_sendMail (msg : Message) : M unit := λ w,
  let w' := with_wire (λ l, l ++ [msg]) w in
  match sendMail_error E (length (wire w)) msg with
  | Some err => (Thrown err, w')
  | None => (Returned tt, w')
  end.

(** The object [sendEmail] passes to [transporter.sendMail]. *)
Definition outgoing (m : Mail) : Message :=
  {| msg_from := Js.or_else (getenv "MAIL_FROM") (getenv "SMTP_USER");
     msg_to := to m; msg_subject := subject m; msg_html := html m |}.

Definition sendEmail (m : Mail) : M SendResult :=
  modify (with_calls (λ l, l ++ [m])) ;;
  try_catch
    (if negb smtpReady then
       console_log (NotConfigured (to m) (subject m)) ;;
       ret {| ok := false; error := None |}
     else
       transporter_sendMail (outgoing m) ;;
       ret {| ok := true; error := None |})
    (λ err,
       console_log (SendFailed err) ;;
       ret {| ok := false; error := Some err |}).

(** [requireAdmin]: the handler runs for an administrator's session only. *)
Inductive Response :=
| Redirect (path : string)
| Render (view : string)
| NotFound (body : string).

Definition requireAdmin (isAdmin : bool) (next : M Response) : M Response :=
  if isAdmin then next else ret (Redirect "/login").

(** *** The Prisma client *)

Definition client_findMany_status (sts : list string)
  : M (list (string * Client)) :=
  gets (λ w, filter (λ ic, status ic.2 ∈ sts) (map_to_list (clients w))).

Definition client_findUnique_id (id : string) : M (option Client) :=
  gets (λ w, clients w !! id).

Definition client_findUnique_code (c : string)
  : M (option (string * Client)) :=
  gets (λ w, head (filter (λ ic, code ic.2 = c) (map_to_list (clients w)))).

(** [update({ where: { id }, data })] patches the row, and rejects when no
    row has that [id]. *)
Definition client_update (id : string) (data : Client → Client) : M unit := λ w,
  match clients w !! id with
  | Some c => (Returned tt, with_clients (insert id (data c)) w)
  | None => (Thrown "Record to update not found.", w)
  end.

(** [create({ data })]: the store picks an unused [id]; [code] is unique. *)
Definition client_create (data : Client) : M (string * Client) := λ w,
  match head (filter (λ ic, code ic.2 = code data) (map_to_list (clients w))) with
  | Some _ => (Thrown "Unique constraint failed on the fields: (`code`)", w)
  | None =>
      let id := fresh (dom (clients w)) in
      (Returned (id, data), with_clients (insert id data) w)
  end.

Definition lead_create (data : Lead) : M Lead := λ w,
  (Returned data, with_leads (λ l, l ++ [data]) w).

Definition intakeRequest_findUnique (id : string) : M (option IntakeRequest) :=
  gets (λ w, intakeRequests w !! id).

Definition intakeRequest_update (id : string)
    (data : IntakeRequest → IntakeRequest) : M unit := λ w,
  match intakeRequests w !! id with
  | Some r => (Returned tt, with_intakeRequests (insert id (data r)) w)
  | None => (Thrown "Record to update not found.", w)
  end.

(** The columns a [data] object of [update] sets. *)
Definition set_status (v : string) (c : Client) : Client :=
  {| name := name c; code := code c; email := email c; bookingLink := bookingLink c;
     status := v; startedAt := startedAt c; dueAt := dueAt c; pausedAt := pausedAt c;
     pauseReason := pauseReason c; lastReminderAt := lastReminderAt c |}.

Definition set_startedAt (v : option Z) (c : Client) : Client :=
  {| name := name c; code := code c; email := email c; bookingLink := bookingLink c;
     status := status c; startedAt := v; dueAt := dueAt c; pausedAt := pausedAt c;
     pauseReason := pauseReason c; lastReminderAt := lastReminderAt c |}.

Definition set_dueAt (v : option Z) (c : Client) : Client :=
  {| name := name c; code := code c; email := email c; bookingLink := bookingLink c;
     status := status c; startedAt := startedAt c; dueAt := v; pausedAt := pausedAt c;
     pauseReason := pauseReason c; lastReminderAt := lastReminderAt c |}.

Definition set_pausedAt (v : option Z) (c : Client) : Client :=
  {| name := name c; code := code c; email := email c; bookingLink := bookingLink c;
     status := status c; startedAt := startedAt c; dueAt := dueAt c; pausedAt := v;
     pauseReason := pauseReason c; lastReminderAt := lastReminderAt c |}.

Definition set_pauseReason (v : option string) (c : Client) : Client :=
  {| name := name c; code := code c; email := email c; bookingLink := bookingLink c;
     status := status c; startedAt := startedAt c; dueAt := dueAt c; pausedAt := pausedAt c;
     pauseReason := v; lastReminderAt := lastReminderAt c |}.

Definition set_lastReminderAt (v : option Z) (c : Client) : Client :=
  {| name := name c; code := code c; email := email c; bookingLink := bookingLink c;
     status := status c; startedAt := startedAt c; dueAt := dueAt c; pausedAt := pausedAt c;
     pauseReason := pauseReason c; lastReminderAt := v |}.

(** *** Subscription checker *)

Definition reminderMail (c : Client) (left_ : Z) : Mail :=
  {| to := email c;
     subject := "Payment Reminder: " +:+ Js.num left_ +:+ " day(s) left";
     html := Js.lines [
       "";
       "            <p>Hello " +:+ name c +:+ ",</p>";
       "            <p>Your Orbit plan will expire in <b>" +:+ Js.num left_ +:+ " day(s)</b>.</p>";
       "            <p>Please pay to avoid account pause.</p>";
       "            " +:+ bankDetailsHtml;
       "          " ] |}.

Definition autoPauseMail (c : Client) : Mail :=
  {| to := email c;
     subject := "Account Paused: Payment Required";
     html := Js.lines [
       "";
       "          <p>Hello " +:+ name c +:+ ",</p>";
       "          <p>Your account has been <b>PAUSED</b> because your subscription ended.</p>";
       "          <p>Pay now to reactivate.</p>";
       "          " +:+ bankDetailsHtml;
       "        " ] |}.

Definition autoPauseOperatorMail (c : Client) : Mail :=
  {| to := YOUR_NOTIFY_EMAIL E;
     subject := "Client Auto-Paused: " +:+ name c +:+ " (" +:+ code c +:+ ")";
     html := "<p>Client <b>" +:+ name c +:+ "</b> was auto-paused due to expiry.</p>" |}.

(** The body of the loop of [subscriptionCheck], for the record [c] with
    primary key [id] as [findMany] returned it.  [left !== null], the second
    conjunct of both tests, is the [Some] branch. *)
Definition checkClient (ic : string * Client) : M unit :=
  let '(id, c) := ic in
  match dueAt c with
  | None => ret tt
  | Some _ =>
      let* left_ := getDaysLeft (dueAt c) in
      match left_ with
      | None => ret tt
      | Some left_ =>
          (* Reminder *)
          when (bool_decide (status c = "ACTIVE") &&
                (left_ <=? REMIND_DAYS_BEFORE E) && (0 <? left_))
            (let* already :=
               match lastReminderAt c with
               | None => ret false
               | Some last =>
                   let* now := Date_now in
                   ret (now - last <? 24 * 60 * 60 * 1000)
               end in
             when (negb already)
               (let* now := Date_now in
                client_update id (set_lastReminderAt (Some now)) ;;
                sendEmail (reminderMail c left_) ;;
                ret tt)) ;;
          (* Expired -> Auto Pause *)
          when (bool_decide (status c = "ACTIVE") && (left_ <=? 0))
            (let* now := Date_now in
             client_update id
               (λ r, set_pauseReason (Some "expired")
                       (set_pausedAt (Some now) (set_status "PAUSED" r))) ;;
             sendEmail (autoPauseMail c) ;;
             when (Js.truthy (YOUR_NOTIFY_EMAIL E))
               (sendEmail (autoPauseOperatorMail c) ;; ret tt))
      end
  end.

Definition subscriptionCheck : M unit :=
  let* clients := client_findMany_status ["ACTIVE"; "PAUSED"] in
  for_of clients checkClient.

(** *** Admin actions *)

Definition manualPauseMail (c : Client) : Mail :=
  {| to := email c;
     subject := "Account Paused: Payment Required";
     html := Js.lines [
       "";
       "      <p>Hello " +:+ name c +:+ ",</p>";
       "      <p>Your account is <b>PAUSED</b>.</p>";
       "      <p>Pay to reactivate:</p>";
       "      " +:+ bankDetailsHtml;
       "    " ] |}.

(** [POST /admin/clients/:id/pause] *)
Definition post_admin_clients_pause (isAdmin : bool) (id : string) : M Response :=
  requireAdmin isAdmin
    (let* c := client_findUnique_id id in
     match c with
     | None => ret (Redirect "/admin")
     | Some c =>
         let* now := Date_now in
         client_update id
           (λ r, set_pauseReason (Some "manual")
                   (set_pausedAt (Some now) (set_status "PAUSED" r))) ;;
         sendEmail (manualPauseMail c) ;;
         ret (Redirect "/admin")
     end).

Definition reactivatedMail (c : Client) : Mail :=
  {| to := email c;
     subject := "Payment Received: Account Reactivated";
     html := "<p>Hello " +:+ name c +:+
             ",</p><p>Your account is now <b>ACTIVE</b>. Thank you!</p>" |}.

(** [POST /admin/clients/:id/paid] *)
Definition post_admin_clients_paid (isAdmin : bool) (id : string) : M Response :=
  requireAdmin isAdmin
    (let* c := client_findUnique_id id in
     match c with
     | None => ret (Redirect "/admin")
     | Some c =>
         let* now := Date_now in
         let due := addDays now (PLAN_DAYS E) in
         client_update id
           (λ r, set_pauseReason None
                   (set_pausedAt None
                      (set_dueAt (Some due)
                         (set_startedAt (Some now) (set_status "ACTIVE" r))))) ;;
         sendEmail (reactivatedMail c) ;;
         ret (Redirect "/admin")
     end).

(** [POST /admin/intake/:id/approve]; [body] is the submitted form. *)
Definition post_admin_intake_approve (isAdmin : bool) (id : string)
    (body : gmap string string) : M Response :=
  requireAdmin isAdmin
    (let code := Js.trim (Js.or_str (body !! "code") "") in
     let* ir := intakeRequest_findUnique id in
     match ir with
     | None => ret (Redirect "/admin")
     | Some ir =>
         if negb (Js.truthy code) then ret (Redirect "/admin")
         else
           let* now := Date_now in
           let due := addDays now (PLAN_DAYS E) in
           client_create
             {| name := business ir; code := code; email := intake_email ir;
                bookingLink := Js.or_else (intake_bookingLink ir) None;
                status := "ACTIVE"; startedAt := Some now; dueAt := Some due;
                pausedAt := None; pauseReason := None; lastReminderAt := None |} ;;
           intakeRequest_update id
             (λ r, {| business := business r; contact := contact r;
                      intake_email := intake_email r;
                      intake_bookingLink := intake_bookingLink r;
                      intake_status := "APPROVED" |}) ;;
           ret (Redirect "/admin")
     end).

(** *** Lead intake *)

Definition newLeadMail (client : Client) (lead : Lead) : Mail :=
  {| to := email client;
     subject := "New Lead Received ✅";
     html := Js.lines [
       "";
       "        <p>Hello " +:+ name client +:+ ",</p>";
       "        <p>You got a new lead:</p>";
       "        <ul>";
       "          <li><b>Name:</b> " +:+ lead_name lead +:+ "</li>";
       "          <li><b>Email:</b> " +:+ lead_email lead +:+ "</li>";
       "          <li><b>Phone:</b> " +:+ Js.or_str (phone lead) "-" +:+ "</li>";
       "          <li><b>Message:</b> " +:+ Js.or_str (message lead) "-" +:+ "</li>";
       "        </ul>";
       "      " ] |}.

Definition newLeadOperatorMail (client : Client) (lead : Lead) : Mail :=
  {| to := YOUR_NOTIFY_EMAIL E;
     subject := "Client New Lead: " +:+ name client +:+ " (" +:+ code client +:+ ")";
     html := "<p>New lead for <b>" +:+ name client +:+ "</b>: " +:+
             lead_name lead +:+ " - " +:+ lead_email lead +:+ "</p>" |}.

Definition autoReplyMail (client : Client) (link : string) (lead : Lead) : Mail :=
  {| to := lead_email lead;
     subject := "Thanks — Book Your Call";
     html := Js.lines [
       "";
       "          <p>Hi " +:+ lead_name lead +:+ ",</p>";
       "          <p>Thanks for reaching out to <b>" +:+ name client +:+ "</b>.</p>";
       "          <p>Book here:</p>";
       "          <p><a href=" +:+ Js.dquote +:+ link +:+ Js.dquote +:+ ">" +:+
         link +:+ "</a></p>";
       "        " ] |}.

(** [POST /c/:code/lead]; [body] is the submitted form. *)
Definition post_lead (code : string) (body : gmap string string) : M Response :=
  let* client := client_findUnique_code code in
  match client with
  | None => ret (NotFound "Client not found")
  | Some (id, client) =>
      let name := Js.trim (Js.or_str (body !! "name") "") in
      let email := Js.trim (Js.or_str (body !! "email") "") in
      let phone := Js.trim (Js.or_str (body !! "phone") "") in
      let message := Js.trim (Js.or_str (body !! "message") "") in
      let* lead := lead_create
        {| clientId := id; lead_name := name; lead_email := email;
           phone := Js.or_null phone; message := Js.or_null message |} in
      (* Notifications (safe) *)
      when (bool_decide (status client = "ACTIVE"))
        (sendEmail (newLeadMail client lead) ;;
         when (Js.truthy (YOUR_NOTIFY_EMAIL E))
           (sendEmail (newLeadOperatorMail client lead) ;; ret tt) ;;
         match bookingLink client with
         | Some link =>
             when (Js.truthy link)
               (sendEmail (autoReplyMail client link lead) ;; ret tt)
         | None => ret tt
         end) ;;
      ret (Render "thanks")
  end.

End Handlers.

End Server.

(** ** The variant whose mail helper has no [try] / [catch]

    Its [sendEmail] differs from the one above in that a rejection of
    [transporter.sendMail] is not caught; the rest of that file reads like
    [src/server.js]. *)

Module Early.
Import Async Async.Notations Server.

Definition sendEmail (E : Env) (m : Mail) : M SendResult :=
  modify (with_calls (λ l, l ++ [m])) ;;
  if negb (smtpReady E) then
    console_log (NotConfigured (to m) (subject m)) ;;
    ret {| ok := false; error := None |}
  else
    transporter_sendMail E (outgoing E m) ;;
    ret {| ok := true; error := None |}.

End Early.

(** ** The variant with the [isPaused] / [nextDueDate] schema

    Of this variant the two admin actions are embedded that the
    specification draws on: the approval of an intake, which derives the
    client code, and mark-paid. *)

Module Billing.
Import Async Async.Notations.
Local Open Scope Z_scope.

(** The Prisma schema of this variant is not among the sources either: the
    columns are those its handlers read and write, [code] is unique, and the
    store picks the [id] of a new row. *)
Record Client := {
  name : string;
  code : string;
  email : string;
  bookingUrl : option string;
  subscriptionStart : Z;
  nextDueDate : Z;
  isPaused : bool;
  pauseReason : option string;
  lastReminderAt : option Z;
}.

Record ClientIntake := {
  businessName : string;
  contactName : string;
  intake_email : string;
  phone : option string;
  intake_bookingUrl : option string;
  notes : option string;
  intake_status : string;
}.

Record Env := {
  zone : Date.TimeZone;
  clock : nat → Z;
}.

Record World := {
  clients : gmap string Client;
  clientIntakes : gmap string ClientIntake;
  reads : nat;
}.

Abbreviation M := (Async.M World).

Inductive Response :=
| Redirect (path : string)
| Status (n : Z) (body : string).

(** *** Strings *)

(** [toLowerCase] on a code unit below U+0100: the letters A-Z and the
    capital letters of Latin-1 (U+00C0-U+00DE but the multiplication sign)
    move up by 32. *)
Definition lower_char (c : ascii) : ascii :=
  let n := N_of_ascii c in
  if ((65 <=? n) && (n <=? 90))%N then ascii_of_N (n + 32)
  else if ((192 <=? n) && (n <=? 222) && negb (n =? 215))%N then ascii_of_N (n + 32)
  else c.

Fixpoint toLowerCase (s : string) : string :=
  match s with
  | EmptyString => EmptyString
  | String c s' => String (lower_char c) (toLowerCase s')
  end.

(** The class [[a-z0-9]]. *)
Definition is_a_z_0_9 (c : ascii) : bool :=
  let n := N_of_ascii c in
  (((97 <=? n) && (n <=? 122)) || ((48 <=? n) && (n <=? 57)))%N.

(** [s.replace(/[^a-z0-9]/g, "")] *)
Fixpoint strip_non_a_z_0_9 (s : string) : string :=
  match s with
  | EmptyString => EmptyString
  | String c s' =>
      if is_a_z_0_9 c then String c (strip_non_a_z_0_9 s') else strip_non_a_z_0_9 s'
  end.

(** [s.slice(0, n)] *)
Fixpoint slice0 (n : nat) (s : string) : string :=
  match n, s with
  | S n', String c s' => String c (slice0 n' s')
  | _, _ => EmptyString
  end.

Section Handlers.
Variable E : Env.

Definition Date_now : M Z := λ w,
  (Returned (clock E (reads w)),
   {| clients := clients w; clientIntakes := clientIntakes w; reads := S (reads w) |}).

Definition addDays (date days : Z) : Z :=
  Date.setDate_plus (zone E) date days.

Definition requireAdmin (admin : bool) (next : M Response) : M Response :=
  if negb admin then ret (Redirect "/login") else next.

(** *** The Prisma client *)

Definition client_findUnique_code (c : string)
  : M (option (string * Client)) :=
  gets (λ w, head (filter (λ ic, code ic.2 = c) (map_to_list (clients w)))).

Definition client_create (data : Client) : M (string * Client) := λ w,
  match head (filter (λ ic, code ic.2 = code data) (map_to_list (clients w))) with
  | Some _ => (Thrown "Unique constraint failed on the fields: (`code`)", w)
  | None =>
      let id := fresh (dom (clients w)) in
      (Returned (id, data),
       {| clients := <[id := data]> (clients w); clientIntakes := clientIntakes w;
          reads := reads w |})
  end.

Definition client_update (id : string) (data : Client → Client) : M unit := λ w,
  match clients w !! id with
  | Some c =>
      (Returned tt,
       {| clients := <[id := data c]> (clients w); clientIntakes := clientIntakes w;
          reads := reads w |})
  | None => (Thrown "Record to update not found.", w)
  end.

Definition clientIntake_findUnique (id : string) : M (option ClientIntake) :=
  gets (λ w, clientIntakes w !! id).

Definition clientIntake_update (id : string)
    (data : ClientIntake → ClientIntake) : M unit := λ w,
  match clientIntakes w !! id with
  | Some r =>
      (Returned tt,
       {| clients := clients w; clientIntakes := <[id := data r]> (clientIntakes w);
          reads := reads w |})
  | None => (Thrown "Record to update not found.", w)
  end.

(** *** Approval of an intake *)

(** The first lines of the handler: the base of the code. *)
Definition deriveBaseCode (businessName : string) : string :=
  let baseCode :=
    slice0 12 (strip_non_a_z_0_9 (toLowerCase (Js.or_str (Some businessName) "client"))) in
  if negb (Js.truthy baseCode) then "client" else baseCode.

(** [while (await findUnique({ where: { code } })) { n += 1; code = ... }],
    on the loop state [(n, code)].  [fuel] bounds the number of tests of the
    loop condition; the loop throws when the bound is used up. *)
Fixpoint whileCodeTaken (fuel : nat) (baseCode : string) (n : Z) (code : string)
  : M (Z * string) :=
  match fuel with
  | O => throw "loop bound reached"
  | S fuel' =>
      let* hit := client_findUnique_code code in
      match hit with
      | Some _ =>
          let n := n + 1 in
          whileCodeTaken fuel' baseCode n (baseCode +:+ Js.num n)
      | None => ret (n, code)
      end
  end.

(** [POST /admin/intakes/:id/approve].  The loop is run with one test more
    than there are clients. *)
Definition post_admin_intakes_approve (admin : bool) (id : string) : M Response :=
  requireAdmin admin
    (let* intake := clientIntake_findUnique id in
     match intake with
     | None => ret (Status 404 "Intake not found")
     | Some intake =>
         let baseCode := deriveBaseCode (businessName intake) in
         let* bound := gets (λ w, S (size (clients w))) in
         let* found := whileCodeTaken bound baseCode 1 baseCode in
         let code := found.2 in
         let* start := Date_now in
         let due := addDays start 30 in
         client_create
           {| name := businessName intake; code := code; email := intake_email intake;
              bookingUrl := Js.or_else (intake_bookingUrl intake) None;
              subscriptionStart := start; nextDueDate := due;
              isPaused := false; pauseReason := None; lastReminderAt := None |} ;;
         clientIntake_update id
           (λ r, {| businessName := businessName r; contactName := contactName r;
                    intake_email := intake_email r; phone := phone r;
                    intake_bookingUrl := intake_bookingUrl r; notes := notes r;
                    intake_status := "approved" |}) ;;
         ret (Redirect "/admin")
     end).

(** [POST /admin/clients/:id/paid] *)
Definition post_admin_clients_paid (admin : bool) (id : string) : M Response :=
  requireAdmin admin
    (let* start := Date_now in
     let due := addDays start 30 in
     client_update id
       (λ r, {| name := name r; code := code r; email := email r;
                bookingUrl := bookingUrl r;
                subscriptionStart := start; nextDueDate := due;
                isPaused := false; pauseReason := None; lastReminderAt := None |}) ;;
     ret (Redirect "/admin")).

End Handlers.

End Billing.

(** ** The reconciler in the words of the specification

    Section 4.1 of the specification, as a decision per client at the instant
    [now]; the embedding of [subscriptionCheck] above is compared with it. *)

Module Reconciler.
Import Server.
Local Open Scope Z_scope.

Inductive Verdict :=
| Idle
| Remind (daysLeft : Z)
| Expire.

(** Step 1: [daysLeft = ceil((dueAt - now) / 1 day)]. *)
Definition daysLeft (now due : Z) : Z := Date.ceil_div (due - now) Date.msPerDay.

(** Step 2, first bullet: a reminder was sent within the last 24 hours. *)
Definition reminded_within_24h (now : Z) (c : Client) : bool :=
  match lastReminderAt c with
  | Some last => now - last <? 24 * 60 * 60 * 1000
  | None => false
  end.

Definition verdict (reminderWindowDays now : Z) (c : Client) : Verdict :=
  match dueAt c with
  | None => Idle
  | Some due =>
      if bool_decide (status c = "ACTIVE") then
        if 0 <? daysLeft now due then
          if (daysLeft now due <=? reminderWindowDays) && negb (reminded_within_24h now c)
          then Remind (daysLeft now due)
          else Idle
        else Expire
      else Idle
  end.

Definition apply_verdict (now : Z) (v : Verdict) (c : Client) : Client :=
  match v with
  | Idle => c
  | Remind _ => set_lastReminderAt (Some now) c
  | Expire =>
      set_pauseReason (Some "expired") (set_pausedAt (Some now) (set_status "PAUSED" c))
  end.

Definition verdict_mails (E : Env) (c : Client) (v : Verdict) : list Mail :=
  match v with
  | Idle => []
  | Remind left_ => [reminderMail E c left_]
  | Expire =>
      autoPauseMail E c ::
      (if Js.truthy (YOUR_NOTIFY_EMAIL E) then [autoPauseOperatorMail E c] else [])
  end.

End Reconciler.

(** ** Vocabulary of the statements *)

Module Pass.
Import Async Server Reconciler.

(** Every reading of the clock returns [now]: the run is taken at one
    instant. *)
Definition frozen (E : Env) (now : Z) : Prop := ∀ k, clock E k = now.

(** The records a pass iterates over, in the order of the iteration. *)
Definition listing (w : World) : list (string * Client) :=
  filter (λ ic, status ic.2 ∈ ["ACTIVE"; "PAUSED"]) (map_to_list (clients w)).

(** The pass on [w] ends in [w'], and it visits the record [c] with key [id]
    exactly once: the iterations before it lead from [w] to [w1], its own
    iteration from [w1] to [w2], and those after it from [w2] to [w']. *)
Definition visits_once (E : Env) (w : World) (id : string) (c : Client)
    (w1 w2 w' : World) : Prop :=
  subscriptionCheck E w = (Returned tt, w') ∧
  ∃ before after,
    listing w = before ++ (id, c) :: after ∧
    (id ∉ before.*1) ∧ (id ∉ after.*1) ∧
    for_of before (checkClient E) w = (Returned tt, w1) ∧
    checkClient E (id, c) w1 = (Returned tt, w2) ∧
    for_of after (checkClient E) w2 = (Returned tt, w').

(** The lead a submission of the form [body] stores for the client [id]. *)
Definition submitted_lead (id : string) (body : gmap string string) : Lead :=
  {| clientId := id;
     lead_name := Js.trim (Js.or_str (body !! "name") "");
     lead_email := Js.trim (Js.or_str (body !! "email") "");
     phone := Js.or_null (Js.trim (Js.or_str (body !! "phone") ""));
     message := Js.or_null (Js.trim (Js.or_str (body !! "message") "")) |}.

(** Two environments that differ at most in the SMTP settings, in what the
    transport does, and in zone and clock. *)
Definition same_settings (E E' : Env) : Prop :=
  PLAN_DAYS E = PLAN_DAYS E' ∧
  REMIND_DAYS_BEFORE E = REMIND_DAYS_BEFORE E' ∧
  YOUR_NOTIFY_EMAIL E = YOUR_NOTIFY_EMAIL E' ∧
  ∀ k, k ∈ ["BANK_ACCOUNT_NAME"; "BANK_NAME"; "BANK_ACCOUNT_NUMBER";
            "BANK_CURRENCY"; "BANK_PAYMENT_NOTE"] →
       process_env E !! k = process_env E' !! k.

(** [w'] has a client record under the keys under which [w] has one. *)
Definition same_keys (w w' : World) : Prop :=
  ∀ j, is_Some (clients w' !! j) ↔ is_Some (clients w !! j).

(** [m] returns, and keeps the keys, from every world with a record [id]. *)
Definition steady {A} (id : string) (m : M A) : Prop :=
  ∀ v, is_Some (clients v !! id) → returns m v (λ _ v', same_keys v v').

(** A reminder mail, told by its subject line. *)
Definition is_reminder (m : Mail) : bool :=
  String.prefix "Payment Reminder: " (subject m).

(** The mails the specification's decisions ask for, over the records [l]. *)
Definition loop_mails (E : Env) (now : Z) (l : list (string * Client)) : list Mail :=
  concat (map (λ ic, verdict_mails E ic.2 (verdict (REMIND_DAYS_BEFORE E) now ic.2)) l).

End Pass.

(** ** Vocabulary of the statements about client codes *)

Module Derivation.
Import Billing.
Local Open Scope Z_scope.

(** Some client has the code [cd]. *)
Definition taken (w : World) (cd : string) : Prop :=
  ∃ id c, clients w !! id = Some c ∧ code c = cd.

(** The [n]-th code the approval tries: the base itself, then the base
    followed by 2, 3, ... in decimal. *)
Definition candidate (baseCode : string) (n : Z) : string :=
  if n =? 1 then baseCode else baseCode +:+ Js.num n.

(** Every character of [s] satisfies [p]. *)
Fixpoint all_chars (p : ascii → bool) (s : string) : bool :=
  match s with
  | EmptyString => true
  | String c s' => p c && all_chars p s'
  end.

End Derivation.

(** ** Sample data *)

Module Sample.
Import Server.
Local Open Scope Z_scope.

(** 1 March 2024, 12:00 UTC. *)
Definition noon : Z := 1709294400000.

(** The same day, 23:59, and the next day, 00:05. *)
Definition at_23_59 : Z := noon + (11 * 60 + 59) * 60 * 1000.
Definition at_00_05 : Z := noon + (12 * 60 + 5) * 60 * 1000.

Definition env (now : Z) : Env :=
  {| PLAN_DAYS := 30; REMIND_DAYS_BEFORE := 3; YOUR_NOTIFY_EMAIL := "ops@orbit.test";
     process_env := ∅; zone := Date.utc_zone;
     clock := λ _, now; sendMail_error := λ _ _, None |}.

(** The same settings with a working SMTP configuration whose server refuses
    every message. *)
Definition env_refusing (now : Z) : Env :=
  {| PLAN_DAYS := 30; REMIND_DAYS_BEFORE := 3; YOUR_NOTIFY_EMAIL := "ops@orbit.test";
     process_env :=
       <["SMTP_HOST" := "smtp.orbit.test"]> (<["SMTP_PORT" := "587"]>
         (<["SMTP_USER" := "orbit"]> (<["SMTP_PASS" := "secret"]> ∅)));
     zone := Date.utc_zone;
     clock := λ _, now; sendMail_error := λ _ _, Some "connect ECONNREFUSED" |}.

Definition client (code_ : string) (status_ : string) (due : Z) : Client :=
  {| name := "Acme"; code := code_; email := "owner@acme.test";
     bookingLink := Some "https://cal.test/acme";
     status := status_; startedAt := Some (due - 30 * Date.msPerDay); dueAt := Some due;
     pausedAt := None; pauseReason := None; lastReminderAt := None |}.

(** Due 18 hours after [noon]. *)
Definition soon : Client := client "acme" "ACTIVE" (noon + 18 * 60 * 60 * 1000).

(** Due an hour before [noon]. *)
Definition overdue : Client := client "bolt" "ACTIVE" (noon - 60 * 60 * 1000).

(** Paused by the reconciler a day before [noon], and reminded before. *)
Definition paused : Client :=
  {| name := "Core"; code := "core"; email := "owner@core.test"; bookingLink := None;
     status := "PAUSED"; startedAt := Some (noon - 32 * Date.msPerDay);
     dueAt := Some (noon - 2 * Date.msPerDay);
     pausedAt := Some (noon - Date.msPerDay); pauseReason := Some "expired";
     lastReminderAt := Some (noon - 3 * Date.msPerDay) |}.

Definition world : World :=
  {| clients := <["c1" := soon]> (<["c2" := overdue]> (<["c3" := paused]> ∅));
     leads := [];
     intakeRequests :=
       <["i1" := {| business := "Acme Corp"; contact := "Ann"; intake_email := "ann@acme.test";
                    intake_bookingLink := None; intake_status := "NEW" |}]> ∅;
     calls := []; wire := []; console := []; reads := 0 |}.

(** A world of the variant with derived codes, in which "acme" is taken. *)
Definition billing_env : Billing.Env :=
  {| Billing.zone := Date.utc_zone; Billing.clock := λ _, noon |}.

Definition billing_client (code_ : string) : Billing.Client :=
  {| Billing.name := "Acme"; Billing.code := code_; Billing.email := "owner@acme.test";
     Billing.bookingUrl := None; Billing.subscriptionStart := noon - 3 * Date.msPerDay;
     Billing.nextDueDate := noon + 27 * Date.msPerDay; Billing.isPaused := false;
     Billing.pauseReason := None; Billing.lastReminderAt := Some (noon - Date.msPerDay) |}.

Definition billing_intake : Billing.ClientIntake :=
  {| Billing.businessName := "ACME!"; Billing.contactName := "Ann";
     Billing.intake_email := "ann@acme.test"; Billing.phone := None;
     Billing.intake_bookingUrl := None; Billing.notes := None;
     Billing.intake_status := "new" |}.

Definition billing_world : Billing.World :=
  {| Billing.clients := <["b1" := billing_client "acme"]> ∅;
     Billing.clientIntakes := <["i1" := billing_intake]> ∅;
     Billing.reads := 0 |}.

End Sample.

(** ** The other routes of [src/server.js] *)

Module Routes.
Import Async Async.Notations Server.
Local Open Scope Z_scope.

Section Handlers.
Variable E : Env.

(** [prisma.intakeRequest.create({ data })]: the store picks an unused
    [id]. *)
Definition intakeRequest_create (data : IntakeRequest)
  : M (string * IntakeRequest) := λ w,
  let id := fresh (dom (intakeRequests w)) in
  (Returned (id, data), with_intakeRequests (insert id data) w).

(** [POST /admin/clients/add]; [body] is the submitted form.  The columns
    the [data] object leaves out take the null of their default. *)
Definition post_admin_clients_add (isAdmin : bool) (body : gmap string string)
  : M Response :=
  requireAdmin isAdmin
    (let name := Js.trim (Js.or_str (body !! "name") "") in
     let code := Js.trim (Js.or_str (body !! "code") "") in
     let email := Js.trim (Js.or_str (body !! "email") "") in
     let bookingLink := Js.trim (Js.or_str (body !! "bookingLink") "") in
     let* now := Date_now E in
     let due := addDays E now (PLAN_DAYS E) in
     client_create
       {| name := name; code := code; email := email;
          bookingLink := Js.or_null bookingLink;
          status := "ACTIVE"; startedAt := Some now; dueAt := Some due;
          pausedAt := None; pauseReason := None; lastReminderAt := None |} ;;
     ret (Redirect "/admin")).

Definition newIntakeMail (business contact email : string) : Mail :=
  {| to := YOUR_NOTIFY_EMAIL E;
     subject := "New Intake Request: " +:+ business;
     html := "<p><b>" +:+ business +:+ "</b> submitted intake. Contact: " +:+
             contact +:+ ". Email: " +:+ email +:+ "</p>" |}.

(** [POST /intake] *)
Definition post_intake (body : gmap string string) : M Response :=
  let business := Js.trim (Js.or_str (body !! "business") "") in
  let contact := Js.trim (Js.or_str (body !! "contact") "") in
  let email := Js.trim (Js.or_str (body !! "email") "") in
  let bookingLink := Js.trim (Js.or_str (body !! "bookingLink") "") in
  intakeRequest_create
    {| business := business; contact := contact; intake_email := email;
       intake_bookingLink := Js.or_null bookingLink; intake_status := "NEW" |} ;;
  when (Js.truthy (YOUR_NOTIFY_EMAIL E))
    (sendEmail E (newIntakeMail business contact email) ;; ret tt) ;;
  ret (Render "intake").

(** What [GET /c/:code] answers: 404, or the landing page of the client with
    its [paused] flag. *)
Inductive Page :=
| PageNotFound (body : string)
| Landing (client : Client) (paused : bool).

(** [GET /c/:code] *)
Definition get_landing (code : string) : M Page :=
  let* client := client_findUnique_code code in
  match client with
  | None => ret (PageNotFound "Client not found")
  | Some (_, client) =>
      let paused := negb (bool_decide (status client = "ACTIVE")) in
      ret (Landing client paused)
  end.

End Handlers.

End Routes.

(** ** Vocabulary of the statements about the life cycle *)

Module Lifecycle.
Import Async Server.
Local Open Scope Z_scope.

(** What one iteration of the checker, entered with the record [c], may
    have made of the row [r]. *)
Definition touched (c r r' : Client) : Prop :=
  r' = r ∨
  (status c = "ACTIVE" ∧ is_Some (dueAt c) ∧
   ((∃ t, r' = set_lastReminderAt (Some t) r) ∨
    (∃ t, r' = set_pauseReason (Some "expired")
                 (set_pausedAt (Some t) (set_status "PAUSED" r))))).

(** A row as the actions leave it: ACTIVE with a due date and no pause
    stamp, or PAUSED with a pause stamp and one of the two reasons. *)
Definition row_ok (c : Client) : Prop :=
  (status c = "ACTIVE" ∧ is_Some (dueAt c) ∧ pausedAt c = None ∧ pauseReason c = None) ∨
  (status c = "PAUSED" ∧ is_Some (pausedAt c) ∧
   (pauseReason c = Some "expired" ∨ pauseReason c = Some "manual")).

Definition lifecycle_ok (w : World) : Prop :=
  ∀ id c, clients w !! id = Some c → row_ok c.

(** No two clients have the same code. *)
Definition codes_unique (w : World) : Prop :=
  ∀ i j ci cj, clients w !! i = Some ci → clients w !! j = Some cj →
    code ci = code cj → i = j.

(** The two ways an action changes the client table: rows are rewritten in
    place, keeping their code and staying well-formed; or one row comes in
    under an unused key, well-formed and with a code no row has. *)
Definition reshaped (m m' : gmap string Client) : Prop :=
  ∀ id, match m !! id with
        | Some c => ∃ c', m' !! id = Some c' ∧ code c' = code c ∧ (row_ok c → row_ok c')
        | None => m' !! id = None
        end.

Definition grown (m m' : gmap string Client) : Prop :=
  ∃ id c, m !! id = None ∧ m' = <[id := c]> m ∧ row_ok c ∧
          ∀ j cj, m !! j = Some cj → code cj ≠ code c.

(** Every character of [s] is white space. *)
Fixpoint all_white (s : string) : bool :=
  match s with
  | EmptyString => true
  | String c s' => Js.is_white c && all_white s'
  end.

(** The row [POST /admin/clients/add] creates from the form [body] at the
    instant [now], and the row an approval creates for the intake [ir]. *)
Definition added_client (E : Env) (body : gmap string string) (now : Z) : Client :=
  {| name := Js.trim (Js.or_str (body !! "name") "");
     code := Js.trim (Js.or_str (body !! "code") "");
     email := Js.trim (Js.or_str (body !! "email") "");
     bookingLink := Js.or_null (Js.trim (Js.or_str (body !! "bookingLink") ""));
     status := "ACTIVE"; startedAt := Some now;
     dueAt := Some (addDays E now (PLAN_DAYS E));
     pausedAt := None; pauseReason := None; lastReminderAt := None |}.

Definition approved_client (E : Env) (ir : IntakeRequest) (submitted : string)
    (now : Z) : Client :=
  {| name := business ir; code := submitted; email := intake_email ir;
     bookingLink := Js.or_else (intake_bookingLink ir) None;
     status := "ACTIVE"; startedAt := Some now;
     dueAt := Some (addDays E now (PLAN_DAYS E));
     pausedAt := None; pauseReason := None; lastReminderAt := None |}.

Definition approve_intake (ir : IntakeRequest) : IntakeRequest :=
  {| business := business ir; contact := contact ir; intake_email := intake_email ir;
     intake_bookingLink := intake_bookingLink ir; intake_status := "APPROVED" |}.

(** The requests the server answers, and the world each leaves behind
    (after a throw: what was done before it). *)
Inductive Request :=
| Check
| Pause (isAdmin : bool) (id : string)
| Paid (isAdmin : bool) (id : string)
| Approve (isAdmin : bool) (id : string) (body : gmap string string)
| Add (isAdmin : bool) (body : gmap string string)
| SubmitLead (code : string) (body : gmap string string)
| SubmitIntake (body : gmap string string)
| Visit (code : string).

Definition serve (E : Env) (r : Request) (w : World) : World :=
  match r with
  | Check => (subscriptionCheck E w).2
  | Pause a id => (post_admin_clients_pause E a id w).2
  | Paid a id => (post_admin_clients_paid E a id w).2
  | Approve a id body => (post_admin_intake_approve E a id body w).2
  | Add a body => (Routes.post_admin_clients_add E a body w).2
  | SubmitLead code body => (post_lead E code body w).2
  | SubmitIntake body => (Routes.post_intake E body w).2
  | Visit code => (Routes.get_landing code w).2
  end.

Definition serve_all (E : Env) (rs : list Request) (w : World) : World :=
  foldl (λ v r, serve E r v) w rs.

End Lifecycle.

(** ** The subscription checker of the earlier [server.js]

    It differs from the checker above in the mail helper, which lets a
    transport error escape, in the wording of the mails, and in reading the
    operator's address from the environment as it is. *)

Module EarlyCheck.
Import Async Async.Notations Server.
Local Open Scope Z_scope.

Section Handlers.
Variable E : Env.

Definition bankDetailsHtml : string :=
  Js.lines [
    "";
    "    <p><b>Payment Details (Bank Transfer)</b></p>";
    "    <ul>";
    "      <li><b>Account Name:</b> " +:+ Js.or_str (getenv E "BANK_ACCOUNT_NAME") "" +:+ "</li>";
    "      <li><b>Bank Name:</b> " +:+ Js.or_str (getenv E "BANK_NAME") "" +:+ "</li>";
    "      <li><b>Account Number:</b> " +:+ Js.or_str (getenv E "BANK_ACCOUNT_NUMBER") "" +:+ "</li>";
    "      <li><b>Currency:</b> " +:+ Js.or_str (getenv E "BANK_CURRENCY") "" +:+ "</li>";
    "    </ul>";
    "    <p>" +:+ Js.or_str (getenv E "BANK_PAYMENT_NOTE") "" +:+ "</p>";
    "  " ].

Definition reminderMail (c : Client) (left_ : Z) : Mail :=
  {| to := email c;
     subject := "Payment Reminder: " +:+ Js.num left_ +:+ " day(s) left";
     html := Js.lines [
       "";
       "            <p>Hello " +:+ name c +:+ ",</p>";
       "            <p>Your Orbit plan will expire in <b>" +:+ Js.num left_ +:+ " day(s)</b>.</p>";
       "            <p>Please pay to avoid service pause.</p>";
       "            " +:+ bankDetailsHtml;
       "          " ] |}.

Definition autoPauseMail (c : Client) : Mail :=
  {| to := email c;
     subject := "Account Paused: Payment Required";
     html := Js.lines [
       "";
       "          <p>Hello " +:+ name c +:+ ",</p>";
       "          <p>Your Orbit account has been <b>paused</b> because the subscription period ended.</p>";
       "          <p>Pay now to reactivate.</p>";
       "          " +:+ bankDetailsHtml;
       "        " ] |}.

Definition autoPauseOperatorMail (c : Client) : Mail :=
  {| to := Js.or_str (getenv E "YOUR_NOTIFY_EMAIL") "";
     subject := "Client Auto-Paused: " +:+ name c +:+ " (" +:+ code c +:+ ")";
     html := "<p>Client <b>" +:+ name c +:+ "</b> was auto-paused due to expiry.</p>" |}.

(** The body of the loop; [daysLeft] is [getDaysLeft] under its earlier
    name. *)
Definition checkClient (ic : string * Client) : M unit :=
  let '(id, c) := ic in
  match dueAt c with
  | None => ret tt
  | Some _ =>
      let* left_ := getDaysLeft E (dueAt c) in
      match left_ with
      | None => ret tt
      | Some left_ =>
          (* Reminder *)
          when (bool_decide (status c = "ACTIVE") &&
                (left_ <=? REMIND_DAYS_BEFORE E) && (0 <? left_))
            (let* already :=
               match lastReminderAt c with
               | Some last =>
                   let* now := Date_now E in
                   ret (now - last <? 24 * 60 * 60 * 1000)
               | None => ret false
               end in
             when (negb already)
               (let* now := Date_now E in
                client_update id (set_lastReminderAt (Some now)) ;;
                Early.sendEmail E (reminderMail c left_) ;;
                ret tt)) ;;
          (* Expired -> Auto pause + email *)
          when (bool_decide (status c = "ACTIVE") && (left_ <=? 0))
            (let* now := Date_now E in
             client_update id
               (λ r, set_pauseReason (Some "expired")
                       (set_pausedAt (Some now) (set_status "PAUSED" r))) ;;
             Early.sendEmail E (autoPauseMail c) ;;
             when (Js.truthy_opt (getenv E "YOUR_NOTIFY_EMAIL"))
               (Early.sendEmail E (autoPauseOperatorMail c) ;; ret tt))
      end
  end.

Definition subscriptionCheck : M unit :=
  let* clients := client_findMany_status ["ACTIVE"; "PAUSED"] in
  for_of clients checkClient.

End Handlers.

End EarlyCheck.

(** ** Vocabulary of the statements about the earlier checker *)

Module EarlyPass.
Import Server Reconciler.

(** The first mail of a decision. *)
Definition first_mail (E : Env) (c : Client) (v : Verdict) : option Mail :=
  match v with
  | Idle => None
  | Remind left_ => Some (EarlyCheck.reminderMail E c left_)
  | Expire => Some (EarlyCheck.autoPauseMail E c)
  end.

End EarlyPass.

(** ** The billing check and the other routes of the variant with the
    [isPaused] / [nextDueDate] schema *)

Module BillingRun.
Import Async Async.Notations.
Local Open Scope Z_scope.

Record Lead := {
  clientId : string;
  lead_name : string;
  lead_email : string;
  lead_phone : option string;
  lead_message : option string;
}.

(** The argument of [sendEmailSafe], and the object it passes on. *)
Record Mail := { to : string; subject : string; text : string }.

Record Message := {
  msg_from : option string;
  msg_to : string;
  msg_subject : string;
  msg_text : string;
}.

Inductive SendResult :=
| Skipped
| Sent
| Failed (error : string).

Inductive LogLine :=
| EmailSkipped
| EmailSent (to : string)
| EmailError (message : string).

(** The environment of the process.  [remind1] and [remind2] are
    [Number(process.env.REMIND_DAYS_BEFORE || 5)] and
    [Number(process.env.REMIND_DAYS_BEFORE_2 || 1)] where these are integers,
    and [None] where they are not (then no count of days is [===] to them);
    [sendMail_error k msg] is the error with which the transport rejects
    [msg] as the message number [k], if it does. *)
Record Env := {
  base : Billing.Env;
  process_env : gmap string string;
  remind1 : option Z;
  remind2 : option Z;
  sendMail_error : nat → Message → option string;
}.

(** The database, the leads, and the traces of the mail helper: the mails
    it was asked to send, the messages handed to the transport, the log. *)
Record World := {
  db : Billing.World;
  leads : list Lead;
  calls : list Mail;
  wire : list Message;
  console : list LogLine;
}.

Abbreviation M := (Async.M World).

Definition with_db (f : Billing.World → Billing.World) (w : World) : World :=
  {| db := f (db w); leads := leads w; calls := calls w; wire := wire w;
     console := console w |}.

Definition with_leads (f : list Lead → list Lead) (w : World) : World :=
  {| db := db w; leads := f (leads w); calls := calls w; wire := wire w;
     console := console w |}.

Definition with_calls (f : list Mail → list Mail) (w : World) : World :=
  {| db := db w; leads := leads w; calls := f (calls w); wire := wire w;
     console := console w |}.

Definition with_wire (f : list Message → list Message) (w : World) : World :=
  {| db := db w; leads := leads w; calls := calls w; wire := f (wire w);
     console := console w |}.

Definition with_console (f : list LogLine → list LogLine) (w : World) : World :=
  {| db := db w; leads := leads w; calls := calls w; wire := wire w;
     console := f (console w) |}.

(** A computation on the database, run in the larger world. *)
Definition lift {A} (m : Billing.M A) : M A := λ w,
  let r := m (db w) in (r.1, with_db (λ _, r.2) w).

(** What the pages answer. *)
Inductive Page :=
| PageStatus (n : Z) (body : string)
| PageRender (view : string) (client : Billing.Client).

Definition set_paused (p : bool) (reason : option string) (c : Billing.Client)
  : Billing.Client :=
  {| Billing.name := Billing.name c; Billing.code := Billing.code c;
     Billing.email := Billing.email c; Billing.bookingUrl := Billing.bookingUrl c;
     Billing.subscriptionStart := Billing.subscriptionStart c;
     Billing.nextDueDate := Billing.nextDueDate c;
     Billing.isPaused := p; Billing.pauseReason := reason;
     Billing.lastReminderAt := Billing.lastReminderAt c |}.

Definition set_lastReminderAt (v : option Z) (c : Billing.Client) : Billing.Client :=
  {| Billing.name := Billing.name c; Billing.code := Billing.code c;
     Billing.email := Billing.email c; Billing.bookingUrl := Billing.bookingUrl c;
     Billing.subscriptionStart := Billing.subscriptionStart c;
     Billing.nextDueDate := Billing.nextDueDate c;
     Billing.isPaused := Billing.isPaused c; Billing.pauseReason := Billing.pauseReason c;
     Billing.lastReminderAt := v |}.

Definition set_bookingUrl (v : option string) (c : Billing.Client) : Billing.Client :=
  {| Billing.name := Billing.name c; Billing.code := Billing.code c;
     Billing.email := Billing.email c; Billing.bookingUrl := v;
     Billing.subscriptionStart := Billing.subscriptionStart c;
     Billing.nextDueDate := Billing.nextDueDate c;
     Billing.isPaused := Billing.isPaused c; Billing.pauseReason := Billing.pauseReason c;
     Billing.lastReminderAt := Billing.lastReminderAt c |}.

(** [a.toDateString() === b.toDateString()]: the two instants fall on the
    same day of the local calendar. *)
Definition same_local_day (tz : Date.TimeZone) (a b : Z) : bool :=
  Date.LocalTime tz a / Date.msPerDay =? Date.LocalTime tz b / Date.msPerDay.

(** [new Date(t).toISOString().slice(0, 10)]: the date of [t] in UTC.  The
    year, month and day are those of the proleptic Gregorian calendar, as
    [YearFromTime], [MonthFromTime] and [DateFromTime] give them, computed
    from the day number counted in eras of 400 years that start on 1 March;
    [toISOString] writes a year from 0 to 9999 with four digits and any other
    with a sign and six, of which the first ten characters are kept. *)
Definition pad (width : nat) (n : Z) : string :=
  let s := Js.num n in
  String.concat "" (replicate (width - String.length s) "0") +:+ s.

Definition toISODate (t : Z) : string :=
  let z := t / Date.msPerDay + 719468 in
  let era := z / 146097 in
  let doe := z - era * 146097 in
  let yoe := (doe - doe / 1460 + doe / 36524 - doe / 146096) / 365 in
  let doy := doe - (365 * yoe + yoe / 4 - yoe / 100) in
  let mp := (5 * doy + 2) / 153 in
  let d := doy - (153 * mp + 2) / 5 + 1 in
  let m := if mp <? 10 then mp + 3 else mp - 9 in
  let y := if m <=? 2 then yoe + era * 400 + 1 else yoe + era * 400 in
  let full :=
    (if (0 <=? y) && (y <=? 9999) then pad 4 y
     else (if y <? 0 then "-" else "+") +:+ pad 6 (Z.abs y)) +:+
    "-" +:+ pad 2 m +:+ "-" +:+ pad 2 d in
  Billing.slice0 10 full.

(** [n === r] for an integer [n] and a setting [r]. *)
Definition is_day (n : Z) (r : option Z) : bool :=
  match r with Some d => n =? d | None => false end.

Section Handlers.
Variable E : Env.

Definition getenv (k : string) : option string := process_env E !! k.

Definition daysBetween (a b : Z) : Z :=
  let ms := b - a in
  Date.ceil_div ms (1000 * 60 * 60 * 24).

Definition getBankBlock : string :=
  Js.lines [
    "";
    "Bank Transfer Details:";
    "Account Name: " +:+ Js.or_str (getenv "BANK_ACCOUNT_NAME") "-";
    "Bank Name: " +:+ Js.or_str (getenv "BANK_NAME") "-";
    "Account Number: " +:+ Js.or_str (getenv "BANK_ACCOUNT_NUMBER") "-";
    "Currency: " +:+ Js.or_str (getenv "BANK_CURRENCY") "USD";
    "Note: " +:+ Js.or_str (getenv "BANK_PAYMENT_NOTE") "";
    "" ].

Definition console_log (l : LogLine) : M unit :=
  modify (with_console (λ c, c ++ [l])).

(** [await transporter.sendMail(msg)] *)
Definition transporter_sendMail (msg : Message) : M unit := λ w,
  let w' := with_wire (λ l, l ++ [msg]) w in
  match sendMail_error E (length (wire w)) msg with
  | Some err => (Thrown err, w')
  | None => (Returned tt, w')
  end.

Definition sendEmailSafe (m : Mail) : M SendResult :=
  let host := getenv "SMTP_HOST" in
  let user := getenv "SMTP_USER" in
  let pass := getenv "SMTP_PASS" in
  let from := Js.or_else (getenv "MAIL_FROM") user in
  modify (with_calls (λ l, l ++ [m])) ;;
  if negb (Js.truthy_opt host) || negb (Js.truthy_opt user) ||
     negb (Js.truthy_opt pass) || negb (Js.truthy (to m))
  then
    console_log EmailSkipped ;;
    ret Skipped
  else
    try_catch
      (transporter_sendMail
         {| msg_from := from; msg_to := to m; msg_subject := subject m;
            msg_text := text m |} ;;
       console_log (EmailSent (to m)) ;;
       ret Sent)
      (λ err,
         console_log (EmailError err) ;;
         ret (Failed err)).

(** *** The billing check *)

Definition fee : string := Js.or_str (getenv "MONTHLY_FEE") "2000".

Definition pausedMail (c : Billing.Client) : Mail :=
  {| to := Billing.email c;
     subject := "Orbit Account Paused - Payment Overdue";
     text := "Your Orbit system is paused because payment is overdue." +:+ Js.nl +:+
             Js.nl +:+ "Amount: $" +:+ fee +:+ "/month" +:+ Js.nl +:+ Js.nl +:+
             getBankBlock |}.

Definition adminPausedMail (c : Billing.Client) (due : Z) : Mail :=
  {| to := Js.or_str (getenv "YOUR_NOTIFY_EMAIL") "";
     subject := "[ADMIN] Client Paused: " +:+ Billing.name c;
     text := "Client " +:+ Billing.name c +:+ " (" +:+ Billing.code c +:+
             ") was auto-paused. Due date: " +:+ toISODate due |}.

Definition reminderMail (c : Billing.Client) (daysLeft : Z) : Mail :=
  {| to := Billing.email c;
     subject := "Payment Reminder - " +:+ Js.num daysLeft +:+ " day(s) left";
     text := "Payment Reminder: Your Orbit subscription for " +:+ Billing.name c +:+
             " is due in " +:+ Js.num daysLeft +:+ " day(s)." +:+ Js.nl +:+ Js.nl +:+
             "Amount: $" +:+ fee +:+ "/month" +:+ Js.nl +:+ Js.nl +:+
             getBankBlock +:+ Js.nl +:+ Js.nl +:+
             "After paying, reply with proof of payment to activate/keep your system running." |}.

Definition adminReminderMail (c : Billing.Client) (daysLeft : Z) : Mail :=
  {| to := Js.or_str (getenv "YOUR_NOTIFY_EMAIL") "";
     subject := "[ADMIN] Reminder Sent: " +:+ Billing.name c;
     text := "Reminder sent to " +:+ Billing.email c +:+ " | Days left: " +:+
             Js.num daysLeft |}.

(** The body of the loop of [runBillingCheck], for the record [c] with
    primary key [id] as [findMany] returned it; the first branch ends in
    [continue]. *)
Definition billClient (now : Z) (ic : string * Billing.Client) : M unit :=
  let '(id, c) := ic in
  let due := Billing.nextDueDate c in
  let daysLeft := daysBetween now due in
  if (due <? now) && negb (Billing.isPaused c) then
    lift (Billing.client_update id (set_paused true (Some "Payment overdue"))) ;;
    sendEmailSafe (pausedMail c) ;;
    when (Js.truthy_opt (getenv "YOUR_NOTIFY_EMAIL"))
      (sendEmailSafe (adminPausedMail c due) ;; ret tt)
  else
    let lastWasToday :=
      match Billing.lastReminderAt c with
      | Some last => same_local_day (Billing.zone (base E)) last now
      | None => false
      end in
    when (negb lastWasToday && (is_day daysLeft (remind1 E) || is_day daysLeft (remind2 E)))
      (sendEmailSafe (reminderMail c daysLeft) ;;
       when (Js.truthy_opt (getenv "YOUR_NOTIFY_EMAIL"))
         (sendEmailSafe (adminReminderMail c daysLeft) ;; ret tt) ;;
       lift (Billing.client_update id (set_lastReminderAt (Some now)))).

Definition client_findMany : M (list (string * Billing.Client)) :=
  gets (λ w, map_to_list (Billing.clients (db w))).

Definition runBillingCheck : M unit :=
  let* now := lift (Billing.Date_now (base E)) in
  let* clients := client_findMany in
  for_of clients (billClient now).

(** [POST /admin/run-billing] *)
Definition post_admin_run_billing (admin : bool) : M Billing.Response :=
  if negb admin then ret (Billing.Redirect "/login")
  else runBillingCheck ;; ret (Billing.Redirect "/admin").

(** *** Routes *)

(** [POST /admin/clients/:id/toggle] *)
Definition post_admin_clients_toggle (admin : bool) (id : string)
  : Billing.M Billing.Response :=
  Billing.requireAdmin admin
    (let* c := gets (λ w, Billing.clients w !! id) in
     match c with
     | None => ret (Billing.Status 404 "Client not found")
     | Some c =>
         Billing.client_update id
           (set_paused (negb (Billing.isPaused c))
              (if negb (Billing.isPaused c) then Some "Paused by admin" else None)) ;;
         ret (Billing.Redirect "/admin")
     end).

(** [POST /admin/clients/:id/booking]; [bookingUrl] is the field of the
    form, if it has one. *)
Definition post_admin_clients_booking (admin : bool) (id : string)
    (bookingUrl : option string) : Billing.M Billing.Response :=
  Billing.requireAdmin admin
    (Billing.client_update id (set_bookingUrl (Js.or_else bookingUrl None)) ;;
     ret (Billing.Redirect "/admin")).

(** [GET /c/:code] *)
Definition get_landing (code : string) : Billing.M Page :=
  let* client := Billing.client_findUnique_code code in
  match client with
  | None => ret (PageStatus 404 "Client not found")
  | Some (_, client) =>
      if Billing.isPaused client
      then ret (PageStatus 403 "This client is paused. Please contact support.")
      else ret (PageRender "landing" client)
  end.

(** [POST /lead], for a form that carries [clientCode], [name] and
    [email]. *)
Definition post_lead (clientCode name email : string) (phone message : option string)
  : M Page :=
  let* client := lift (Billing.client_findUnique_code clientCode) in
  match client with
  | None => ret (PageStatus 400 "Invalid client")
  | Some (id, client) =>
      modify (with_leads (λ l, l ++
        [{| clientId := id; lead_name := name; lead_email := email;
            lead_phone := Js.or_else phone None;
            lead_message := Js.or_else message None |}])) ;;
      ret (PageRender "thanks" client)
  end.

End Handlers.

End BillingRun.

(** ** Vocabulary of the statements about the billing check *)

Module BillingPass.
Import Billing BillingRun.
Local Open Scope Z_scope.

(** The test of the first branch: the due date has passed and the client
    is not paused. *)
Definition overdue (now : Z) (c : Client) : bool :=
  (nextDueDate c <? now) && negb (isPaused c).

(** The last reminder went out on the local calendar day of [now]. *)
Definition reminded_today (E : BillingRun.Env) (now : Z) (c : Client) : bool :=
  match lastReminderAt c with
  | Some last => same_local_day (zone (base E)) last now
  | None => false
  end.

(** The count of days left is one of the two reminder settings. *)
Definition on_reminder_day (E : BillingRun.Env) (now : Z) (c : Client) : bool :=
  is_day (daysBetween now (nextDueDate c)) (remind1 E) ||
  is_day (daysBetween now (nextDueDate c)) (remind2 E).

(** What a check at [now] makes of the record [c], and the mails it asks
    for. *)
Definition billed (E : BillingRun.Env) (now : Z) (c : Client) : Client :=
  if overdue now c then set_paused true (Some "Payment overdue") c
  else if negb (reminded_today E now c) && on_reminder_day E now c
       then set_lastReminderAt (Some now) c
       else c.

Definition bill_mails (E : BillingRun.Env) (now : Z) (c : Client) : list Mail :=
  let notify := Js.truthy_opt (getenv E "YOUR_NOTIFY_EMAIL") in
  if overdue now c then
    pausedMail E c :: (if notify then [adminPausedMail E c (nextDueDate c)] else [])
  else if negb (reminded_today E now c) && on_reminder_day E now c then
    reminderMail E c (daysBetween now (nextDueDate c)) ::
    (if notify then [adminReminderMail E c (daysBetween now (nextDueDate c))] else [])
  else [].

End BillingPass.

(** ** Sample data of the billing check *)

Module BillingSample.
Import Billing BillingRun.
Local Open Scope Z_scope.

(** Settings with the default reminder days and an operator address, but no
    SMTP settings; every reading of the clock gives [now]. *)
Definition env (now : Z) : BillingRun.Env :=
  {| base := {| zone := Date.utc_zone; clock := λ _, now |};
     process_env := {[ "YOUR_NOTIFY_EMAIL" := "ops@orbit.test" ]};
     remind1 := Some 5; remind2 := Some 1;
     sendMail_error := λ _ _, None |}.

Definition client (code_ : string) (due : Z) (paused : bool) (reason : option string)
    (last : option Z) : Client :=
  {| name := "Acme"; code := code_; email := "owner@acme.test"; bookingUrl := None;
     subscriptionStart := due - 30 * Date.msPerDay; nextDueDate := due;
     isPaused := paused; pauseReason := reason; lastReminderAt := last |}.

(** At five past midnight on 2 March 2024: a client an hour overdue; a
    client paused by the administrator whose payment is due in five days;
    and a client due in a day who was reminded six minutes ago, at 23:59. *)
Definition late : Client :=
  client "late" (Sample.at_00_05 - 60 * 60 * 1000) false None None.

Definition held : Client :=
  client "held" (Sample.at_00_05 + 5 * Date.msPerDay - 60 * 60 * 1000) true
    (Some "Paused by admin") None.

Definition nagged : Client :=
  client "nagged" (Sample.at_00_05 + 20 * 60 * 60 * 1000) false None
    (Some Sample.at_23_59).

(** A client paused by an earlier check, a day overdue. *)
Definition lapsed : Client :=
  client "lapsed" (Sample.at_00_05 - Date.msPerDay) true (Some "Payment overdue") None.

Definition world : BillingRun.World :=
  {| db := {| clients := <["b1" := late]> (<["b2" := held]> (<["b3" := nagged]>
                           (<["b4" := lapsed]> ∅)));
              clientIntakes := ∅; reads := 0 |};
     leads := []; calls := []; wire := []; console := [] |}.

End BillingSample.

(** * Properties *)

(** ** Reasoning about computations *)

Module AsyncFacts.
Import Async.

Section Rules.
Context {W : Type}.
Implicit Types w : W.

Lemma returns_ret {A} (a : A) w (Q : A → W → Prop) :
  Q a w → returns (ret a) w Q.
Proof. intros HQ. exists a, w. done. Qed.

Lemma returns_bind {A B} (m : M W A) (k : A → M W B) w (Q : B → W → Prop) :
  returns m w (λ a w', returns (k a) w' Q) → returns (bind m k) w Q.
Proof.
  intros (a & w' & Hm & b & w'' & Hk & HQ).
  exists b, w''. unfold bind. rewrite Hm. done.
Qed.

Lemma returns_mono {A} (m : M W A) w (Q Q' : A → W → Prop) :
  returns m w Q → (∀ a w', Q a w' → Q' a w') → returns m w Q'.
Proof. intros (a & w' & Hm & HQ) Himp. exists a, w'. auto. Qed.

Lemma returns_gets {A} (f : W → A) w (Q : A → W → Prop) :
  Q (f w) w → returns (gets f) w Q.
Proof. intros HQ. exists (f w), w. done. Qed.

Lemma returns_modify (f : W → W) w (Q : unit → W → Prop) :
  Q tt (f w) → returns (modify f) w Q.
Proof. intros HQ. exists tt, (f w). done. Qed.

Lemma returns_when (b : bool) (m : M W unit) w (Q : unit → W → Prop) :
  (b = true → returns m w Q) → (b = false → Q tt w) → returns (when b m) w Q.
Proof.
  destruct b; simpl; intros Ht Hf; [auto|]. apply returns_ret. auto.
Qed.

(** A computation has one outcome: what holds of its result holds of the
    result it is observed to have. *)
Lemma returns_inv {A} (m : M W A) w (Q : A → W → Prop) a w' :
  returns m w Q → m w = (Returned a, w') → Q a w'.
Proof. intros (a0 & w0 & Hm & HQ) Hrun. rewrite Hm in Hrun. by simplify_eq. Qed.

Lemma returns_run {A} (m : M W A) w a w' :
  m w = (Returned a, w') → returns m w (λ b v, b = a ∧ v = w').
Proof. intros Hm. exists a, w'. done. Qed.

Lemma for_of_app {A} (l1 l2 : list A) (body : A → M W unit) w :
  for_of (l1 ++ l2) body w = bind (for_of l1 body) (λ _, for_of l2 body) w.
Proof.
  revert w. induction l1 as [|x l1 IH]; intros w; simpl; [done|].
  unfold bind. destruct (body x w) as [[[]|e] w1]; [|done].
  rewrite IH. done.
Qed.

(** A loop whose body keeps an invariant returns, and the invariant holds at
    the end. *)
Lemma returns_for_of {A} (l : list A) (body : A → M W unit) (I : W → Prop) w :
  (∀ x v, x ∈ l → I v → returns (body x) v (λ _ v', I v')) →
  I w → returns (for_of l body) w (λ _ w', I w').
Proof.
  revert w. induction l as [|x l IH]; intros w Hbody HI; simpl.
  - by apply returns_ret.
  - apply returns_bind. eapply returns_mono.
    + apply Hbody; [left|done].
    + intros ? v HIv. apply IH; [|done].
      intros y u Hy. apply Hbody. by right.
Qed.

End Rules.

End AsyncFacts.

(** ** Dates *)

Module DateFacts.
Import Date.
Local Open Scope Z_scope.

(** [ceil_div ms d] is the least integer [q] with [ms <= d * q]. *)
Lemma ceil_div_spec (ms d : Z) :
  0 < d → d * (ceil_div ms d - 1) < ms ≤ d * ceil_div ms d.
Proof.
  intros Hd. unfold ceil_div.
  pose proof (Z.div_mod (- ms) d) as Hdm.
  pose proof (Z.mod_pos_bound (- ms) d Hd) as Hmod.
  lia.
Qed.

Lemma ceil_div_unique (ms d q : Z) :
  0 < d → d * (q - 1) < ms ≤ d * q → ceil_div ms d = q.
Proof.
  intros Hd Hq. pose proof (ceil_div_spec ms d Hd) as Hc. nia.
Qed.

Lemma ceil_div_nonpos (ms d : Z) : 0 < d → ceil_div ms d ≤ 0 ↔ ms ≤ 0.
Proof. intros Hd. pose proof (ceil_div_spec ms d Hd). nia. Qed.

Lemma setDate_plus_fixed_offset (tz : TimeZone) (t days : Z) :
  fixed_offset tz → setDate_plus tz t days = t + days * msPerDay.
Proof.
  intros (off & Hu & Hl). unfold setDate_plus, UTC, LocalTime.
  rewrite Hu, Hl. lia.
Qed.

End DateFacts.

(** ** The server of [src/server.js] *)

Module ServerFacts.
Import Async AsyncFacts Server Reconciler Pass.
Local Open Scope Z_scope.

Section Facts.
Variable E : Env.

(** *** The mail helper *)

Lemma sendEmail_returns (m : Mail) (w : World) :
  returns (sendEmail E m) w (λ r w',
    clients w' = clients w ∧ leads w' = leads w ∧
    intakeRequests w' = intakeRequests w ∧ reads w' = reads w ∧
    calls w' = calls w ++ [m]).
Proof.
  unfold returns, sendEmail, bind, try_catch, modify, console_log, ret,
    transporter_sendMail.
  destruct (smtpReady E); simpl.
  - destruct (sendMail_error E _ _); simpl; eauto 10.
  - eauto 10.
Qed.

(** What [sendEmail] returns when the configuration is missing, when the
    transport throws, and when it accepts the message. *)
Lemma sendEmail_result (m : Mail) (w : World) :
  ∃ r w', sendEmail E m w = (Returned r, w') ∧
    (smtpReady E = false → r = {| ok := false; error := None |}) ∧
    (∀ err, smtpReady E = true →
       sendMail_error E (length (wire w)) (outgoing E m) = Some err →
       r = {| ok := false; error := Some err |}) ∧
    (smtpReady E = true →
       sendMail_error E (length (wire w)) (outgoing E m) = None →
       r = {| ok := true; error := None |}).
Proof.
  unfold sendEmail, bind, try_catch, modify, console_log, ret, transporter_sendMail.
  destruct (smtpReady E); simpl.
  - destruct (sendMail_error E _ _) as [e|] eqn:He; simpl.
    + eexists _, _. split_and!; [done|done| |done].
      intros err _ Herr. by simplify_eq.
    + eexists _, _. split_and!; done.
  - eexists _, _. split_and!; done.
Qed.

Lemma returns_sendEmail (m : Mail) w (Q : SendResult → World → Prop) :
  (∀ r w', clients w' = clients w → leads w' = leads w →
     intakeRequests w' = intakeRequests w → reads w' = reads w →
     calls w' = calls w ++ [m] → Q r w') →
  returns (sendEmail E m) w Q.
Proof.
  intros Hk. eapply returns_mono; [apply sendEmail_returns|].
  intros r w' (?&?&?&?&?). by apply Hk.
Qed.

Lemma returns_Date_now now w (Q : Z → World → Prop) :
  frozen E now → Q now (with_reads S w) → returns (Date_now E) w Q.
Proof.
  intros Hfr Hk. exists now, (with_reads S w). unfold Date_now. by rewrite Hfr.
Qed.

Lemma returns_client_update id data r w (Q : unit → World → Prop) :
  clients w !! id = Some r →
  Q tt (with_clients (insert id (data r)) w) →
  returns (client_update id data) w Q.
Proof.
  intros Hr Hk. exists tt, (with_clients (insert id (data r)) w).
  unfold client_update. by rewrite Hr.
Qed.

Lemma returns_Date_now_any w (Q : Z → World → Prop) :
  Q (clock E (reads w)) (with_reads S w) → returns (Date_now E) w Q.
Proof. intros HQ. exists (clock E (reads w)), (with_reads S w). done. Qed.

Lemma returns_requireAdmin (next : M Response) w (Q : Response → World → Prop) :
  returns next w Q → returns (requireAdmin true next) w Q.
Proof. done. Qed.

End Facts.

(** One step of a handler, at a frozen clock [Hfr]. *)
Ltac step Hfr :=
  lazymatch goal with
  | |- returns (bind _ _) _ _ => apply returns_bind
  | |- returns (ret _) _ _ => apply returns_ret; cbv beta iota
  | |- returns (when _ _) _ _ => progress cbn [when negb andb]
  | |- returns (Date_now _) _ _ => apply (returns_Date_now _ _ _ _ Hfr)
  | |- returns (client_update _ _) _ _ =>
      eapply returns_client_update; [simpl; eassumption|]
  | |- returns (sendEmail _ _) _ _ =>
      apply returns_sendEmail;
      let Hc := fresh "Hc" in let Hl := fresh "Hl" in let Hi := fresh "Hi" in
      let Hrd := fresh "Hrd" in let Hm := fresh "Hm" in
      intros ? ? Hc Hl Hi Hrd Hm; simpl in Hc, Hl, Hi, Hrd, Hm
  end.

(** One step of a handler that reads the clock as it stands. *)
Ltac step0 :=
  lazymatch goal with
  | |- returns (Date_now _) _ _ => apply returns_Date_now_any
  | |- returns (requireAdmin true _) _ _ => apply returns_requireAdmin
  | |- returns (gets _) _ _ => apply returns_gets; cbv beta
  | |- returns (match ?o with _ => _ end) _ _ => fail
  | _ => step I
  end.

Section Reconcile.
Variable E : Env.
Variable now : Z.
Hypothesis Hfr : frozen E now.

(** *** The loop body agrees with the specification's decision *)

Lemma checkClient_run id c r w :
  clients w !! id = Some r →
  let v := verdict (REMIND_DAYS_BEFORE E) now c in
  returns (checkClient E (id, c)) w (λ _ w',
    clients w' = <[id := apply_verdict now v r]> (clients w) ∧
    leads w' = leads w ∧ intakeRequests w' = intakeRequests w ∧
    calls w' = calls w ++ verdict_mails E c v).
Proof.
  intros Hr v. subst v. unfold checkClient, verdict.
  destruct (dueAt c) as [due|] eqn:Hdue.
  2:{ step Hfr. simpl. rewrite insert_id by done. by rewrite app_nil_r. }
  unfold getDaysLeft. do 4 step Hfr.
  change (1000 * 60 * 60 * 24) with Date.msPerDay. fold (daysLeft now due).
  generalize (daysLeft now due). intros l.
  unfold reminded_within_24h.
  destruct (bool_decide (status c = "ACTIVE")); simpl.
  2:{ repeat step Hfr. simpl. rewrite insert_id by done. by rewrite app_nil_r. }
  destruct (0 <? l) eqn:Hpos.
  - assert ((l <=? 0) = false) as -> by lia.
    destruct (l <=? REMIND_DAYS_BEFORE E); simpl.
    + destruct (lastReminderAt c) as [last|].
      * do 5 step Hfr. destruct (now - last <? _); simpl; repeat step Hfr.
        -- simpl. rewrite insert_id by done. by rewrite app_nil_r.
        -- simpl. rewrite Hc, Hl, Hi, Hm. done.
      * repeat step Hfr. simpl. rewrite Hc, Hl, Hi, Hm. done.
    + repeat step Hfr. simpl. rewrite insert_id by done. by rewrite app_nil_r.
  - assert ((l <=? 0) = true) as -> by lia. rewrite andb_false_r. simpl.
    repeat step Hfr.
    destruct (Js.truthy (YOUR_NOTIFY_EMAIL E)); simpl; repeat step Hfr.
    + rewrite Hc0, Hl0, Hi0, Hm0, Hc, Hl, Hi, Hm. simpl.
      rewrite <- app_assoc. done.
    + rewrite Hc, Hl, Hi, Hm. done.
Qed.

Lemma loop_run (l : list (string * Client)) w :
  NoDup (l.*1) →
  (∀ id c, (id, c) ∈ l → clients w !! id = Some c) →
  returns (for_of l (checkClient E)) w (λ _ w',
    (∀ j, j ∉ l.*1 → clients w' !! j = clients w !! j) ∧
    (∀ id c, (id, c) ∈ l →
       clients w' !! id =
         Some (apply_verdict now (verdict (REMIND_DAYS_BEFORE E) now c) c)) ∧
    leads w' = leads w ∧ intakeRequests w' = intakeRequests w ∧
    calls w' = calls w ++ loop_mails E now l).
Proof.
  revert w. induction l as [|[id c] l IH]; intros w Hnd Hin; simpl.
  - apply returns_ret. rewrite app_nil_r. split_and!; try done.
    intros ?? H. by apply elem_of_nil in H.
  - apply NoDup_cons in Hnd as [Hid Hnd]. apply returns_bind.
    eapply returns_mono; [apply (checkClient_run id c c), Hin; left|].
    intros _ w1 (Hc1 & Hl1 & Hi1 & Hm1).
    eapply returns_mono; [apply IH; [done|]|].
    + intros id' c' Hin'. rewrite Hc1, lookup_insert_ne.
      * apply Hin. by right.
      * intros ->. apply Hid. apply (list_elem_of_fmap_2 fst) in Hin'. done.
    + intros _ w' (Hout & Hin' & Hl & Hi & Hm). split_and!.
      * intros j Hj. apply not_elem_of_cons in Hj as [Hne Hj].
        rewrite Hout, Hc1, lookup_insert_ne; done.
      * intros id' c' [Heq|Hel]%elem_of_cons.
        -- simplify_eq. rewrite Hout, Hc1 by done. by rewrite lookup_insert_eq.
        -- by apply Hin'.
      * congruence.
      * congruence.
      * rewrite Hm, Hm1. unfold loop_mails. simpl. by rewrite <- app_assoc.
Qed.

(** *** The pass *)

Lemma listing_NoDup w : NoDup ((listing w).*1).
Proof.
  unfold listing. eapply sublist_NoDup; [apply (NoDup_fst_map_to_list (clients w))|].
  apply fmap_sublist, sublist_filter.
Qed.

Lemma elem_of_listing w id c :
  (id, c) ∈ listing w ↔
  clients w !! id = Some c ∧ status c ∈ ["ACTIVE"; "PAUSED"].
Proof.
  unfold listing. rewrite list_elem_of_filter, elem_of_map_to_list. simpl. tauto.
Qed.

Lemma not_listed_idle c :
  status c ∉ ["ACTIVE"; "PAUSED"] →
  verdict (REMIND_DAYS_BEFORE E) now c = Idle.
Proof.
  intros Hnot. unfold verdict. destruct (dueAt c); [|done].
  case_bool_decide as Hst; [|done]. exfalso. apply Hnot. rewrite Hst. left.
Qed.

(** A pass returns; it leaves every record as the specification's decision
    for it says, and attempts the mails of those decisions in the order of
    the iteration. *)
Lemma subscriptionCheck_run w :
  returns (subscriptionCheck E) w (λ _ w',
    (∀ id, clients w' !! id =
       (λ c, apply_verdict now (verdict (REMIND_DAYS_BEFORE E) now c) c)
         <$> clients w !! id) ∧
    leads w' = leads w ∧ intakeRequests w' = intakeRequests w ∧
    calls w' = calls w ++ loop_mails E now (listing w)).
Proof.
  unfold subscriptionCheck. apply returns_bind, returns_gets. fold (listing w).
  eapply returns_mono.
  - apply loop_run; [apply listing_NoDup|]. intros id c. by intros [? _]%elem_of_listing.
  - intros _ w' (Hout & Hin & Hl & Hi & Hm). split_and!; try done.
    intros id. destruct (clients w !! id) as [c|] eqn:Hc; simpl.
    + destruct (decide (status c ∈ ["ACTIVE"; "PAUSED"])) as [Hel|Hel].
      { apply Hin. by apply elem_of_listing. }
      rewrite (not_listed_idle c) by done. simpl. rewrite Hout; [done|].
      intros Hid. apply list_elem_of_fmap in Hid as ([id' c'] & -> & Hel').
      apply elem_of_listing in Hel' as [Hc' Hst']. simpl in *. by simplify_eq.
    + rewrite Hout; [done|].
      intros Hid. apply list_elem_of_fmap in Hid as ([id' c'] & -> & Hel').
      apply elem_of_listing in Hel' as [Hc' _]. simpl in *. by simplify_eq.
Qed.

(** The pass visits a listed record exactly once, and does for it what the
    decision says. *)
Lemma subscriptionCheck_visits w id c :
  clients w !! id = Some c → status c ∈ ["ACTIVE"; "PAUSED"] →
  let v := verdict (REMIND_DAYS_BEFORE E) now c in
  ∃ w1 w2 w',
    visits_once E w id c w1 w2 w' ∧
    clients w' !! id = Some (apply_verdict now v c) ∧
    calls w2 = calls w1 ++ verdict_mails E c v.
Proof.
  intros Hc Hst v.
  assert ((id, c) ∈ listing w) as Hel by by apply elem_of_listing.
  apply list_elem_of_split in Hel as (before & after & Hlist).
  pose proof (listing_NoDup w) as Hnd. rewrite Hlist, fmap_app in Hnd. simpl in Hnd.
  apply NoDup_app in Hnd as (Hnd1 & Hdisj & Hnd2).
  apply NoDup_cons in Hnd2 as [Hafter Hnd2].
  assert (id ∉ before.*1) as Hbefore.
  { intros Hin. apply (Hdisj id Hin). left. }
  assert (∀ id' c', (id', c') ∈ before ++ (id, c) :: after → clients w !! id' = Some c')
    as Hall.
  { intros id' c' Hin. rewrite <- Hlist in Hin. by apply elem_of_listing in Hin as [? _]. }
  destruct (loop_run before w) as ([] & w1 & Hrun1 & Hout1 & _ & _ & _ & _); [done| |].
  { intros id' c' Hin. apply Hall, elem_of_app. by left. }
  assert (clients w1 !! id = Some c) as Hc1 by (by rewrite Hout1).
  destruct (checkClient_run id c c w1 Hc1) as ([] & w2 & Hrun2 & Hc2 & _ & _ & Hm2).
  destruct (loop_run after w2) as ([] & w' & Hrun3 & Hout3 & _ & _ & _ & _); [done| |].
  { intros id' c' Hin. rewrite Hc2, lookup_insert_ne.
    - rewrite Hout1; [apply Hall, elem_of_app; right; by right|].
      intros Hin'. apply (Hdisj id' Hin'). right.
      by apply (list_elem_of_fmap_2 fst) in Hin.
    - intros ->. apply Hafter. by apply (list_elem_of_fmap_2 fst) in Hin. }
  exists w1, w2, w'. split_and!.
  - split.
    + unfold subscriptionCheck, bind, client_findMany_status, gets.
      fold (listing w). rewrite Hlist, for_of_app. unfold bind. rewrite Hrun1.
      cbn [for_of]. unfold bind. rewrite Hrun2. done.
    + exists before, after. done.
  - rewrite Hout3, Hc2 by done. by rewrite lookup_insert_eq.
  - done.
Qed.

Lemma prefix_append (s t : string) : String.prefix s (s +:+ t) = true.
Proof.
  induction s as [|a s IH]; [by destruct t|].
  change (String a s +:+ t) with (String a (s +:+ t)). simpl.
  destruct (ascii_dec a a); [apply IH|done].
Qed.

Lemma reminderMail_is_reminder c left_ : is_reminder (reminderMail E c left_) = true.
Proof. apply prefix_append. Qed.

(** *** The decision in the three cases of the specification *)

Lemma verdict_expire c due :
  status c = "ACTIVE" → dueAt c = Some due →
  Date.ceil_div (due - now) Date.msPerDay ≤ 0 →
  verdict (REMIND_DAYS_BEFORE E) now c = Expire.
Proof.
  intros Hst Hdue Hle. unfold verdict, daysLeft. rewrite Hdue.
  rewrite bool_decide_eq_true_2 by done.
  destruct (0 <? _) eqn:Hpos; [lia|done].
Qed.

Lemma verdict_remind c due :
  status c = "ACTIVE" → dueAt c = Some due →
  0 < Date.ceil_div (due - now) Date.msPerDay ≤ REMIND_DAYS_BEFORE E →
  (∀ last, lastReminderAt c = Some last → 24 * 60 * 60 * 1000 ≤ now - last) →
  verdict (REMIND_DAYS_BEFORE E) now c =
    Remind (Date.ceil_div (due - now) Date.msPerDay).
Proof.
  intros Hst Hdue [Hpos Hle] Hlast. unfold verdict, daysLeft, reminded_within_24h.
  rewrite Hdue, bool_decide_eq_true_2 by done.
  destruct (0 <? _) eqn:Hpos'; [|lia].
  destruct (_ <=? REMIND_DAYS_BEFORE E) eqn:Hle'; [|lia].
  destruct (lastReminderAt c) as [last|]; [|done].
  specialize (Hlast last eq_refl).
  destruct (now - last <? _) eqn:Hlt; [lia|done].
Qed.

Lemma verdict_reminded c last :
  lastReminderAt c = Some last → now - last < 24 * 60 * 60 * 1000 →
  verdict (REMIND_DAYS_BEFORE E) now c = Idle ∨
  verdict (REMIND_DAYS_BEFORE E) now c = Expire.
Proof.
  intros Hlast Hlt. unfold verdict, reminded_within_24h. rewrite Hlast.
  destruct (dueAt c); [|by left].
  case_bool_decide; [|by left].
  destruct (0 <? _); [|by right].
  destruct (now - last <? _) eqn:Hlt'; [|lia].
  rewrite andb_false_r. by left.
Qed.

End Reconcile.
(** *** A pass returns under every clock and every transport *)

Section Steady.
Variable E : Env.

Lemma same_keys_refl w : same_keys w w.
Proof. by intros j. Qed.

Lemma same_keys_trans w1 w2 w3 : same_keys w1 w2 → same_keys w2 w3 → same_keys w1 w3.
Proof. unfold same_keys. intros H12 H23 j. by rewrite H23, H12. Qed.

Lemma same_keys_clients w w' : clients w' = clients w → same_keys w w'.
Proof. intros Heq j. by rewrite Heq. Qed.

Lemma steady_ret {A} id (a : A) : steady id (ret a).
Proof. intros v _. apply returns_ret, same_keys_refl. Qed.

Lemma steady_bind {A B} id (m : M A) (k : A → M B) :
  steady id m → (∀ a, steady id (k a)) → steady id (bind m k).
Proof.
  intros Hm Hk v Hv. apply returns_bind. eapply returns_mono; [by apply Hm|].
  intros a v' Hvv'. eapply returns_mono; [apply Hk; by apply (Hvv' id)|].
  intros b v'' Hv''. exact (same_keys_trans _ _ _ Hvv' Hv'').
Qed.

Lemma steady_when id (b : bool) (m : M unit) : steady id m → steady id (when b m).
Proof. destruct b; [done|]. intros _. apply steady_ret. Qed.

Lemma steady_Date_now id : steady id (Date_now E).
Proof. intros v _. apply returns_Date_now_any. by apply same_keys_clients. Qed.

Lemma steady_sendEmail id m : steady id (sendEmail E m).
Proof. intros v _. apply returns_sendEmail. intros. by apply same_keys_clients. Qed.

Lemma steady_client_update id data : steady id (client_update id data).
Proof.
  intros v [r Hr]. eapply returns_client_update; [done|].
  intros j. simpl. destruct (decide (id = j)) as [->|Hne].
  - rewrite lookup_insert_eq, Hr. split; eauto.
  - by rewrite lookup_insert_ne.
Qed.

Lemma checkClient_steady id c : steady id (checkClient E (id, c)).
Proof.
  unfold checkClient, getDaysLeft.
  repeat first
    [ apply steady_ret | apply steady_Date_now | apply steady_sendEmail
    | apply steady_client_update | apply steady_when
    | apply steady_bind; [|intros ?]
    | match goal with |- steady _ (match ?o with _ => _ end) => destruct o end ].
Qed.

Lemma for_of_checkClient_returns (l : list (string * Client)) w :
  (∀ ic, ic ∈ l → is_Some (clients w !! ic.1)) →
  returns (for_of l (checkClient E)) w (λ _ w', same_keys w w').
Proof.
  revert w. induction l as [|[id c] l IH]; intros w Hl; simpl.
  - apply returns_ret, same_keys_refl.
  - apply returns_bind. eapply returns_mono.
    + apply checkClient_steady, (Hl (id, c)). left.
    + intros ? w1 H1. eapply returns_mono.
      * apply IH. intros ic Hic. apply (H1 ic.1), Hl. by right.
      * intros ? w' H'. exact (same_keys_trans _ _ _ H1 H').
Qed.

Lemma subscriptionCheck_returns w :
  returns (subscriptionCheck E) w (λ _ w', same_keys w w').
Proof.
  unfold subscriptionCheck, client_findMany_status.
  apply returns_bind, returns_gets. apply for_of_checkClient_returns.
  intros [id c] [_ Hin]%list_elem_of_filter. apply elem_of_map_to_list in Hin.
  simpl. eauto.
Qed.

End Steady.

Section Settings.
Variables E E' : Env.
Hypothesis Hsame : same_settings E E'.

Lemma bankDetailsHtml_same : bankDetailsHtml E = bankDetailsHtml E'.
Proof.
  destruct Hsame as (_ & _ & _ & Henv). unfold bankDetailsHtml, getenv.
  rewrite !Henv; [done|set_solver..].
Qed.

Lemma verdict_mails_same c v : verdict_mails E c v = verdict_mails E' c v.
Proof.
  pose proof bankDetailsHtml_same as Hbank.
  destruct Hsame as (_ & _ & Hop & _).
  destruct v; simpl; [done| |].
  - unfold reminderMail. by rewrite Hbank.
  - unfold autoPauseMail, autoPauseOperatorMail. by rewrite Hbank, Hop.
Qed.

Lemma loop_mails_same now l : loop_mails E now l = loop_mails E' now l.
Proof.
  destruct Hsame as (_ & Hrem & _ & _). unfold loop_mails. f_equal.
  apply map_ext. intros [id c]. simpl. rewrite Hrem. apply verdict_mails_same.
Qed.

End Settings.

Section Actions.
Variable E : Env.

(** *** Admin actions *)

Lemma paid_run id c w :
  clients w !! id = Some c →
  let now := clock E (reads w) in
  returns (post_admin_clients_paid E true id) w (λ r w',
    r = Redirect "/admin" ∧
    clients w' =
      <[id := set_pauseReason None (set_pausedAt None
                (set_dueAt (Some (addDays E now (PLAN_DAYS E)))
                   (set_startedAt (Some now) (set_status "ACTIVE" c))))]> (clients w) ∧
    leads w' = leads w ∧ intakeRequests w' = intakeRequests w ∧
    calls w' = calls w ++ [reactivatedMail c]).
Proof.
  intros Hc now. unfold post_admin_clients_paid, client_findUnique_id.
  do 3 step0. rewrite Hc. repeat step0.
  rewrite Hc0, Hl, Hi, Hm. done.
Qed.

Lemma pause_run id c w :
  clients w !! id = Some c →
  let now := clock E (reads w) in
  returns (post_admin_clients_pause E true id) w (λ r w',
    r = Redirect "/admin" ∧
    clients w' =
      <[id := set_pauseReason (Some "manual")
                (set_pausedAt (Some now) (set_status "PAUSED" c))]> (clients w) ∧
    leads w' = leads w ∧ intakeRequests w' = intakeRequests w ∧
    calls w' = calls w ++ [manualPauseMail E c]).
Proof.
  intros Hc now. unfold post_admin_clients_pause, client_findUnique_id.
  do 3 step0. rewrite Hc. repeat step0.
  rewrite Hc0, Hl, Hi, Hm. done.
Qed.

(** Mark-paid does not touch [lastReminderAt]. *)
Lemma paid_keeps_reminder_stamp id c w :
  clients w !! id = Some c →
  returns (post_admin_clients_paid E true id) w (λ _ w',
    lastReminderAt <$> clients w' !! id = Some (lastReminderAt c)).
Proof.
  intros Hc. eapply returns_mono; [by apply paid_run|].
  intros r w' (_ & Hc' & _). by rewrite Hc', lookup_insert_eq.
Qed.

(** *** Lead intake *)

(** [findUnique({ where: { code } })] finds the record that has the code,
    when one record has it. *)
Lemma findUnique_code_unique w cd id client :
  clients w !! id = Some client → code client = cd →
  (∀ j c', clients w !! j = Some c' → code c' = cd → j = id) →
  head (filter (λ ic : string * Client, code ic.2 = cd) (map_to_list (clients w)))
    = Some (id, client).
Proof.
  intros Hc Hcd Huniq.
  assert ((id, client) ∈ filter (λ ic : string * Client, code ic.2 = cd)
            (map_to_list (clients w))) as Hin.
  { apply list_elem_of_filter. split; [done|]. by apply elem_of_map_to_list. }
  destruct (filter _ _) as [|[j c'] l] eqn:Hf; [by apply elem_of_nil in Hin|].
  assert ((j, c') ∈ filter (λ ic : string * Client, code ic.2 = cd)
            (map_to_list (clients w))) as Hj by (rewrite Hf; left).
  apply list_elem_of_filter in Hj as [Hcode Hj]. apply elem_of_map_to_list in Hj.
  simpl in Hcode. assert (j = id) as -> by eauto. simpl. by simplify_eq.
Qed.

Lemma lead_run cd body id client w :
  head (filter (λ ic : string * Client, code ic.2 = cd) (map_to_list (clients w)))
    = Some (id, client) →
  let lead := submitted_lead id body in
  returns (post_lead E cd body) w (λ r w',
    r = Render "thanks" ∧
    clients w' = clients w ∧ intakeRequests w' = intakeRequests w ∧
    leads w' = leads w ++ [lead] ∧
    calls w' = calls w ++
      (if bool_decide (status client = "ACTIVE") then
         newLeadMail client lead ::
         (if Js.truthy (YOUR_NOTIFY_EMAIL E)
          then [newLeadOperatorMail E client lead] else []) ++
         match bookingLink client with
         | Some link => if Js.truthy link then [autoReplyMail client link lead] else []
         | None => []
         end
       else [])).
Proof.
  intros Hfind lead. unfold post_lead, client_findUnique_code.
  do 2 step0. rewrite Hfind. apply returns_bind.
  exists lead, (with_leads (λ l, l ++ [lead]) w). split; [done|].
  destruct (bool_decide (status client = "ACTIVE"));
    destruct (Js.truthy (YOUR_NOTIFY_EMAIL E));
    (destruct (bookingLink client) as [link|]; [destruct (Js.truthy link)|]);
    simpl; repeat step0; simpl;
    repeat match goal with H : _ = _ |- _ => rewrite H end;
    rewrite <- ?app_assoc, ?app_nil_r; done.
Qed.

(** *** Approval of an intake *)

Lemma findUnique_code_free w cd :
  (∀ j c, clients w !! j = Some c → code c ≠ cd) →
  head (filter (λ ic : string * Client, code ic.2 = cd) (map_to_list (clients w))) = None.
Proof.
  intros Hfree. destruct (filter _ _) as [|[j c] l] eqn:Hf; [done|]. exfalso.
  assert ((j, c) ∈ filter (λ ic : string * Client, code ic.2 = cd)
            (map_to_list (clients w))) as Hin by (rewrite Hf; left).
  apply list_elem_of_filter in Hin as [Hcd Hin]. apply elem_of_map_to_list in Hin.
  by apply (Hfree j c).
Qed.

Lemma returns_client_create data w (Q : string * Client → World → Prop) :
  (∀ j c, clients w !! j = Some c → code c ≠ code data) →
  Q (fresh (dom (clients w)), data)
    (with_clients (insert (fresh (dom (clients w))) data) w) →
  returns (client_create data) w Q.
Proof.
  intros Hfree HQ. unfold returns, client_create.
  rewrite findUnique_code_free by done. eauto.
Qed.

Lemma returns_intakeRequest_update id data r w (Q : unit → World → Prop) :
  intakeRequests w !! id = Some r →
  Q tt (with_intakeRequests (insert id (data r)) w) →
  returns (intakeRequest_update id data) w Q.
Proof.
  intros Hr HQ. unfold returns, intakeRequest_update. rewrite Hr. eauto.
Qed.

Lemma approve_run id body ir w :
  intakeRequests w !! id = Some ir →
  let submitted := Js.trim (Js.or_str (body !! "code") "") in
  (submitted = "" →
   post_admin_intake_approve E true id body w = (Returned (Redirect "/admin"), w)) ∧
  (submitted ≠ "" →
   (∀ j c, clients w !! j = Some c → code c ≠ submitted) →
   ∃ w' c,
     post_admin_intake_approve E true id body w = (Returned (Redirect "/admin"), w') ∧
     clients w !! fresh (dom (clients w)) = None ∧
     clients w' = <[fresh (dom (clients w)) := c]> (clients w) ∧
     code c = submitted ∧ name c = business ir ∧ status c = "ACTIVE" ∧
     intake_status <$> intakeRequests w' !! id = Some "APPROVED").
Proof.
  intros Hir submitted. split.
  - intros Hempty.
    assert (returns (post_admin_intake_approve E true id body) w
              (λ r w', r = Redirect "/admin" ∧ w' = w)) as (r & w' & Hrun & -> & ->);
      [|done].
    unfold post_admin_intake_approve, intakeRequest_findUnique. fold submitted.
    rewrite Hempty. do 3 step0. rewrite Hir. cbn. by apply returns_ret.
  - intros Hne Hfree.
    assert (returns (post_admin_intake_approve E true id body) w
              (λ r w', r = Redirect "/admin" ∧
                 ∃ c, clients w' = <[fresh (dom (clients w)) := c]> (clients w) ∧
                      code c = submitted ∧ name c = business ir ∧ status c = "ACTIVE" ∧
                      intake_status <$> intakeRequests w' !! id = Some "APPROVED"))
      as (r & w' & Hrun & -> & c & Hc & Hcode & Hname & Hst & Happ).
    { unfold post_admin_intake_approve, intakeRequest_findUnique. fold submitted.
      do 3 step0. rewrite Hir. unfold Js.truthy.
      rewrite bool_decide_eq_true_2 by done. cbn [negb].
      do 3 step0. apply returns_client_create; [done|].
      step0. eapply returns_intakeRequest_update; [done|]. step0.
      split; [done|]. eexists. split_and!; try done.
      cbn. by rewrite lookup_insert_eq. }
    exists w', c. split_and!; try done. apply not_elem_of_dom, is_fresh.
Qed.

End Actions.
End ServerFacts.

(** ** The variant whose mail helper has no [try] / [catch] *)

Module EarlyFacts.
Import Async Server.

(** There, a transport error escapes [sendEmail]. *)
Lemma sendEmail_throws (E : Env) (m : Mail) (w : World) (err : string) :
  smtpReady E = true →
  sendMail_error E (length (wire w)) (outgoing E m) = Some err →
  ∃ w', Early.sendEmail E m w = (Thrown err, w').
Proof.
  intros Hready Herr.
  unfold Early.sendEmail, bind, modify, transporter_sendMail.
  rewrite Hready. simpl. rewrite Herr. eauto.
Qed.

End EarlyFacts.

(** ** The variant with derived client codes *)

Module BillingFacts.
Import Async AsyncFacts Billing Derivation.
Local Open Scope Z_scope.

(** *** Strings *)

Lemma append_nil_r (s : string) : s +:+ "" = s.
Proof.
  induction s as [|a s IH]; [done|].
  change (String a s +:+ "") with (String a (s +:+ "")). by rewrite IH.
Qed.

Lemma pretty_N_go_nonempty (x : N) (s : string) : s ≠ "" → pretty_N_go x s ≠ "".
Proof.
  revert s. induction (N.lt_wf_0 x) as [x _ IH]; intros s Hs.
  destruct (decide (x = 0)%N) as [->|Hx]; [by rewrite pretty_N_go_0|].
  rewrite pretty_N_go_step by lia. apply IH; [apply N.div_lt; lia|done].
Qed.

Lemma num_nonempty (n : Z) : Js.num n ≠ "".
Proof.
  unfold Js.num, pretty, pretty_Z. destruct n as [|p|p]; [done| |done].
  unfold pretty, pretty_positive, pretty, pretty_N.
  case_decide; [done|]. 
  assert (0 < N.pos p)%N as Hp by lia.
  rewrite pretty_N_go_step by done. by apply pretty_N_go_nonempty.
Qed.

Lemma candidate_inj baseCode j k :
  1 ≤ j → 1 ≤ k → candidate baseCode j = candidate baseCode k → j = k.
Proof.
  intros Hj Hk. unfold candidate.
  destruct (j =? 1) eqn:Ej, (k =? 1) eqn:Ek; intros Heq; [lia| | |].
  - exfalso. rewrite <- (append_nil_r baseCode) in Heq at 1.
    apply (inj (String.app baseCode)) in Heq. by apply (num_nonempty k).
  - exfalso. rewrite <- (append_nil_r baseCode) in Heq at 2.
    apply (inj (String.app baseCode)) in Heq. by apply (num_nonempty j).
  - apply (inj (String.app baseCode)) in Heq. by apply (inj pretty) in Heq.
Qed.

Section Approval.
Variable E : Env.

Lemma findUnique_code_None w cd :
  head (filter (λ ic : string * Client, code ic.2 = cd) (map_to_list (clients w))) = None
  ↔ ¬ taken w cd.
Proof.
  rewrite head_None. split.
  - intros Hnil (id & c & Hc & Hcd).
    assert ((id, c) ∈ filter (λ ic : string * Client, code ic.2 = cd)
              (map_to_list (clients w))) as Hin.
    { apply list_elem_of_filter. split; [done|]. by apply elem_of_map_to_list. }
    rewrite Hnil in Hin. by apply elem_of_nil in Hin.
  - intros Hfree. destruct (filter _ _) as [|[id c] l] eqn:Hf; [done|]. exfalso.
    assert ((id, c) ∈ filter (λ ic : string * Client, code ic.2 = cd)
              (map_to_list (clients w))) as Hin by (rewrite Hf; left).
    apply list_elem_of_filter in Hin as [Hcd Hin]. apply elem_of_map_to_list in Hin.
    apply Hfree. by exists id, c.
Qed.

Lemma findUnique_code_Some w cd x :
  head (filter (λ ic : string * Client, code ic.2 = cd) (map_to_list (clients w))) = Some x
  → taken w cd.
Proof.
  intros Hhead. destruct (decide (taken w cd)) as [|Hfree]; [done|].
  apply findUnique_code_None in Hfree. congruence.
Qed.

(** The loop ends on the first free candidate from [n] on, or uses up its
    bound on candidates that are all taken. *)
Lemma whileCodeTaken_spec fuel baseCode n w :
  1 ≤ n →
  (∃ n', whileCodeTaken fuel baseCode n (candidate baseCode n) w
           = (Returned (n', candidate baseCode n'), w) ∧
         n ≤ n' < n + Z.of_nat fuel ∧
         ¬ taken w (candidate baseCode n') ∧
         ∀ k, n ≤ k < n' → taken w (candidate baseCode k)) ∨
  (whileCodeTaken fuel baseCode n (candidate baseCode n) w
     = (Thrown "loop bound reached", w) ∧
   ∀ k, n ≤ k < n + Z.of_nat fuel → taken w (candidate baseCode k)).
Proof.
  revert n. induction fuel as [|fuel IH]; intros n Hn.
  - right. split; [done|]. lia.
  - cbn [whileCodeTaken]. unfold bind, client_findUnique_code, gets.
    destruct (head _) as [x|] eqn:Hhead.
    + apply findUnique_code_Some in Hhead.
      assert (baseCode +:+ Js.num (n + 1) = candidate baseCode (n + 1)) as ->.
      { unfold candidate. destruct (n + 1 =? 1) eqn:Hn1; [lia|done]. }
      destruct (IH (n + 1)) as [(n' & Hrun & Hbound & Hfree & Hbelow)|[Hrun Hall]]; [lia|..].
      * left. exists n'. split_and!; [done|lia|lia|done|].
        intros k Hk. destruct (decide (k = n)) as [->|]; [done|]. apply Hbelow. lia.
      * right. split; [done|]. intros k Hk.
        destruct (decide (k = n)) as [->|]; [done|]. apply Hall. lia.
    + apply findUnique_code_None in Hhead. left. exists n.
      split_and!; [done|lia|lia|done|]. lia.
Qed.

(** There are more candidates than clients: they are not all taken. *)
Lemma candidates_not_all_taken baseCode w :
  ¬ ∀ k, 1 ≤ k < 1 + Z.of_nat (S (size (clients w))) → taken w (candidate baseCode k).
Proof.
  intros Hall.
  set (cands := candidate baseCode <$> seqZ 1 (Z.of_nat (S (size (clients w))))).
  set (codes := (λ ic : string * Client, code ic.2) <$> map_to_list (clients w)).
  assert (NoDup cands) as Hnd.
  { apply NoDup_fmap_2_strong; [|apply NoDup_seqZ].
    intros j k Hj Hk. apply elem_of_seqZ in Hj, Hk. apply candidate_inj; lia. }
  assert (cands ⊆+ codes) as Hsub.
  { apply NoDup_submseteq; [done|]. intros cd Hcd.
    apply list_elem_of_fmap in Hcd as (k & -> & Hk). apply elem_of_seqZ in Hk.
    destruct (Hall k) as (id & c & Hc & Hcode); [lia|].
    apply list_elem_of_fmap. exists (id, c). split; [done|]. by apply elem_of_map_to_list. }
  apply submseteq_length in Hsub. unfold cands, codes in Hsub.
  rewrite !length_fmap, length_seqZ, length_map_to_list in Hsub. lia.
Qed.


Lemma intakes_approve_run id intake w :
  clientIntakes w !! id = Some intake →
  let baseCode := deriveBaseCode (businessName intake) in
  ∃ n w' c,
    post_admin_intakes_approve E true id w = (Returned (Redirect "/admin"), w') ∧
    1 ≤ n ∧
    ¬ taken w (candidate baseCode n) ∧
    (∀ k, 1 ≤ k < n → taken w (candidate baseCode k)) ∧
    clients w !! fresh (dom (clients w)) = None ∧
    clients w' = <[fresh (dom (clients w)) := c]> (clients w) ∧
    code c = candidate baseCode n ∧
    name c = businessName intake ∧ email c = intake_email intake ∧
    isPaused c = false ∧
    subscriptionStart c = clock E (reads w) ∧
    nextDueDate c = addDays E (clock E (reads w)) 30 ∧
    intake_status <$> clientIntakes w' !! id = Some "approved".
Proof.
  intros Hintake baseCode.
  unfold post_admin_intakes_approve, requireAdmin. cbn [negb].
  unfold bind at 1. unfold clientIntake_findUnique, gets at 1. rewrite Hintake.
  unfold bind at 1. unfold gets at 1. fold baseCode.
  unfold bind at 1.
  destruct (whileCodeTaken_spec (S (size (clients w))) baseCode 1 w)
    as [(n & Hrun & Hbound & Hfree & Hbelow)|[_ Hall]]; [lia| |].
  2:{ exfalso. by apply (candidates_not_all_taken baseCode w). }
  unfold candidate at 1 in Hrun. cbn [Z.eqb Pos.eqb] in Hrun. rewrite Hrun. cbn [snd].
  unfold bind at 1. unfold Date_now at 1.
  unfold bind at 1. unfold client_create at 1. cbn [code clients].
  pose proof Hfree as Hnone. apply findUnique_code_None in Hnone. rewrite Hnone.
  unfold bind at 1. unfold clientIntake_update. cbn [clientIntakes]. rewrite Hintake.
  unfold ret. eexists n, _, _. split; [reflexivity|].
  split_and!; try done.
  - lia.
  - apply not_elem_of_dom, is_fresh.
  - cbn. by rewrite lookup_insert_eq.
Qed.

(** Mark-paid of this variant clears [lastReminderAt]. *)
Lemma billing_paid_run id c w :
  clients w !! id = Some c →
  ∃ w' c',
    post_admin_clients_paid E true id w = (Returned (Redirect "/admin"), w') ∧
    clients w' !! id = Some c' ∧
    isPaused c' = false ∧ pauseReason c' = None ∧ lastReminderAt c' = None ∧
    subscriptionStart c' = clock E (reads w) ∧
    nextDueDate c' = addDays E (clock E (reads w)) 30.
Proof.
  intros Hc. unfold post_admin_clients_paid, requireAdmin. cbn [negb].
  unfold bind, Date_now, client_update. cbn [clients]. rewrite Hc.
  eexists _, _. split; [reflexivity|]. cbn. by rewrite lookup_insert_eq.
Qed.

End Approval.

(** *** The base of the code *)

Lemma all_chars_strip s : all_chars is_a_z_0_9 (strip_non_a_z_0_9 s) = true.
Proof.
  induction s as [|c s IH]; [done|]. simpl.
  destruct (is_a_z_0_9 c) eqn:Hc; [|done]. simpl. by rewrite Hc, IH.
Qed.

Lemma all_chars_slice0 p n s : all_chars p s = true → all_chars p (slice0 n s) = true.
Proof.
  revert s. induction n as [|n IH]; intros [|c s]; simpl; try done.
  intros [Hc Hs]%andb_true_iff. rewrite Hc. simpl. by apply IH.
Qed.

Lemma length_slice0 n s : (String.length (slice0 n s) ≤ n)%nat.
Proof.
  revert s. induction n as [|n IH]; intros [|c s]; simpl; try lia.
  specialize (IH s). lia.
Qed.

Lemma lower_char_a_z_0_9 c : is_a_z_0_9 c = true → lower_char c = c.
Proof.
  unfold is_a_z_0_9, lower_char. cbv zeta. generalize (N_of_ascii c). intros n Hc.
  rewrite orb_true_iff, !andb_true_iff, !N.leb_le in Hc.
  destruct ((65 <=? n) && (n <=? 90))%N eqn:H1.
  { apply andb_true_iff in H1 as [H1 H1']. apply N.leb_le in H1, H1'. lia. }
  destruct ((192 <=? n) && (n <=? 222) && negb (n =? 215))%N eqn:H2; [|done].
  apply andb_true_iff in H2 as [H2 _]. apply andb_true_iff in H2 as [H2 H2'].
  apply N.leb_le in H2, H2'. lia.
Qed.

Lemma toLowerCase_a_z_0_9 s : all_chars is_a_z_0_9 s = true → toLowerCase s = s.
Proof.
  induction s as [|c s IH]; [done|]. simpl. intros [Hc Hs]%andb_true_iff.
  by rewrite lower_char_a_z_0_9, IH.
Qed.

Lemma strip_a_z_0_9 s : all_chars is_a_z_0_9 s = true → strip_non_a_z_0_9 s = s.
Proof.
  induction s as [|c s IH]; [done|]. simpl. intros [Hc Hs]%andb_true_iff.
  by rewrite Hc, IH.
Qed.

Lemma slice0_short n s : (String.length s ≤ n)%nat → slice0 n s = s.
Proof.
  revert s. induction n as [|n IH]; intros [|c s]; simpl; try done; [lia|].
  intros Hlen. rewrite IH; [done|lia].
Qed.

(** The base: the name, or "client" for an empty one, lowercased, stripped
    and cut, in this order; "client" when nothing is left. *)
Lemma deriveBaseCode_pipeline businessName :
  let cut := slice0 12 (strip_non_a_z_0_9 (toLowerCase
               (if decide (businessName = "") then "client" else businessName))) in
  deriveBaseCode businessName = if decide (cut = "") then "client" else cut.
Proof.
  unfold deriveBaseCode, Js.or_str, Js.truthy. cbv zeta.
  destruct (decide (businessName = "")) as [->|Hne].
  - by vm_compute.
  - rewrite (bool_decide_eq_true_2 (businessName ≠ "")) by done.
    destruct (decide (_ = "")) as [->|Hcut]; [done|].
    by rewrite bool_decide_eq_true_2.
Qed.

(** The base is made of at most 12 characters of [a-z0-9], and is not
    empty. *)
Lemma deriveBaseCode_shape businessName :
  all_chars is_a_z_0_9 (deriveBaseCode businessName) = true ∧
  (0 < String.length (deriveBaseCode businessName) ≤ 12)%nat.
Proof.
  unfold deriveBaseCode.
  set (b := slice0 12 (strip_non_a_z_0_9 (toLowerCase _))).
  assert (all_chars is_a_z_0_9 b = true) as Hchars
    by apply all_chars_slice0, all_chars_strip.
  pose proof (length_slice0 12
    (strip_non_a_z_0_9 (toLowerCase (Js.or_str (Some businessName) "client")))) as Hlen.
  fold b in Hlen. unfold Js.truthy. case_bool_decide as Hb; simpl.
  - split; [done|]. destruct b; [done|]. simpl in *. lia.
  - split; [done|]. simpl. lia.
Qed.

(** A name that already is such a code is its own base. *)
Lemma deriveBaseCode_code s :
  all_chars is_a_z_0_9 s = true → (0 < String.length s ≤ 12)%nat →
  deriveBaseCode s = s.
Proof.
  intros Hchars Hlen. unfold deriveBaseCode, Js.or_str, Js.truthy.
  assert (s ≠ "") as Hne by (intros ->; simpl in Hlen; lia).
  rewrite (bool_decide_eq_true_2 (s ≠ "")) by done.
  rewrite toLowerCase_a_z_0_9, strip_a_z_0_9, slice0_short by (done || lia).
  by rewrite (bool_decide_eq_true_2 (s ≠ "")).
Qed.

End BillingFacts.

(** ** The claims of the specification *)

Module Claims.
Import Async AsyncFacts Server Reconciler Pass ServerFacts.
Local Open Scope Z_scope.

(** C1.  A client that is ACTIVE with a due date and [daysLeft <= 0] is, by
    one pass taken at [now], set to PAUSED with [pausedAt = now] and
    [pauseReason = "expired"] (its other columns unchanged).  The pass visits
    the client once, and that iteration calls [sendEmail] exactly once for
    the pause notification, addressed to the client, followed by one call
    for the operator notification exactly when [YOUR_NOTIFY_EMAIL] is set. *)
Theorem auto_pause_on_expiry (E : Env) (now : Z) (w : World)
    (id : string) (c : Client) (due : Z) :
  frozen E now →
  clients w !! id = Some c → status c = "ACTIVE" → dueAt c = Some due →
  Date.ceil_div (due - now) Date.msPerDay ≤ 0 →
  ∃ w1 w2 w' c',
    visits_once E w id c w1 w2 w' ∧
    clients w' !! id = Some c' ∧
    status c' = "PAUSED" ∧ pausedAt c' = Some now ∧ pauseReason c' = Some "expired" ∧
    c' = set_pauseReason (Some "expired")
           (set_pausedAt (Some now) (set_status "PAUSED" c)) ∧
    calls w2 = calls w1 ++ autoPauseMail E c ::
      (if Js.truthy (YOUR_NOTIFY_EMAIL E) then [autoPauseOperatorMail E c] else []) ∧
    to (autoPauseMail E c) = email c ∧
    to (autoPauseOperatorMail E c) = YOUR_NOTIFY_EMAIL E.
Proof.
  intros Hfr Hc Hst Hdue Hle.
  destruct (subscriptionCheck_visits E now Hfr w id c Hc) as (w1 & w2 & w' & Hv & Hc' & Hm).
  { rewrite Hst. left. }
  rewrite (verdict_expire E now c due) in Hc', Hm by done.
  exists w1, w2, w', (apply_verdict now Expire c). split_and!; done.
Qed.

Lemma auto_pause_on_expiry_witness :
  ∃ w' c',
    subscriptionCheck (Sample.env Sample.noon) Sample.world = (Returned tt, w') ∧
    clients w' !! "c2" = Some c' ∧
    status c' = "PAUSED" ∧ pausedAt c' = Some Sample.noon ∧
    pauseReason c' = Some "expired".
Proof.
  destruct (auto_pause_on_expiry (Sample.env Sample.noon) Sample.noon Sample.world
              "c2" Sample.overdue (Sample.noon - 60 * 60 * 1000))
    as (w1 & w2 & w' & c' & [Hrun _] & Hc' & Hst & Hp & Hr & _).
  - intros k. reflexivity.
  - reflexivity.
  - reflexivity.
  - reflexivity.
  - by vm_compute.
  - exists w', c'. split_and!; done.
Defined.

(** C2.  A client that is ACTIVE, with [0 < daysLeft <= REMIND_DAYS_BEFORE]
    and no reminder in the last 24 hours, has [lastReminderAt = now] after one
    pass taken at [now]; the iteration for it calls [sendEmail] exactly once,
    for a reminder addressed to the client whose subject carries [daysLeft].
    [daysLeft] is any value of the window. *)
Theorem reminder_in_window (E : Env) (now : Z) (w : World)
    (id : string) (c : Client) (due : Z) :
  frozen E now →
  clients w !! id = Some c → status c = "ACTIVE" → dueAt c = Some due →
  0 < Date.ceil_div (due - now) Date.msPerDay ≤ REMIND_DAYS_BEFORE E →
  (∀ last, lastReminderAt c = Some last → 24 * 60 * 60 * 1000 ≤ now - last) →
  let left_ := Date.ceil_div (due - now) Date.msPerDay in
  ∃ w1 w2 w' c',
    visits_once E w id c w1 w2 w' ∧
    clients w' !! id = Some c' ∧
    lastReminderAt c' = Some now ∧
    c' = set_lastReminderAt (Some now) c ∧
    calls w2 = calls w1 ++ [reminderMail E c left_] ∧
    to (reminderMail E c left_) = email c ∧
    subject (reminderMail E c left_) =
      "Payment Reminder: " +:+ Js.num left_ +:+ " day(s) left".
Proof.
  intros Hfr Hc Hst Hdue Hwin Hlast left_.
  destruct (subscriptionCheck_visits E now Hfr w id c Hc) as (w1 & w2 & w' & Hv & Hc' & Hm).
  { rewrite Hst. left. }
  rewrite (verdict_remind E now c due) in Hc', Hm by done.
  exists w1, w2, w', (apply_verdict now (Remind left_) c). split_and!; done.
Qed.

Lemma reminder_in_window_witness :
  ∃ w' c',
    subscriptionCheck (Sample.env Sample.noon) Sample.world = (Returned tt, w') ∧
    clients w' !! "c1" = Some c' ∧
    lastReminderAt c' = Some Sample.noon.
Proof.
  destruct (reminder_in_window (Sample.env Sample.noon) Sample.noon Sample.world
              "c1" Sample.soon (Sample.noon + 18 * 60 * 60 * 1000))
    as (w1 & w2 & w' & c' & [Hrun _] & Hc' & Hl & _).
  - intros k. reflexivity.
  - reflexivity.
  - reflexivity.
  - reflexivity.
  - by vm_compute.
  - intros last Hlast. discriminate Hlast.
  - exists w', c'. split_and!; done.
Defined.

(** C3.  A client reminded by a first pass, taken at [now1], is visited once
    by a second pass taken at any [now2] with [now2 - now1] below 24 hours
    (a difference of time values, whatever the calendar days): the iteration
    for it attempts no reminder, and [lastReminderAt] is still [now1] at the
    end.  The second pass may run under any settings. *)
Theorem no_second_reminder_within_24h (E1 E2 : Env) (now1 now2 : Z) (w : World)
    (id : string) (c : Client) (due : Z) :
  frozen E1 now1 → frozen E2 now2 →
  clients w !! id = Some c → status c = "ACTIVE" → dueAt c = Some due →
  0 < Date.ceil_div (due - now1) Date.msPerDay ≤ REMIND_DAYS_BEFORE E1 →
  (∀ last, lastReminderAt c = Some last → 24 * 60 * 60 * 1000 ≤ now1 - last) →
  now2 - now1 < 24 * 60 * 60 * 1000 →
  ∃ w' c',
    subscriptionCheck E1 w = (Returned tt, w') ∧
    clients w' !! id = Some c' ∧ lastReminderAt c' = Some now1 ∧
    ∃ v1 v2 w'' c'' ms,
      visits_once E2 w' id c' v1 v2 w'' ∧
      calls v2 = calls v1 ++ ms ∧
      Forall (λ m, is_reminder m = false) ms ∧
      clients w'' !! id = Some c'' ∧ lastReminderAt c'' = Some now1.
Proof.
  intros Hfr1 Hfr2 Hc Hst Hdue Hwin Hlast Hlt.
  destruct (subscriptionCheck_visits E1 now1 Hfr1 w id c Hc)
    as (w1 & w2 & w' & [Hrun _] & Hc' & _).
  { rewrite Hst. left. }
  rewrite (verdict_remind E1 now1 c due) in Hc' by done. simpl in Hc'.
  exists w', (set_lastReminderAt (Some now1) c). split_and!; [done..|].
  destruct (subscriptionCheck_visits E2 now2 Hfr2 w' id _ Hc')
    as (v1 & v2 & w'' & Hv & Hc'' & Hm).
  { simpl. rewrite Hst. left. }
  destruct (verdict_reminded E2 now2 (set_lastReminderAt (Some now1) c) now1)
    as [Hidle|Hexp]; [done..| |].
  - rewrite Hidle in Hc'', Hm. eexists v1, v2, w'', _, []. split_and!; done.
  - rewrite Hexp in Hc'', Hm. eexists v1, v2, w'', _, _. split_and!; [done..| |done|done].
    simpl. constructor; [done|].
    destruct (Js.truthy (YOUR_NOTIFY_EMAIL E2)); repeat constructor.
Qed.

Lemma no_second_reminder_within_24h_witness :
  ∃ w' w'' c'',
    subscriptionCheck (Sample.env Sample.at_23_59) Sample.world = (Returned tt, w') ∧
    subscriptionCheck (Sample.env Sample.at_00_05) w' = (Returned tt, w'') ∧
    clients w'' !! "c1" = Some c'' ∧ lastReminderAt c'' = Some Sample.at_23_59.
Proof.
  destruct (no_second_reminder_within_24h
              (Sample.env Sample.at_23_59) (Sample.env Sample.at_00_05)
              Sample.at_23_59 Sample.at_00_05 Sample.world
              "c1" Sample.soon (Sample.noon + 18 * 60 * 60 * 1000))
    as (w' & c' & Hrun1 & _ & _ & v1 & v2 & w'' & c'' & ms & [Hrun2 _] & _ & _ & Hc'' & Hl).
  - intros k. reflexivity.
  - intros k. reflexivity.
  - reflexivity.
  - reflexivity.
  - reflexivity.
  - by vm_compute.
  - intros last Hlast. discriminate Hlast.
  - by vm_compute.
  - exists w', w'', c''. split_and!; done.
Defined.

(** C4.  [getDaysLeft] returns the ceiling of [(dueAt - now) / 1 day]: the
    integer [q] with [(q - 1) days < dueAt - now <= q days].  For a due date
    18 hours ahead it returns 1, and the pass then sends the client a reminder
    whose subject reads "1 day(s) left". *)
Theorem daysLeft_is_ceiling (E : Env) (now : Z) (w : World) (id : string) (c : Client) :
  frozen E now →
  clients w !! id = Some c → status c = "ACTIVE" →
  dueAt c = Some (now + 18 * 60 * 60 * 1000) →
  1 ≤ REMIND_DAYS_BEFORE E →
  (∀ last, lastReminderAt c = Some last → 24 * 60 * 60 * 1000 ≤ now - last) →
  (∀ due v, ∃ q,
     getDaysLeft E (Some due) v = (Returned (Some q), with_reads S v) ∧
     Date.msPerDay * (q - 1) < due - now ≤ Date.msPerDay * q) ∧
  (∀ v, getDaysLeft E (Some (now + 18 * 60 * 60 * 1000)) v
        = (Returned (Some 1), with_reads S v)) ∧
  ∃ w1 w2 w',
    visits_once E w id c w1 w2 w' ∧
    calls w2 = calls w1 ++ [reminderMail E c 1] ∧
    subject (reminderMail E c 1) = "Payment Reminder: 1 day(s) left".
Proof.
  intros Hfr Hc Hst Hdue Hwin Hlast.
  assert (∀ due v, getDaysLeft E (Some due) v
            = (Returned (Some (Date.ceil_div (due - now) Date.msPerDay)), with_reads S v))
    as Hget.
  { intros due v. unfold getDaysLeft, bind, Date_now, ret. by rewrite Hfr. }
  assert (Date.ceil_div (now + 18 * 60 * 60 * 1000 - now) Date.msPerDay = 1) as Hone.
  { apply DateFacts.ceil_div_unique; unfold Date.msPerDay; lia. }
  split_and!.
  - intros due v. eexists. split; [apply Hget|].
    apply DateFacts.ceil_div_spec. unfold Date.msPerDay. lia.
  - intros v. by rewrite Hget, Hone.
  - destruct (subscriptionCheck_visits E now Hfr w id c Hc) as (w1 & w2 & w' & Hv & _ & Hm).
    { rewrite Hst. left. }
    rewrite (verdict_remind E now c (now + 18 * 60 * 60 * 1000)) in Hm;
      [|done|done|rewrite Hone; lia|done].
    rewrite Hone in Hm. exists w1, w2, w'. split_and!; done.
Qed.

Lemma daysLeft_is_ceiling_witness :
  getDaysLeft (Sample.env Sample.noon) (Some (Sample.noon + 18 * 60 * 60 * 1000))
    Sample.world = (Returned (Some 1), with_reads S Sample.world) ∧
  ∃ w', subscriptionCheck (Sample.env Sample.noon) Sample.world = (Returned tt, w').
Proof.
  destruct (daysLeft_is_ceiling (Sample.env Sample.noon) Sample.noon Sample.world
              "c1" Sample.soon)
    as (_ & Hget & w1 & w2 & w' & [Hrun _] & _).
  - intros k. reflexivity.
  - reflexivity.
  - reflexivity.
  - reflexivity.
  - by vm_compute.
  - intros last Hlast. discriminate Hlast.
  - split; [apply Hget|]. by exists w'.
Defined.

(** C5.  Mark-paid on an existing client, whatever its status and due date
    were, returns and leaves [status = ACTIVE], [startedAt = now] and
    [dueAt = addDays now PLAN_DAYS], where [now] is the clock reading of the
    handler; in a zone of constant offset that is [now] plus [PLAN_DAYS]
    days to the millisecond.  The old [dueAt] does not enter the result. *)
Theorem mark_paid_resets_period (E : Env) (w : World) (id : string) (c : Client) :
  clients w !! id = Some c →
  let now := clock E (reads w) in
  ∃ w' c',
    post_admin_clients_paid E true id w = (Returned (Redirect "/admin"), w') ∧
    clients w' !! id = Some c' ∧
    status c' = "ACTIVE" ∧ startedAt c' = Some now ∧
    dueAt c' = Some (addDays E now (PLAN_DAYS E)) ∧
    (Date.fixed_offset (zone E) →
     dueAt c' = Some (now + PLAN_DAYS E * Date.msPerDay)).
Proof.
  intros Hc now.
  destruct (paid_run E id c w Hc) as (r & w' & Hrun & -> & Hc' & _).
  eexists w', _. split_and!; [done|by rewrite Hc', lookup_insert_eq|done..|].
  intros Hfix. simpl. unfold addDays.
  by rewrite DateFacts.setDate_plus_fixed_offset.
Qed.

Lemma mark_paid_resets_period_witness :
  ∃ w' c',
    post_admin_clients_paid (Sample.env Sample.noon) true "c3" Sample.world
      = (Returned (Redirect "/admin"), w') ∧
    clients w' !! "c3" = Some c' ∧
    status c' = "ACTIVE" ∧ startedAt c' = Some Sample.noon ∧
    dueAt c' = Some (Sample.noon + 30 * Date.msPerDay).
Proof.
  destruct (mark_paid_resets_period (Sample.env Sample.noon) Sample.world
              "c3" Sample.paused)
    as (w' & c' & Hrun & Hc' & Hst & Hs & _ & Hdue).
  - reflexivity.
  - exists w', c'. split_and!; [done..|].
    apply Hdue. exists 0. done.
Defined.

(** C6 (the code differs).  Mark-paid on the sample client ["c3"], which was
    reminded three days before, clears [pausedAt] and [pauseReason] and
    leaves [lastReminderAt] as it was. *)
Lemma mark_paid_keeps_lastReminderAt :
  ∃ w' c',
    post_admin_clients_paid (Sample.env Sample.noon) true "c3" Sample.world
      = (Returned (Redirect "/admin"), w') ∧
    clients w' !! "c3" = Some c' ∧
    pausedAt c' = None ∧ pauseReason c' = None ∧
    lastReminderAt Sample.paused = Some (Sample.noon - 3 * Date.msPerDay) ∧
    lastReminderAt c' = Some (Sample.noon - 3 * Date.msPerDay).
Proof.
  destruct (paid_run (Sample.env Sample.noon) "c3" Sample.paused Sample.world eq_refl)
    as (r & w' & Hrun & -> & Hc' & _).
  eexists w', _. split_and!; [done|by rewrite Hc', lookup_insert_eq|done..].
Qed.

(** C7.  [sendEmail] returns a value on every input, whatever the settings
    and whatever the transport does: with the SMTP settings missing the
    value is [{ok: false}], with a transport that throws it is
    [{ok: false, error}]; the database is as before.  A pass therefore
    returns under every clock and every transport.  Taken at one instant, it
    visits every listed client, and the client table and the mails attempted
    at the end are those of a run in which the sends fare differently. *)
Theorem failed_send_is_contained (E E' : Env) (now : Z) (w : World) :
  frozen E now → frozen E' now → same_settings E E' →
  (∀ E0 m w0, ∃ r v,
     sendEmail E0 m w0 = (Returned r, v) ∧
     clients v = clients w0 ∧ leads v = leads w0 ∧
     (smtpReady E0 = false → r = {| ok := false; error := None |}) ∧
     (∀ err, smtpReady E0 = true →
        sendMail_error E0 (length (wire w0)) (outgoing E0 m) = Some err →
        r = {| ok := false; error := Some err |})) ∧
  (∀ E0 w0, ∃ v, subscriptionCheck E0 w0 = (Returned tt, v)) ∧
  ∃ w1 w2,
    subscriptionCheck E w = (Returned tt, w1) ∧
    subscriptionCheck E' w = (Returned tt, w2) ∧
    clients w1 = clients w2 ∧ calls w1 = calls w2 ∧
    ∀ id c, clients w !! id = Some c → status c ∈ ["ACTIVE"; "PAUSED"] →
      ∃ v1 v2, visits_once E w id c v1 v2 w1.
Proof.
  intros Hfr Hfr' Hsame. split_and!.
  - intros E0 m w0.
    destruct (sendEmail_result E0 m w0) as (r & v & Hrun & Hnc & Herr & _).
    exists r, v. split_and!; [done| | |done|done].
    + eapply (returns_inv _ _ _ _ _ (sendEmail_returns E0 m w0) Hrun).
    + eapply (returns_inv _ _ _ _ _ (sendEmail_returns E0 m w0) Hrun).
  - intros E0 w0. destruct (subscriptionCheck_returns E0 w0) as ([] & v & Hrun & _).
    by exists v.
  - destruct (subscriptionCheck_run E now Hfr w) as ([] & w1 & Hrun1 & Hc1 & _ & _ & Hm1).
    destruct (subscriptionCheck_run E' now Hfr' w) as ([] & w2 & Hrun2 & Hc2 & _ & _ & Hm2).
    exists w1, w2. split_and!; [done|done| | |].
    + apply map_eq. intros id. rewrite Hc1, Hc2.
      destruct Hsame as (_ & -> & _). done.
    + rewrite Hm1, Hm2. f_equal. by apply loop_mails_same.
    + intros id c Hc Hst.
      destruct (subscriptionCheck_visits E now Hfr w id c Hc Hst)
        as (v1 & v2 & w' & Hv & _).
      pose proof Hv as [Hrun' _]. rewrite Hrun1 in Hrun'. simplify_eq. eauto.
Qed.

Lemma failed_send_is_contained_witness :
  ∃ r v w1 c',
    sendEmail (Sample.env_refusing Sample.noon)
      (autoPauseMail (Sample.env Sample.noon) Sample.overdue) Sample.world
      = (Returned r, v) ∧
    r = {| ok := false; error := Some "connect ECONNREFUSED" |} ∧
    subscriptionCheck (Sample.env_refusing Sample.noon) Sample.world = (Returned tt, w1) ∧
    clients w1 !! "c2" = Some c' ∧ status c' = "PAUSED".
Proof.
  destruct (failed_send_is_contained
              (Sample.env_refusing Sample.noon) (Sample.env Sample.noon)
              Sample.noon Sample.world)
    as (Hsend & _ & w1 & w2 & Hrun1 & Hrun2 & Hcl & _).
  - intros k. reflexivity.
  - intros k. reflexivity.
  - split_and!; [reflexivity..|]. intros k Hk.
    repeat (apply elem_of_cons in Hk as [->|Hk]; [reflexivity|]).
    by apply elem_of_nil in Hk.
  - destruct (Hsend (Sample.env_refusing Sample.noon)
                (autoPauseMail (Sample.env Sample.noon) Sample.overdue) Sample.world)
      as (r & v & Hrun & _ & _ & _ & Herr).
    exists r, v, w1, (set_pauseReason (Some "expired")
      (set_pausedAt (Some Sample.noon) (set_status "PAUSED" Sample.overdue))).
    split_and!; [done| |done| |done].
    + apply Herr; reflexivity.
    + rewrite Hcl. vm_compute in Hrun2. by simplify_eq.
Defined.

(** C8.  A lead submitted for the code of an existing client is stored,
    whatever the client's status.  When the client is ACTIVE, [sendEmail] is
    called for the client notification, then for the operator notification
    exactly when [YOUR_NOTIFY_EMAIL] is set, then for the auto-reply to the
    lead's address exactly when the client has a booking link; when the
    client is not ACTIVE (PAUSED), [sendEmail] is not called. *)
Theorem lead_submission (E : Env) (w : World) (cd : string)
    (body : gmap string string) (id : string) (client : Client) :
  clients w !! id = Some client → code client = cd →
  (∀ j c', clients w !! j = Some c' → code c' = cd → j = id) →
  let lead := submitted_lead id body in
  ∃ w',
    post_lead E cd body w = (Returned (Render "thanks"), w') ∧
    leads w' = leads w ++ [lead] ∧
    clients w' = clients w ∧
    (status client = "ACTIVE" →
     calls w' = calls w ++
       newLeadMail client lead ::
       (if Js.truthy (YOUR_NOTIFY_EMAIL E)
        then [newLeadOperatorMail E client lead] else []) ++
       match bookingLink client with
       | Some link => if Js.truthy link then [autoReplyMail client link lead] else []
       | None => []
       end) ∧
    (status client ≠ "ACTIVE" → calls w' = calls w) ∧
    to (newLeadMail client lead) = email client ∧
    to (newLeadOperatorMail E client lead) = YOUR_NOTIFY_EMAIL E ∧
    (∀ link, to (autoReplyMail client link lead) = lead_email lead).
Proof.
  intros Hc Hcd Huniq lead.
  destruct (lead_run E cd body id client w) as (r & w' & Hrun & -> & Hcl & _ & Hl & Hm).
  { by apply findUnique_code_unique. }
  exists w'. split_and!; try done.
  - intros Hst. by rewrite Hm, bool_decide_eq_true_2.
  - intros Hst. by rewrite Hm, bool_decide_eq_false_2, app_nil_r.
Qed.

Lemma lead_submission_witness :
  ∃ w',
    post_lead (Sample.env Sample.noon) "core" ∅ Sample.world
      = (Returned (Render "thanks"), w') ∧
    status Sample.paused = "PAUSED" ∧
    length (leads w') = S (length (leads Sample.world)) ∧
    calls w' = calls Sample.world.
Proof.
  destruct (lead_submission (Sample.env Sample.noon) Sample.world "core" ∅
              "c3" Sample.paused)
    as (w' & Hrun & Hl & _ & _ & Hm & _).
  - reflexivity.
  - reflexivity.
  - intros j c' Hj Hcode. apply elem_of_map_to_list in Hj.
    let l := eval vm_compute in (map_to_list (clients Sample.world)) in
    change (map_to_list (clients Sample.world)) with l in Hj.
    rewrite !elem_of_cons in Hj.
    destruct Hj as [Hj|[Hj|[Hj|Hj]]]; [..|by apply elem_of_nil in Hj];
      simplify_eq; first [done | by vm_compute in Hcode].
  - exists w'. split_and!; [done|done| |].
    + rewrite Hl, length_app. simpl. lia.
    + apply Hm. discriminate.
Defined.

(** C9 as the claim words it fails on [src/server.js]: the approval of the
    sample intake of "Acme Corp" with the submitted code " zeta " creates the
    client "zeta", not a code derived from the name; with the code "acme",
    which a client has, it throws on the unique constraint and creates
    nothing; with no code it creates nothing and redirects. *)
Lemma approve_uses_submitted_code :
  ∃ w' c,
    post_admin_intake_approve (Sample.env Sample.noon) true "i1"
      (<["code" := " zeta "]> ∅) Sample.world = (Returned (Redirect "/admin"), w') ∧
    clients Sample.world !! fresh (dom (clients Sample.world)) = None ∧
    clients w' !! fresh (dom (clients Sample.world)) = Some c ∧
    name c = "Acme Corp" ∧ code c = "zeta" ∧
    Billing.deriveBaseCode (name c) = "acmecorp" ∧
    code c ≠ Billing.deriveBaseCode (name c) ∧
    post_admin_intake_approve (Sample.env Sample.noon) true "i1"
      (<["code" := "acme"]> ∅) Sample.world
      = (Thrown "Unique constraint failed on the fields: (`code`)",
         with_reads S Sample.world) ∧
    post_admin_intake_approve (Sample.env Sample.noon) true "i1" ∅ Sample.world
      = (Returned (Redirect "/admin"), Sample.world).
Proof.
  eexists _, _. split_and!.
  - vm_compute. reflexivity.
  - by vm_compute.
  - by vm_compute.
  - reflexivity.
  - reflexivity.
  - by vm_compute.
  - by vm_compute.
  - by vm_compute.
  - by vm_compute.
Qed.

(** C9, amended.  In [src/server.js] the approval takes the code from the
    submitted form: empty after trimming, nothing happens; otherwise, when no
    client has it, the new client has exactly that code.  In the variant
    with [POST /admin/intakes/:id/approve] the code is derived: its base is
    the business name lowercased, stripped of what is not in [a-z0-9] and cut
    to 12 characters ("client" when nothing is left), so at most 12
    characters of [a-z0-9] (a name that is such a string is its own base);
    the approval returns, and the new client's code is the
    first candidate no client has, among the base, the base followed by 2,
    the base followed by 3, ...  With "acme" taken and "acme2" free, the base
    "acme" yields "acme2". *)
Theorem approve_intake_code
    (E : Env) (w : World) (id : string) (body : gmap string string) (ir : IntakeRequest)
    (B : Billing.Env) (v : Billing.World) (iid : string) (intake : Billing.ClientIntake) :
  intakeRequests w !! id = Some ir →
  Billing.clientIntakes v !! iid = Some intake →
  let submitted := Js.trim (Js.or_str (body !! "code") "") in
  let baseCode := Billing.deriveBaseCode (Billing.businessName intake) in
  ((submitted = "" →
    post_admin_intake_approve E true id body w = (Returned (Redirect "/admin"), w)) ∧
   (submitted ≠ "" →
    (∀ j c, clients w !! j = Some c → code c ≠ submitted) →
    ∃ w' c,
      post_admin_intake_approve E true id body w = (Returned (Redirect "/admin"), w') ∧
      clients w !! fresh (dom (clients w)) = None ∧
      clients w' = <[fresh (dom (clients w)) := c]> (clients w) ∧
      code c = submitted)) ∧
  (let cut := Billing.slice0 12 (Billing.strip_non_a_z_0_9 (Billing.toLowerCase
                (if decide (Billing.businessName intake = "") then "client"
                 else Billing.businessName intake))) in
   baseCode = if decide (cut = "") then "client" else cut) ∧
  (Derivation.all_chars Billing.is_a_z_0_9 baseCode = true ∧
   (0 < String.length baseCode ≤ 12)%nat) ∧
  (∀ s, Derivation.all_chars Billing.is_a_z_0_9 s = true →
        (0 < String.length s ≤ 12)%nat → Billing.deriveBaseCode s = s) ∧
  ∃ n v' c,
    Billing.post_admin_intakes_approve B true iid v
      = (Returned (Billing.Redirect "/admin"), v') ∧
    Billing.clients v !! fresh (dom (Billing.clients v)) = None ∧
    Billing.clients v' = <[fresh (dom (Billing.clients v)) := c]> (Billing.clients v) ∧
    1 ≤ n ∧ Billing.code c = Derivation.candidate baseCode n ∧
    ¬ Derivation.taken v (Billing.code c) ∧
    (∀ k, 1 ≤ k < n → Derivation.taken v (Derivation.candidate baseCode k)) ∧
    (baseCode = "acme" → Derivation.taken v "acme" → ¬ Derivation.taken v "acme2" →
     Billing.code c = "acme2").
Proof.
  intros Hir Hintake submitted baseCode.
  split.
  { split.
    - by apply (approve_run E id body ir w Hir).
    - intros Hne Hfree.
      destruct (approve_run E id body ir w Hir) as [_ Happ].
      destruct (Happ Hne Hfree) as (w' & c & Hrun & Hnone & Hc & Hcode & _).
      by exists w', c. }
  split; [apply BillingFacts.deriveBaseCode_pipeline|].
  split; [apply BillingFacts.deriveBaseCode_shape|].
  split; [apply BillingFacts.deriveBaseCode_code|].
  destruct (BillingFacts.intakes_approve_run B iid intake v Hintake)
    as (n & v' & c & Hrun & Hn & Hfree & Hbelow & Hnone & Hc & Hcode & _).
  fold baseCode in Hfree, Hbelow, Hcode.
  exists n, v', c. split_and!; try done; [by rewrite Hcode|].
  intros Hbase Hacme Hacme2.
  rewrite Hcode, Hbase. rewrite Hbase in Hfree, Hbelow.
  assert (n ≠ 1) as Hn1 by (intros ->; by apply Hfree).
  assert (n = 2) as ->; [|done].
  destruct (decide (n = 2)) as [|Hn2]; [done|]. exfalso.
  apply Hacme2. apply (Hbelow 2). lia.
Qed.

Lemma approve_intake_code_witness :
  ∃ v' c,
    Billing.post_admin_intakes_approve Sample.billing_env true "i1" Sample.billing_world
      = (Returned (Billing.Redirect "/admin"), v') ∧
    Billing.clients v' !! fresh (dom (Billing.clients Sample.billing_world)) = Some c ∧
    Billing.code c = "acme2".
Proof.
  destruct (approve_intake_code (Sample.env Sample.noon) Sample.world "i1" ∅
              {| business := "Acme Corp"; contact := "Ann"; intake_email := "ann@acme.test";
                 intake_bookingLink := None; intake_status := "NEW" |}
              Sample.billing_env Sample.billing_world "i1" Sample.billing_intake)
    as (_ & _ & _ & _ & n & v' & c & Hrun & _ & Hc & _ & _ & _ & _ & Hacme).
  - reflexivity.
  - reflexivity.
  - exists v', c. split_and!; [done|by rewrite Hc, lookup_insert_eq|].
    apply Hacme.
    + reflexivity.
    + exists "b1", (Sample.billing_client "acme"). split; reflexivity.
    + intros (j & c' & Hj & Hcode). apply elem_of_map_to_list in Hj.
      let l := eval vm_compute in (map_to_list (Billing.clients Sample.billing_world)) in
      change (map_to_list (Billing.clients Sample.billing_world)) with l in Hj.
      apply list_elem_of_singleton in Hj. simplify_eq; by vm_compute in Hcode.
Defined.

(** C10.  The manual pause of a client that is already PAUSED returns (the
    redirect to the dashboard), stamps [pausedAt] with the clock reading of
    the handler, sets [pauseReason] to "manual" and calls [sendEmail] once
    more for a pause notification to the client: the world has changed. *)
Theorem manual_pause_when_paused (E : Env) (w : World) (id : string) (c : Client) :
  clients w !! id = Some c → status c = "PAUSED" →
  ∃ w' c',
    post_admin_clients_pause E true id w = (Returned (Redirect "/admin"), w') ∧
    clients w' !! id = Some c' ∧
    status c' = "PAUSED" ∧ pausedAt c' = Some (clock E (reads w)) ∧
    pauseReason c' = Some "manual" ∧
    calls w' = calls w ++ [manualPauseMail E c] ∧
    to (manualPauseMail E c) = email c ∧
    w' ≠ w.
Proof.
  intros Hc Hst.
  destruct (pause_run E id c w Hc) as (r & w' & Hrun & -> & Hc' & _ & _ & Hm).
  eexists w', _. split_and!; [done|by rewrite Hc', lookup_insert_eq|done..|].
  intros ->. apply (f_equal length) in Hm. rewrite length_app in Hm. simpl in Hm. lia.
Qed.

Lemma manual_pause_when_paused_witness :
  ∃ w' c',
    post_admin_clients_pause (Sample.env Sample.noon) true "c3" Sample.world
      = (Returned (Redirect "/admin"), w') ∧
    pauseReason Sample.paused = Some "expired" ∧
    clients w' !! "c3" = Some c' ∧
    pausedAt c' = Some Sample.noon ∧ pauseReason c' = Some "manual" ∧
    length (calls w') = S (length (calls Sample.world)).
Proof.
  destruct (manual_pause_when_paused (Sample.env Sample.noon) Sample.world
              "c3" Sample.paused)
    as (w' & c' & Hrun & Hc' & _ & Hp & Hr & Hm & _).
  - reflexivity.
  - reflexivity.
  - exists w', c'. split_and!; [done..|]. rewrite Hm, length_app. simpl. lia.
Defined.

End Claims.

(** ** Further properties of [src/server.js] *)

Module LifecycleFacts.
Import Async AsyncFacts Server Reconciler Pass ServerFacts Routes Lifecycle.
Local Open Scope Z_scope.

Section Effect.
Variable E : Env.

(** *** What a pass can do to a row, under any clock *)

Lemma checkClient_effect id c r w :
  clients w !! id = Some r →
  returns (checkClient E (id, c)) w (λ _ w',
    (∃ r', touched c r r' ∧ clients w' = <[id := r']> (clients w)) ∧
    leads w' = leads w ∧ intakeRequests w' = intakeRequests w).
Proof.
  intros Hr. unfold checkClient.
  assert (∀ v, clients v = clients w → leads v = leads w →
            intakeRequests v = intakeRequests w →
            (∃ r', touched c r r' ∧ clients v = <[id := r']> (clients w)) ∧
            leads v = leads w ∧ intakeRequests v = intakeRequests w) as Hsame.
  { intros v Hc Hl Hi. split_and!; [|done..]. exists r. split; [by left|].
    by rewrite insert_id. }
  destruct (dueAt c) as [due|] eqn:Hdue; [|by apply returns_ret, Hsame].
  unfold getDaysLeft. do 4 step0.
  generalize (Date.ceil_div (due - clock E (reads w)) (1000 * 60 * 60 * 24)). intros l.
  destruct (bool_decide (status c = "ACTIVE")) eqn:Hst; simpl.
  2:{ repeat step0. by apply Hsame. }
  apply bool_decide_eq_true in Hst.
  destruct (0 <? l) eqn:Hpos.
  - assert ((l <=? 0) = false) as -> by lia.
    destruct (l <=? REMIND_DAYS_BEFORE E); simpl.
    + destruct (lastReminderAt c) as [last|].
      * do 5 step0. destruct (_ - last <? _); simpl; repeat step0.
        -- by apply Hsame.
        -- split_and!; [|congruence..]. eexists. split; [|by rewrite Hc].
           right. split_and!; [done|by rewrite Hdue|]. left. eauto.
      * repeat step0. split_and!; [|congruence..]. eexists. split; [|by rewrite Hc].
        right. split_and!; [done|by rewrite Hdue|]. left. eauto.
    + repeat step0. by apply Hsame.
  - assert ((l <=? 0) = true) as -> by lia. rewrite andb_false_r. simpl.
    repeat step0.
    destruct (Js.truthy (YOUR_NOTIFY_EMAIL E)); simpl; repeat step0.
    + split_and!; [|congruence..]. eexists. split; [|by rewrite Hc0, Hc].
      right. split_and!; [done|by rewrite Hdue|]. right. eauto.
    + split_and!; [|congruence..]. eexists. split; [|by rewrite Hc].
      right. split_and!; [done|by rewrite Hdue|]. right. eauto.
Qed.

Lemma loop_effect (l : list (string * Client)) w :
  NoDup (l.*1) →
  (∀ id c, (id, c) ∈ l → clients w !! id = Some c) →
  returns (for_of l (checkClient E)) w (λ _ w',
    (∀ j, j ∉ l.*1 → clients w' !! j = clients w !! j) ∧
    (∀ id c, (id, c) ∈ l → ∃ c', clients w' !! id = Some c' ∧ touched c c c') ∧
    leads w' = leads w ∧ intakeRequests w' = intakeRequests w).
Proof.
  revert w. induction l as [|[id c] l IH]; intros w Hnd Hin; simpl.
  - apply returns_ret. split_and!; try done.
    intros ?? H. by apply elem_of_nil in H.
  - apply NoDup_cons in Hnd as [Hid Hnd]. apply returns_bind.
    eapply returns_mono; [apply (checkClient_effect id c c), Hin; left|].
    intros ? w1 ((r' & Htouched & Hc1) & Hl1 & Hi1).
    eapply returns_mono; [apply IH; [done|]|].
    + intros id' c' Hin'. rewrite Hc1, lookup_insert_ne.
      * apply Hin. by right.
      * intros ->. apply Hid. by apply (list_elem_of_fmap_2 fst) in Hin'.
    + intros ? w' (Hout & Hin' & Hl & Hi). split_and!.
      * intros j Hj. apply not_elem_of_cons in Hj as [Hne Hj].
        rewrite Hout, Hc1, lookup_insert_ne; done.
      * intros id' c' [Heq|Hel]%elem_of_cons.
        -- simplify_eq. exists r'. split; [|done].
           rewrite Hout, Hc1 by done. by rewrite lookup_insert_eq.
        -- by apply Hin'.
      * congruence.
      * congruence.
Qed.

Lemma subscriptionCheck_effect w :
  returns (subscriptionCheck E) w (λ _ w',
    (∀ id, match clients w !! id with
           | Some c => ∃ c', clients w' !! id = Some c' ∧ touched c c c'
           | None => clients w' !! id = None
           end) ∧
    leads w' = leads w ∧ intakeRequests w' = intakeRequests w).
Proof.
  unfold subscriptionCheck. apply returns_bind, returns_gets. fold (listing w).
  eapply returns_mono.
  - apply loop_effect; [apply listing_NoDup|]. intros id c. by intros [? _]%elem_of_listing.
  - intros ? w' (Hout & Hin & Hl & Hi). split_and!; try done.
    intros id. destruct (clients w !! id) as [c|] eqn:Hc.
    + destruct (decide (status c ∈ ["ACTIVE"; "PAUSED"])) as [Hel|Hel].
      { apply Hin. by apply elem_of_listing. }
      exists c. split; [|by left]. rewrite Hout; [done|].
      intros Hid. apply list_elem_of_fmap in Hid as ([id' c'] & -> & Hel').
      apply elem_of_listing in Hel' as [Hc' Hst']. simpl in *. by simplify_eq.
    + rewrite Hout; [done|].
      intros Hid. apply list_elem_of_fmap in Hid as ([id' c'] & -> & Hel').
      apply elem_of_listing in Hel' as [Hc' _]. simpl in *. by simplify_eq.
Qed.

End Effect.

(** *** The two invariants of the client table *)

Lemma reshaped_refl m : reshaped m m.
Proof. intros id. destruct (m !! id) as [c|] eqn:Hc; [|done]. eauto. Qed.

Lemma reshaped_insert m id c c' :
  m !! id = Some c → code c' = code c → row_ok c' → reshaped m (<[id := c']> m).
Proof.
  intros Hc Hcode Hok j. destruct (decide (id = j)) as [<-|Hne].
  - rewrite Hc, lookup_insert_eq. eauto.
  - rewrite lookup_insert_ne by done. destruct (m !! j); eauto.
Qed.

Lemma reshaped_lifecycle w w' :
  reshaped (clients w) (clients w') → lifecycle_ok w → lifecycle_ok w'.
Proof.
  intros Hre Hok id c' Hc'. specialize (Hre id).
  destruct (clients w !! id) as [c|] eqn:Hc; [|congruence].
  destruct Hre as (c'' & Hc'' & _ & Hrow). simplify_eq. eauto.
Qed.

Lemma reshaped_codes w w' :
  reshaped (clients w) (clients w') → codes_unique w → codes_unique w'.
Proof.
  intros Hre Huniq i j ci' cj' Hi Hj Hcode.
  pose proof (Hre i) as Hri. pose proof (Hre j) as Hrj.
  destruct (clients w !! i) as [ci|] eqn:Hci; [|congruence].
  destruct (clients w !! j) as [cj|] eqn:Hcj; [|congruence].
  destruct Hri as (? & ? & Hcodei & _). destruct Hrj as (? & ? & Hcodej & _).
  simplify_eq. apply (Huniq i j ci cj); congruence.
Qed.

Lemma grown_lifecycle w w' :
  grown (clients w) (clients w') → lifecycle_ok w → lifecycle_ok w'.
Proof.
  intros (k & c & Hk & Heq & Hrow & _) Hok id c' Hc'. rewrite Heq in Hc'.
  destruct (decide (k = id)) as [->|Hne].
  - rewrite lookup_insert_eq in Hc'. by simplify_eq.
  - rewrite lookup_insert_ne in Hc' by done. eauto.
Qed.

Lemma grown_codes w w' :
  grown (clients w) (clients w') → codes_unique w → codes_unique w'.
Proof.
  intros (k & c & Hk & Heq & _ & Hfree) Huniq i j ci cj Hi Hj Hcode.
  rewrite Heq in Hi, Hj.
  destruct (decide (i = k)) as [->|Hi']; destruct (decide (j = k)) as [->|Hj'];
    [done|..].
  - rewrite lookup_insert_eq in Hi. rewrite lookup_insert_ne in Hj by done.
    simplify_eq. by destruct (Hfree j cj).
  - rewrite lookup_insert_eq in Hj. rewrite lookup_insert_ne in Hi by done.
    simplify_eq. by destruct (Hfree i ci).
  - rewrite lookup_insert_ne in Hi, Hj by done. eauto.
Qed.

Lemma touched_code c r r' : touched c r r' → code r' = code r.
Proof. intros [->|(_ & _ & [[t ->]|[t ->]])]; done. Qed.

Lemma touched_row_ok c r' : row_ok c → touched c c r' → row_ok r'.
Proof.
  intros Hok [->|(Hst & Hdue & [[t ->]|[t ->]])]; [done| |].
  - destruct Hok as [(? & ? & ? & ?)|(Hp & _)]; [|congruence]. left. done.
  - right. simpl. split_and!; [done|eauto|by left].
Qed.

Section Outcomes.
Variable E : Env.

Lemma findUnique_code_head_None w cd :
  head (filter (λ ic : string * Client, code ic.2 = cd) (map_to_list (clients w))) = None →
  ∀ j c, clients w !! j = Some c → code c ≠ cd.
Proof.
  intros Hhead j c Hc Hcd. apply head_None in Hhead.
  assert ((j, c) ∈ filter (λ ic : string * Client, code ic.2 = cd)
            (map_to_list (clients w))) as Hin.
  { apply list_elem_of_filter. split; [done|]. by apply elem_of_map_to_list. }
  rewrite Hhead in Hin. by apply elem_of_nil in Hin.
Qed.

Lemma findUnique_code_head_Some w cd id c :
  head (filter (λ ic : string * Client, code ic.2 = cd) (map_to_list (clients w)))
    = Some (id, c) →
  clients w !! id = Some c ∧ code c = cd.
Proof.
  intros Hhead. apply head_Some_elem_of in Hhead.
  apply list_elem_of_filter in Hhead as [Hcd Hin]. by apply elem_of_map_to_list in Hin.
Qed.

(** The run of the three actions that create or patch one row. *)
Lemma pause_outcome isAdmin id w :
  post_admin_clients_pause E isAdmin id w =
  if isAdmin then
    match clients w !! id with
    | Some c => post_admin_clients_pause E true id w
    | None => (Returned (Redirect "/admin"), w)
    end
  else (Returned (Redirect "/login"), w).
Proof.
  destruct isAdmin; [|done]. destruct (clients w !! id) eqn:Hc; [done|].
  unfold post_admin_clients_pause, requireAdmin, bind, client_findUnique_id, gets.
  by rewrite Hc.
Qed.

Lemma paid_outcome isAdmin id w :
  post_admin_clients_paid E isAdmin id w =
  if isAdmin then
    match clients w !! id with
    | Some c => post_admin_clients_paid E true id w
    | None => (Returned (Redirect "/admin"), w)
    end
  else (Returned (Redirect "/login"), w).
Proof.
  destruct isAdmin; [|done]. destruct (clients w !! id) eqn:Hc; [done|].
  unfold post_admin_clients_paid, requireAdmin, bind, client_findUnique_id, gets.
  by rewrite Hc.
Qed.

Lemma add_outcome body w :
  let c := added_client E body (clock E (reads w)) in
  post_admin_clients_add E true body w =
  match head (filter (λ ic : string * Client, code ic.2 = code c)
                (map_to_list (clients w))) with
  | Some _ =>
      (Thrown "Unique constraint failed on the fields: (`code`)", with_reads S w)
  | None =>
      (Returned (Redirect "/admin"),
       with_clients (insert (fresh (dom (clients w))) c) (with_reads S w))
  end.
Proof.
  intros c. unfold post_admin_clients_add, requireAdmin, bind, Date_now, client_create.
  cbn [clients with_reads code]. fold c.
  destruct (head _); done.
Qed.

Lemma intake_run body w :
  let business := Js.trim (Js.or_str (body !! "business") "") in
  let contact := Js.trim (Js.or_str (body !! "contact") "") in
  let email := Js.trim (Js.or_str (body !! "email") "") in
  let bookingLink := Js.trim (Js.or_str (body !! "bookingLink") "") in
  returns (Routes.post_intake E body) w (λ r w',
    r = Render "intake" ∧
    clients w' = clients w ∧ leads w' = leads w ∧
    intakeRequests w' =
      <[fresh (dom (intakeRequests w)) :=
          {| business := business; contact := contact; intake_email := email;
             intake_bookingLink := Js.or_null bookingLink;
             intake_status := "NEW" |}]> (intakeRequests w) ∧
    calls w' = calls w ++
      (if Js.truthy (YOUR_NOTIFY_EMAIL E)
       then [Routes.newIntakeMail E business contact email] else [])).
Proof.
  intros business contact email bookingLink. unfold Routes.post_intake.
  fold business contact email bookingLink.
  apply returns_bind. unfold Routes.intakeRequest_create at 1, returns at 1.
  eexists _, _. split; [done|].
  destruct (Js.truthy (YOUR_NOTIFY_EMAIL E)); cbn [when].
  - repeat step0. rewrite Hc, Hl, Hi, Hm. by rewrite app_nil_r || done.
  - repeat step0. simpl. by rewrite app_nil_r.
Qed.

Lemma approve_outcome id body w :
  let submitted := Js.trim (Js.or_str (body !! "code") "") in
  post_admin_intake_approve E true id body w =
  match intakeRequests w !! id with
  | None => (Returned (Redirect "/admin"), w)
  | Some ir =>
      if decide (submitted = "") then (Returned (Redirect "/admin"), w)
      else
        match head (filter (λ ic : string * Client, code ic.2 = submitted)
                      (map_to_list (clients w))) with
        | Some _ =>
            (Thrown "Unique constraint failed on the fields: (`code`)", with_reads S w)
        | None =>
            (Returned (Redirect "/admin"),
             with_intakeRequests (insert id (approve_intake ir))
               (with_clients
                  (insert (fresh (dom (clients w)))
                     (approved_client E ir submitted (clock E (reads w))))
                  (with_reads S w)))
        end
  end.
Proof.
  intros submitted.
  unfold post_admin_intake_approve, requireAdmin, bind, intakeRequest_findUnique, gets.
  fold submitted. destruct (intakeRequests w !! id) as [ir|] eqn:Hir; [|done].
  unfold Js.truthy. destruct (decide (submitted = "")) as [Hs|Hs].
  - by rewrite bool_decide_eq_false_2 by (intros H; by apply H).
  - rewrite bool_decide_eq_true_2 by done. cbn [negb].
    unfold Date_now, client_create. cbn [clients with_reads code].
    fold (approved_client E ir submitted (clock E (reads w))).
    destruct (head _); [done|].
    unfold intakeRequest_update. cbn [intakeRequests with_clients with_reads].
    by rewrite Hir.
Qed.

(** Every request rewrites the client table in one of the two ways. *)
Lemma serve_step (r : Request) w :
  reshaped (clients w) (clients (serve E r w)) ∨
  grown (clients w) (clients (serve E r w)).
Proof.
  destruct r as [|a id|a id|a id body|a body|cd body|body|cd]; simpl.
  - left. destruct (subscriptionCheck_effect E w) as ([] & w' & Hrun & Heff & _).
    rewrite Hrun. simpl. intros id. specialize (Heff id).
    destruct (clients w !! id) as [c|]; [|done].
    destruct Heff as (c' & Hc' & Ht). exists c'. split_and!; [done| |].
    + by eapply touched_code.
    + intros Hok. by eapply touched_row_ok.
  - left. rewrite pause_outcome. destruct a; [|apply reshaped_refl].
    destruct (clients w !! id) as [c|] eqn:Hc; [|apply reshaped_refl].
    destruct (pause_run E id c w Hc) as (? & w' & Hrun & _ & Hc' & _).
    rewrite Hrun. simpl. rewrite Hc'. apply (reshaped_insert _ _ c); [done..|].
    right. simpl. split_and!; [done|eauto|by right].
  - left. rewrite paid_outcome. destruct a; [|apply reshaped_refl].
    destruct (clients w !! id) as [c|] eqn:Hc; [|apply reshaped_refl].
    destruct (paid_run E id c w Hc) as (? & w' & Hrun & _ & Hc' & _).
    rewrite Hrun. simpl. rewrite Hc'. apply (reshaped_insert _ _ c); [done..|].
    left. simpl. split_and!; [done|eauto|done|done].
  - destruct a; [|left; apply reshaped_refl]. rewrite approve_outcome.
    destruct (intakeRequests w !! id) as [ir|]; [|left; apply reshaped_refl].
    destruct (decide _); [left; apply reshaped_refl|].
    destruct (head _) eqn:Hhead; [left; apply reshaped_refl|].
    right. simpl. eexists _, _. split_and!; [|done| |].
    + apply not_elem_of_dom, is_fresh.
    + left. simpl. split_and!; [done|eauto|done|done].
    + simpl. by apply findUnique_code_head_None.
  - destruct a; [|left; apply reshaped_refl]. rewrite add_outcome.
    destruct (head _) eqn:Hhead; [left; apply reshaped_refl|].
    right. simpl. eexists _, _. split_and!; [|done| |].
    + apply not_elem_of_dom, is_fresh.
    + left. simpl. split_and!; [done|eauto|done|done].
    + by apply findUnique_code_head_None.
  - left. destruct (head (filter (λ ic : string * Client, code ic.2 = cd)
                             (map_to_list (clients w)))) as [[id client]|] eqn:Hhead.
    + destruct (lead_run E cd body id client w Hhead) as (? & w' & Hrun & _ & Hc & _).
      rewrite Hrun. simpl. rewrite Hc. apply reshaped_refl.
    + unfold post_lead, bind, client_findUnique_code, gets. rewrite Hhead.
      apply reshaped_refl.
  - left. destruct (intake_run body w) as (? & w' & Hrun & _ & Hc & _).
    rewrite Hrun. simpl. rewrite Hc. apply reshaped_refl.
  - left. unfold Routes.get_landing, bind, client_findUnique_code, gets.
    destruct (head _) as [[??]|]; apply reshaped_refl.
Qed.

End Outcomes.

End LifecycleFacts.

(** ** Further properties of [src/server.js] *)

Module ServerProps.
Import Async AsyncFacts Server Reconciler Pass ServerFacts Routes Lifecycle LifecycleFacts.
Local Open Scope Z_scope.

(** *** Auxiliary facts *)

Lemma sample_frozen now : frozen (Sample.env now) now.
Proof. by intros k. Qed.

Lemma sample_lifecycle_ok : lifecycle_ok Sample.world.
Proof.
  intros id c Hc. unfold Sample.world in Hc. simpl in Hc.
  repeat (apply lookup_insert_Some in Hc as [[<- <-]|[_ Hc]];
          [first [by left; split_and!; eauto | by right; split_and!; eauto]|]).
  by rewrite lookup_empty in Hc.
Qed.

Lemma sample_codes_unique : codes_unique Sample.world.
Proof.
  intros i j ci cj Hi Hj Hcode. unfold Sample.world in Hi, Hj. simpl in Hi, Hj.
  repeat (apply lookup_insert_Some in Hi as [[<- <-]|[_ Hi]];
          [repeat (apply lookup_insert_Some in Hj as [[<- <-]|[_ Hj]]; [done|]);
           by rewrite lookup_empty in Hj|]).
  by rewrite lookup_empty in Hi.
Qed.

Lemma sample_code_free cd :
  cd ∉ ["acme"; "bolt"; "core"] →
  ∀ j c, clients Sample.world !! j = Some c → code c ≠ cd.
Proof.
  intros Hcd j c Hc <-. apply Hcd. unfold Sample.world in Hc. simpl in Hc.
  repeat (apply lookup_insert_Some in Hc as [[<- <-]|[_ Hc]];
          [simpl; set_solver|]).
  by rewrite lookup_empty in Hc.
Qed.

Lemma sample_free_nova j c : clients Sample.world !! j = Some c → code c ≠ "nova".
Proof.
  apply sample_code_free. intros H.
  repeat (apply elem_of_cons in H as [H|H]; [done|]). by apply elem_of_nil in H.
Qed.

Lemma sample_free_nova2 j c : clients Sample.world !! j = Some c → code c ≠ "nova2".
Proof.
  apply sample_code_free. intros H.
  repeat (apply elem_of_cons in H as [H|H]; [done|]). by apply elem_of_nil in H.
Qed.

Lemma sample_free_empty j c : clients Sample.world !! j = Some c → code c ≠ "".
Proof.
  apply sample_code_free. intros H.
  repeat (apply elem_of_cons in H as [H|H]; [done|]). by apply elem_of_nil in H.
Qed.

Lemma findUnique_code_taken w cd j c :
  clients w !! j = Some c → code c = cd →
  is_Some (head (filter (λ ic : string * Client, code ic.2 = cd)
                   (map_to_list (clients w)))).
Proof.
  intros Hc Hcd.
  destruct (head _) eqn:Hhead; [eauto|]. exfalso.
  by apply (findUnique_code_head_None w cd Hhead j c).
Qed.

Lemma ceil_div_mul (n d : Z) : 0 < d → Date.ceil_div (n * d) d = n.
Proof. intros Hd. apply DateFacts.ceil_div_unique; lia. Qed.

Lemma trimStart_all_white s : all_white s = true → Js.trimStart s = "".
Proof.
  induction s as [|a s IH]; [done|]. simpl. intros [Ha Hs]%andb_true_iff.
  rewrite Ha. by apply IH.
Qed.

Lemma trim_all_white s : all_white s = true → Js.trim s = "".
Proof. intros Hs. unfold Js.trim. by rewrite trimStart_all_white. Qed.

Lemma or_else_or_null s : Js.or_else (Js.or_null s) None = Js.or_null s.
Proof. unfold Js.or_else, Js.or_null. by destruct (Js.truthy s) eqn:Hs; simpl; rewrite ?Hs. Qed.

(** *** The properties *)

(** X1.  Whatever the clock and the mail transport do, a pass of
    [subscriptionCheck] returns, neither adds nor removes a client, and
    leaves leads and intake requests alone.  Of a client it changes nothing
    but [status], the pause stamps and [lastReminderAt]; [status] only goes
    from ACTIVE to PAUSED; a client that is not ACTIVE, or has no due date,
    is left exactly as it was. *)
Theorem pass_changes_only_status_and_stamps (E : Env) (w : World) :
  ∃ w', subscriptionCheck E w = (Returned tt, w') ∧
    leads w' = leads w ∧ intakeRequests w' = intakeRequests w ∧
    ∀ id, match clients w !! id with
          | None => clients w' !! id = None
          | Some c =>
              ∃ c', clients w' !! id = Some c' ∧
                name c' = name c ∧ code c' = code c ∧ email c' = email c ∧
                bookingLink c' = bookingLink c ∧ startedAt c' = startedAt c ∧
                dueAt c' = dueAt c ∧
                (status c' = status c ∨ (status c = "ACTIVE" ∧ status c' = "PAUSED")) ∧
                (status c ≠ "ACTIVE" ∨ dueAt c = None → c' = c)
          end.
Proof.
  destruct (subscriptionCheck_effect E w) as ([] & w' & Hrun & Heff & Hl & Hi).
  exists w'. split_and!; [done..|]. intros id. specialize (Heff id).
  destruct (clients w !! id) as [c|]; [|done].
  destruct Heff as (c' & Hc' & Ht). exists c'. split; [done|].
  destruct Ht as [->|(Hst & [due Hdue] & [[t ->]|[t ->]])].
  - split_and!; try done. by left.
  - split_and!; try done; [by left|]. intros [Hne|Hnone]; [done|congruence].
  - split_and!; try done; [by right|]. intros [Hne|Hnone]; [done|congruence].
Qed.

(** X2.  A second pass at the same instant does nothing: after a pass taken
    at [now], another pass at [now] leaves every client, lead and intake
    request as the first left them and attempts no mail. *)
Theorem second_pass_is_idle (E : Env) (now : Z) (w : World) :
  frozen E now →
  ∃ w1 w2,
    subscriptionCheck E w = (Returned tt, w1) ∧
    subscriptionCheck E w1 = (Returned tt, w2) ∧
    clients w2 = clients w1 ∧ leads w2 = leads w1 ∧
    intakeRequests w2 = intakeRequests w1 ∧ calls w2 = calls w1.
Proof.
  intros Hfr.
  destruct (subscriptionCheck_run E now Hfr w) as ([] & w1 & Hrun1 & Hc1 & _).
  destruct (subscriptionCheck_run E now Hfr w1) as ([] & w2 & Hrun2 & Hc2 & Hl2 & Hi2 & Hm2).
  assert (∀ c, verdict (REMIND_DAYS_BEFORE E) now
                 (apply_verdict now (verdict (REMIND_DAYS_BEFORE E) now c) c) = Idle)
    as Hidle.
  { intros c. unfold verdict at 2. destruct (dueAt c) as [due|] eqn:Hdue.
    2:{ simpl. unfold verdict. by rewrite Hdue. }
    case_bool_decide as Hst.
    2:{ simpl. unfold verdict. rewrite Hdue. by rewrite bool_decide_eq_false_2. }
    destruct (0 <? daysLeft now due) eqn:Hpos.
    2:{ simpl. unfold verdict. simpl. by rewrite Hdue. }
    destruct ((daysLeft now due <=? REMIND_DAYS_BEFORE E) &&
              negb (reminded_within_24h now c)) eqn:Hwin; simpl.
    - unfold verdict, reminded_within_24h. simpl. rewrite Hdue.
      rewrite bool_decide_eq_true_2 by done. rewrite Hpos.
      replace (now - now <? 24 * 60 * 60 * 1000) with true by (symmetry; lia).
      simpl. by rewrite andb_false_r.
    - unfold verdict. rewrite Hdue, bool_decide_eq_true_2 by done.
      by rewrite Hpos, Hwin. }
  assert (∀ id c, clients w1 !! id = Some c →
            verdict (REMIND_DAYS_BEFORE E) now c = Idle) as Hidle1.
  { intros id c Hc. rewrite Hc1 in Hc. destruct (clients w !! id) as [c0|]; [|done].
    simpl in Hc. simplify_eq. apply Hidle. }
  exists w1, w2. split_and!; try done.
  - apply map_eq. intros id. rewrite Hc2.
    destruct (clients w1 !! id) as [c|] eqn:Hc; [|done]. simpl.
    by rewrite (Hidle1 id c).
  - rewrite Hm2. rewrite <- (app_nil_r (calls w1)) at 2. f_equal.
    unfold loop_mails. assert (∀ ic, ic ∈ listing w1 →
      verdict_mails E ic.2 (verdict (REMIND_DAYS_BEFORE E) now ic.2) = []) as Hall.
    { intros [id c] [Hc _]%elem_of_listing. simpl. by rewrite (Hidle1 id c). }
    revert Hall. generalize (listing w1). intros l Hall.
    induction l as [|ic l IH]; [done|]. simpl.
    rewrite Hall by left. simpl. apply IH. intros ??. apply Hall. by right.
Qed.

Lemma second_pass_is_idle_witness :
  ∃ w1 w2,
    subscriptionCheck (Sample.env Sample.noon) Sample.world = (Returned tt, w1) ∧
    subscriptionCheck (Sample.env Sample.noon) w1 = (Returned tt, w2) ∧
    clients w2 = clients w1 ∧ leads w2 = leads w1 ∧
    intakeRequests w2 = intakeRequests w1 ∧ calls w2 = calls w1.
Proof.
  apply (second_pass_is_idle (Sample.env Sample.noon) Sample.noon), sample_frozen.
Defined.

(** X3.  The life-cycle invariant: if every client is either ACTIVE with a
    due date and no pause stamp or reason, or PAUSED with a pause stamp and
    the reason "expired" or "manual", then this still holds after any
    sequence of requests (passes of the checker, pause, mark-paid, approve,
    add, lead and intake submissions, landing-page visits, with or without
    an administrator's session), under every clock and transport, also when
    a request throws. *)
Theorem lifecycle_is_invariant (E : Env) (rs : list Request) (w : World) :
  lifecycle_ok w → lifecycle_ok (serve_all E rs w).
Proof.
  revert w. unfold serve_all. induction rs as [|r rs IH]; intros w Hok; [done|].
  simpl. apply IH. destruct (serve_step E r w) as [H|H].
  - by eapply reshaped_lifecycle.
  - by eapply grown_lifecycle.
Qed.

Lemma lifecycle_is_invariant_witness :
  lifecycle_ok Sample.world ∧
  lifecycle_ok
    (serve_all (Sample.env Sample.noon)
       [Check; Pause true "c1"; Paid true "c2";
        Approve true "i1" {["code" := "nova"]}; Add true {["code" := "zeta"]};
        SubmitLead "acme" ∅; SubmitIntake ∅; Visit "core"; Check]
       Sample.world).
Proof.
  split; [apply sample_lifecycle_ok|].
  apply lifecycle_is_invariant, sample_lifecycle_ok.
Defined.

(** X4.  Client codes stay unique: if no two clients have the same code,
    none have after any sequence of requests. *)
Theorem codes_stay_unique (E : Env) (rs : list Request) (w : World) :
  codes_unique w → codes_unique (serve_all E rs w).
Proof.
  revert w. unfold serve_all. induction rs as [|r rs IH]; intros w Hok; [done|].
  simpl. apply IH. destruct (serve_step E r w) as [H|H].
  - by eapply reshaped_codes.
  - by eapply grown_codes.
Qed.

Lemma codes_stay_unique_witness :
  codes_unique Sample.world ∧
  codes_unique
    (serve_all (Sample.env Sample.noon)
       [Add true {["code" := "acme"]}; Approve true "i1" {["code" := "bolt"]};
        Add true {["code" := "nova"]}; Approve true "i1" {["code" := "nova"]};
        Paid true "c3"; Check]
       Sample.world).
Proof.
  split; [apply sample_codes_unique|].
  apply codes_stay_unique, sample_codes_unique.
Defined.

(** X5.  A refused request changes nothing, not even the mail log or the
    clock reads: without an administrator's session the four admin actions
    redirect to "/login"; with one, pause and mark-paid on an unknown client
    id and approval of an unknown intake id redirect to "/admin"; a lead for
    a code no client has gets "Client not found", as does the landing
    page. *)
Theorem refused_requests_change_nothing (E : Env) (w : World) (id cd : string)
    (body : gmap string string) :
  clients w !! id = None → intakeRequests w !! id = None →
  (∀ j c, clients w !! j = Some c → code c ≠ cd) →
  post_admin_clients_pause E false id w = (Returned (Redirect "/login"), w) ∧
  post_admin_clients_paid E false id w = (Returned (Redirect "/login"), w) ∧
  post_admin_intake_approve E false id body w = (Returned (Redirect "/login"), w) ∧
  post_admin_clients_add E false body w = (Returned (Redirect "/login"), w) ∧
  post_admin_clients_pause E true id w = (Returned (Redirect "/admin"), w) ∧
  post_admin_clients_paid E true id w = (Returned (Redirect "/admin"), w) ∧
  post_admin_intake_approve E true id body w = (Returned (Redirect "/admin"), w) ∧
  post_lead E cd body w = (Returned (NotFound "Client not found"), w) ∧
  get_landing cd w = (Returned (PageNotFound "Client not found"), w).
Proof.
  intros Hc Hi Hfree. split_and!; try done.
  - by rewrite pause_outcome, Hc.
  - by rewrite paid_outcome, Hc.
  - by rewrite approve_outcome, Hi.
  - unfold post_lead, bind, client_findUnique_code, gets.
    by rewrite findUnique_code_free.
  - unfold get_landing, bind, client_findUnique_code, gets.
    by rewrite findUnique_code_free.
Qed.

Lemma refused_requests_change_nothing_witness :
  let E := Sample.env Sample.noon in
  let w := Sample.world in
  post_admin_clients_pause E false "zz" w = (Returned (Redirect "/login"), w) ∧
  post_admin_clients_paid E false "zz" w = (Returned (Redirect "/login"), w) ∧
  post_admin_intake_approve E false "zz" ∅ w = (Returned (Redirect "/login"), w) ∧
  post_admin_clients_add E false ∅ w = (Returned (Redirect "/login"), w) ∧
  post_admin_clients_pause E true "zz" w = (Returned (Redirect "/admin"), w) ∧
  post_admin_clients_paid E true "zz" w = (Returned (Redirect "/admin"), w) ∧
  post_admin_intake_approve E true "zz" ∅ w = (Returned (Redirect "/admin"), w) ∧
  post_lead E "nova" ∅ w = (Returned (NotFound "Client not found"), w) ∧
  get_landing "nova" w = (Returned (PageNotFound "Client not found"), w).
Proof.
  apply (refused_requests_change_nothing (Sample.env Sample.noon) Sample.world "zz" "nova" ∅).
  - reflexivity.
  - reflexivity.
  - apply sample_free_nova.
Defined.

(** X6.  A code some client already has is rejected by the unique
    constraint: both adding a client with it and approving an intake with it
    throw, and no client is created, the intake is not marked approved, and
    no mail is attempted. *)
Theorem taken_code_throws (E : Env) (w : World) (id j : string) (ir : IntakeRequest)
    (c : Client) (body : gmap string string) :
  intakeRequests w !! id = Some ir →
  clients w !! j = Some c →
  Js.trim (Js.or_str (body !! "code") "") = code c → code c ≠ "" →
  ∃ e w1 w2,
    post_admin_clients_add E true body w = (Thrown e, w1) ∧
    post_admin_intake_approve E true id body w = (Thrown e, w2) ∧
    clients w1 = clients w ∧ clients w2 = clients w ∧
    intakeRequests w2 = intakeRequests w ∧
    calls w1 = calls w ∧ calls w2 = calls w.
Proof.
  intros Hir Hc Hcode Hne.
  destruct (findUnique_code_taken w (code c) j c Hc eq_refl) as [x Hx].
  eexists _, _, _. rewrite add_outcome, approve_outcome, Hir. cbn [added_client code].
  rewrite Hcode, Hx. rewrite decide_False by done. split_and!; done.
Qed.

Lemma taken_code_throws_witness :
  ∃ e w1 w2,
    post_admin_clients_add (Sample.env Sample.noon) true {["code" := " acme "]}
      Sample.world = (Thrown e, w1) ∧
    post_admin_intake_approve (Sample.env Sample.noon) true "i1" {["code" := " acme "]}
      Sample.world = (Thrown e, w2) ∧
    clients w1 = clients Sample.world ∧ clients w2 = clients Sample.world ∧
    intakeRequests w2 = intakeRequests Sample.world ∧
    calls w1 = calls Sample.world ∧ calls w2 = calls Sample.world.
Proof.
  eapply (taken_code_throws (Sample.env Sample.noon) Sample.world "i1" "c1" _ Sample.soon).
  - reflexivity.
  - reflexivity.
  - reflexivity.
  - done.
Defined.

(** X7.  [POST /admin/clients/add] with a code no client has creates one
    client under an unused id: ACTIVE, started now, due [PLAN_DAYS] days
    later, never reminded, with the trimmed fields of the form; it sends no
    mail.  Unlike the approval it does not ask for a non-empty code. *)
Theorem add_creates_client (E : Env) (w : World) (body : gmap string string) :
  (∀ j c, clients w !! j = Some c → code c ≠ Js.trim (Js.or_str (body !! "code") "")) →
  ∃ w' id c,
    post_admin_clients_add E true body w = (Returned (Redirect "/admin"), w') ∧
    clients w !! id = None ∧ clients w' = <[id := c]> (clients w) ∧
    name c = Js.trim (Js.or_str (body !! "name") "") ∧
    code c = Js.trim (Js.or_str (body !! "code") "") ∧
    email c = Js.trim (Js.or_str (body !! "email") "") ∧
    status c = "ACTIVE" ∧
    startedAt c = Some (clock E (reads w)) ∧
    dueAt c = Some (addDays E (clock E (reads w)) (PLAN_DAYS E)) ∧
    lastReminderAt c = None ∧
    leads w' = leads w ∧ intakeRequests w' = intakeRequests w ∧ calls w' = calls w.
Proof.
  intros Hfree. eexists _, _, _. rewrite add_outcome. cbn [added_client code].
  rewrite findUnique_code_free by done. split_and!; try done.
  apply not_elem_of_dom, is_fresh.
Qed.

Lemma add_creates_client_witness :
  ∃ w' id c,
    post_admin_clients_add (Sample.env Sample.noon) true ∅ Sample.world
      = (Returned (Redirect "/admin"), w') ∧
    clients Sample.world !! id = None ∧ clients w' = <[id := c]> (clients Sample.world) ∧
    name c = "" ∧ code c = "" ∧ email c = "" ∧ status c = "ACTIVE" ∧
    startedAt c = Some Sample.noon ∧
    dueAt c = Some (addDays (Sample.env Sample.noon) Sample.noon 30) ∧
    lastReminderAt c = None ∧
    leads w' = leads Sample.world ∧ intakeRequests w' = intakeRequests Sample.world ∧
    calls w' = calls Sample.world.
Proof.
  exact (add_creates_client (Sample.env Sample.noon) Sample.world ∅ sample_free_empty).
Defined.

(** X8.  Mark-paid, then a pass, at one instant in a zone without daylight
    saving and with [PLAN_DAYS] of at least one: the client comes out of
    mark-paid ACTIVE with [getDaysLeft] equal to [PLAN_DAYS], and the pass
    leaves it ACTIVE with the same due date; when the reminder window is
    shorter than the plan the pass leaves the record untouched. *)
Theorem paid_then_pass_stays_active (E : Env) (now : Z) (w : World) (id : string)
    (c : Client) :
  frozen E now → Date.fixed_offset (zone E) → 0 < PLAN_DAYS E →
  clients w !! id = Some c →
  ∃ w1 w2 c1 c2,
    post_admin_clients_paid E true id w = (Returned (Redirect "/admin"), w1) ∧
    clients w1 !! id = Some c1 ∧ status c1 = "ACTIVE" ∧
    getDaysLeft E (dueAt c1) w1 = (Returned (Some (PLAN_DAYS E)), with_reads S w1) ∧
    subscriptionCheck E w1 = (Returned tt, w2) ∧
    clients w2 !! id = Some c2 ∧
    status c2 = "ACTIVE" ∧ dueAt c2 = dueAt c1 ∧ pausedAt c2 = None ∧
    (REMIND_DAYS_BEFORE E < PLAN_DAYS E → c2 = c1).
Proof.
  intros Hfr Hzone Hplan Hc.
  destruct (paid_run E id c w Hc) as (r & w1 & Hrun1 & -> & Hc1 & _).
  destruct (subscriptionCheck_run E now Hfr w1) as ([] & w2 & Hrun2 & Hc2 & _).
  rewrite (Hfr (reads w)) in Hc1. unfold addDays in Hc1.
  rewrite DateFacts.setDate_plus_fixed_offset in Hc1 by done.
  specialize (Hc2 id). rewrite Hc1, lookup_insert_eq in Hc2. simpl in Hc2.
  eexists w1, w2, _, _. split_and!; [done|by rewrite Hc1, lookup_insert_eq|done| |done|done|..].
  - unfold getDaysLeft, bind, Date_now, ret. simpl. rewrite (Hfr (reads w1)).
    do 3 f_equal. change (1000 * 60 * 60 * 24) with Date.msPerDay.
    replace (now + PLAN_DAYS E * Date.msPerDay - now) with (PLAN_DAYS E * Date.msPerDay)
      by lia.
    by apply ceil_div_mul.
  - unfold verdict. simpl. unfold daysLeft.
    replace (now + PLAN_DAYS E * Date.msPerDay - now) with (PLAN_DAYS E * Date.msPerDay)
      by lia.
    rewrite ceil_div_mul by done. destruct (0 <? PLAN_DAYS E) eqn:Hpos; [|lia].
    by destruct (_ && _).
  - unfold verdict. simpl. unfold daysLeft.
    replace (now + PLAN_DAYS E * Date.msPerDay - now) with (PLAN_DAYS E * Date.msPerDay)
      by lia.
    rewrite ceil_div_mul by done. destruct (0 <? PLAN_DAYS E) eqn:Hpos; [|lia].
    by destruct (_ && _).
  - unfold verdict. simpl. unfold daysLeft.
    replace (now + PLAN_DAYS E * Date.msPerDay - now) with (PLAN_DAYS E * Date.msPerDay)
      by lia.
    rewrite ceil_div_mul by done. destruct (0 <? PLAN_DAYS E) eqn:Hpos; [|lia].
    by destruct (_ && _).
  - intros Hwin. unfold verdict. simpl. unfold daysLeft.
    replace (now + PLAN_DAYS E * Date.msPerDay - now) with (PLAN_DAYS E * Date.msPerDay)
      by lia.
    rewrite ceil_div_mul by done. destruct (0 <? PLAN_DAYS E) eqn:Hpos; [|lia].
    destruct (PLAN_DAYS E <=? REMIND_DAYS_BEFORE E) eqn:Hle; [lia|done].
Qed.

Lemma paid_then_pass_stays_active_witness :
  ∃ w1 w2 c1 c2,
    post_admin_clients_paid (Sample.env Sample.noon) true "c3" Sample.world
      = (Returned (Redirect "/admin"), w1) ∧
    clients w1 !! "c3" = Some c1 ∧ status c1 = "ACTIVE" ∧
    getDaysLeft (Sample.env Sample.noon) (dueAt c1) w1
      = (Returned (Some (PLAN_DAYS (Sample.env Sample.noon))), with_reads S w1) ∧
    subscriptionCheck (Sample.env Sample.noon) w1 = (Returned tt, w2) ∧
    clients w2 !! "c3" = Some c2 ∧
    status c2 = "ACTIVE" ∧ dueAt c2 = dueAt c1 ∧ pausedAt c2 = None ∧
    (REMIND_DAYS_BEFORE (Sample.env Sample.noon) < PLAN_DAYS (Sample.env Sample.noon) →
     c2 = c1).
Proof.
  apply (paid_then_pass_stays_active (Sample.env Sample.noon) Sample.noon Sample.world
           "c3" Sample.paused).
  - apply sample_frozen.
  - by exists 0.
  - done.
  - reflexivity.
Defined.

(** X9.  An intake submitted on [POST /intake] and then approved with a
    non-empty code no client has becomes a client: the intake is stored as
    NEW under an unused id and the operator is mailed when an operator
    address is configured; the approval creates one ACTIVE client with the
    trimmed business name, email and booking link of the form and the
    submitted code, marks the intake APPROVED, and sends no mail. *)
Theorem intake_then_approve (E : Env) (w : World) (body abody : gmap string string) :
  Js.trim (Js.or_str (abody !! "code") "") ≠ "" →
  (∀ j c, clients w !! j = Some c →
     code c ≠ Js.trim (Js.or_str (abody !! "code") "")) →
  ∃ w1 w2 iid cid c,
    post_intake E body w = (Returned (Render "intake"), w1) ∧
    intakeRequests w !! iid = None ∧
    intake_status <$> intakeRequests w1 !! iid = Some "NEW" ∧
    clients w1 = clients w ∧
    calls w1 = calls w ++
      (if Js.truthy (YOUR_NOTIFY_EMAIL E)
       then [newIntakeMail E (Js.trim (Js.or_str (body !! "business") ""))
               (Js.trim (Js.or_str (body !! "contact") ""))
               (Js.trim (Js.or_str (body !! "email") ""))]
       else []) ∧
    post_admin_intake_approve E true iid abody w1 = (Returned (Redirect "/admin"), w2) ∧
    clients w !! cid = None ∧ clients w2 = <[cid := c]> (clients w) ∧
    name c = Js.trim (Js.or_str (body !! "business") "") ∧
    email c = Js.trim (Js.or_str (body !! "email") "") ∧
    bookingLink c = Js.or_null (Js.trim (Js.or_str (body !! "bookingLink") "")) ∧
    code c = Js.trim (Js.or_str (abody !! "code") "") ∧
    status c = "ACTIVE" ∧
    intake_status <$> intakeRequests w2 !! iid = Some "APPROVED" ∧
    calls w2 = calls w1.
Proof.
  intros Hne Hfree.
  destruct (intake_run E body w) as (r & w1 & Hrun1 & -> & Hc1 & Hl1 & Hi1 & Hm1).
  set (iid := fresh (dom (intakeRequests w))) in *.
  assert (∃ ir, intakeRequests w1 !! iid = Some ir ∧
            business ir = Js.trim (Js.or_str (body !! "business") "") ∧
            intake_email ir = Js.trim (Js.or_str (body !! "email") "") ∧
            intake_bookingLink ir =
              Js.or_null (Js.trim (Js.or_str (body !! "bookingLink") "")) ∧
            intake_status ir = "NEW") as (ir & Hir & Hb & He & Hbl & Hst).
  { eexists. rewrite Hi1, lookup_insert_eq. split_and!; done. }
  exists w1. eexists _, iid, (fresh (dom (clients w))),
    (approved_client E ir (Js.trim (Js.or_str (abody !! "code") "")) (clock E (reads w1))).
  split; [done|]. split; [apply not_elem_of_dom, is_fresh|].
  split; [by rewrite Hir; simpl; rewrite Hst|]. split; [done|]. split; [done|].
  split.
  { rewrite approve_outcome, Hir. rewrite decide_False by done.
    rewrite findUnique_code_free by (by rewrite Hc1). by rewrite Hc1. }
  cbn [clients intakeRequests calls with_intakeRequests with_clients with_reads
       approved_client name email bookingLink code status].
  rewrite lookup_insert_eq, Hb, He, Hbl, Hc1.
  split_and!; try done.
  - apply not_elem_of_dom, is_fresh.
  - apply or_else_or_null.
Qed.

Lemma intake_then_approve_witness :
  let E := Sample.env Sample.noon in
  let body : gmap string string :=
    {[ "business" := " Nova Labs "; "email" := "hi@nova.test" ]} in
  let abody : gmap string string := {[ "code" := "nova" ]} in
  ∃ w1 w2 iid cid c,
    post_intake E body Sample.world = (Returned (Render "intake"), w1) ∧
    intakeRequests Sample.world !! iid = None ∧
    intake_status <$> intakeRequests w1 !! iid = Some "NEW" ∧
    clients w1 = clients Sample.world ∧
    calls w1 = calls Sample.world ++
      (if Js.truthy (YOUR_NOTIFY_EMAIL E)
       then [newIntakeMail E (Js.trim (Js.or_str (body !! "business") ""))
               (Js.trim (Js.or_str (body !! "contact") ""))
               (Js.trim (Js.or_str (body !! "email") ""))]
       else []) ∧
    post_admin_intake_approve E true iid abody w1 = (Returned (Redirect "/admin"), w2) ∧
    clients Sample.world !! cid = None ∧ clients w2 = <[cid := c]> (clients Sample.world) ∧
    name c = Js.trim (Js.or_str (body !! "business") "") ∧
    email c = Js.trim (Js.or_str (body !! "email") "") ∧
    bookingLink c = Js.or_null (Js.trim (Js.or_str (body !! "bookingLink") "")) ∧
    code c = Js.trim (Js.or_str (abody !! "code") "") ∧
    status c = "ACTIVE" ∧
    intake_status <$> intakeRequests w2 !! iid = Some "APPROVED" ∧
    calls w2 = calls w1.
Proof.
  intros E body abody.
  apply (intake_then_approve E Sample.world body abody).
  - done.
  - apply sample_free_nova.
Defined.

(** X10.  The approval does not look at the status of the intake: approving
    the same intake twice, with two different unused codes, creates two
    clients of the same business. *)
Theorem approve_twice_creates_two_clients (E : Env) (w : World) (id : string)
    (ir : IntakeRequest) (body1 body2 : gmap string string) :
  let s1 := Js.trim (Js.or_str (body1 !! "code") "") in
  let s2 := Js.trim (Js.or_str (body2 !! "code") "") in
  intakeRequests w !! id = Some ir →
  s1 ≠ "" → s2 ≠ "" → s1 ≠ s2 →
  (∀ j c, clients w !! j = Some c → code c ≠ s1 ∧ code c ≠ s2) →
  ∃ w1 w2 k1 k2 c1 c2,
    post_admin_intake_approve E true id body1 w = (Returned (Redirect "/admin"), w1) ∧
    post_admin_intake_approve E true id body2 w1 = (Returned (Redirect "/admin"), w2) ∧
    k1 ≠ k2 ∧ clients w !! k1 = None ∧ clients w !! k2 = None ∧
    clients w2 = <[k2 := c2]> (<[k1 := c1]> (clients w)) ∧
    name c1 = business ir ∧ name c2 = business ir ∧
    code c1 = s1 ∧ code c2 = s2 ∧ status c1 = "ACTIVE" ∧ status c2 = "ACTIVE".
Proof.
  intros s1 s2 Hir Hne1 Hne2 Hdiff Hfree.
  set (k1 := fresh (dom (clients w))).
  set (c1 := approved_client E ir s1 (clock E (reads w))).
  set (w1 := with_intakeRequests (insert id (approve_intake ir))
               (with_clients (insert k1 c1) (with_reads S w))).
  assert (post_admin_intake_approve E true id body1 w = (Returned (Redirect "/admin"), w1))
    as Hrun1.
  { rewrite approve_outcome, Hir. fold s1. rewrite decide_False by done.
    rewrite findUnique_code_free; [done|]. intros j c Hc. by apply (Hfree j c). }
  assert (clients w !! k1 = None) as Hk1 by apply not_elem_of_dom, is_fresh.
  assert (∀ j c, clients w1 !! j = Some c → code c ≠ s2) as Hfree1.
  { intros j c. simpl. intros [[<- <-]|[_ Hc]]%lookup_insert_Some.
    - simpl. done.
    - by apply (Hfree j c). }
  set (k2 := fresh (dom (clients w1))).
  assert (clients w1 !! k2 = None) as Hk2 by apply not_elem_of_dom, is_fresh.
  exists w1. eexists _, k1, k2, c1, _. split; [done|].
  rewrite approve_outcome. fold s2.
  replace (intakeRequests w1 !! id) with (Some (approve_intake ir))
    by (simpl; by rewrite lookup_insert_eq).
  rewrite decide_False by done. rewrite findUnique_code_free by done.
  fold k2. split_and!; try done.
  - intros Heq. rewrite <- Heq in Hk2. simpl in Hk2. by rewrite lookup_insert_eq in Hk2.
  - simpl in Hk2. apply lookup_insert_None in Hk2. tauto.
Qed.

Lemma approve_twice_creates_two_clients_witness :
  let E := Sample.env Sample.noon in
  ∃ w1 w2 k1 k2 c1 c2,
    post_admin_intake_approve E true "i1" {["code" := "nova"]} Sample.world
      = (Returned (Redirect "/admin"), w1) ∧
    post_admin_intake_approve E true "i1" {["code" := "nova2"]} w1
      = (Returned (Redirect "/admin"), w2) ∧
    k1 ≠ k2 ∧ clients Sample.world !! k1 = None ∧ clients Sample.world !! k2 = None ∧
    clients w2 = <[k2 := c2]> (<[k1 := c1]> (clients Sample.world)) ∧
    name c1 = "Acme Corp" ∧ name c2 = "Acme Corp" ∧
    code c1 = "nova" ∧ code c2 = "nova2" ∧ status c1 = "ACTIVE" ∧ status c2 = "ACTIVE".
Proof.
  intros E.
  assert ("nova" ≠ "") as H1 by done.
  assert ("nova2" ≠ "") as H2 by done.
  assert ("nova" ≠ "nova2") as H3 by done.
  exact (approve_twice_creates_two_clients E Sample.world "i1"
           {| business := "Acme Corp"; contact := "Ann"; intake_email := "ann@acme.test";
              intake_bookingLink := None; intake_status := "NEW" |}
           {["code" := "nova"]} {["code" := "nova2"]} eq_refl H1 H2 H3
           (λ j c Hc, conj (sample_free_nova j c Hc) (sample_free_nova2 j c Hc))).
Defined.

(** X11.  Fields of white space only count as empty: a lead whose phone and
    message are blank is stored with both set to null, and an approval whose
    code is blank does nothing. *)
Theorem blank_fields_are_empty (E : Env) (w : World) (j iid : string) (c : Client)
    (body abody : gmap string string) :
  clients w !! j = Some c →
  all_white (Js.or_str (body !! "phone") "") = true →
  all_white (Js.or_str (body !! "message") "") = true →
  all_white (Js.or_str (abody !! "code") "") = true →
  (∃ w' l, post_lead E (code c) body w = (Returned (Render "thanks"), w') ∧
     leads w' = leads w ++ [l] ∧ phone l = None ∧ message l = None) ∧
  post_admin_intake_approve E true iid abody w = (Returned (Redirect "/admin"), w).
Proof.
  intros Hc Hp Hm Hcode. split.
  - destruct (findUnique_code_taken w (code c) j c Hc eq_refl) as [[id client] Hhead].
    destruct (lead_run E (code c) body id client w Hhead) as (r & w' & Hrun & -> & _ & _ & Hl & _).
    exists w', (submitted_lead id body). split_and!; [done|done|..].
    + unfold submitted_lead. simpl. by rewrite trim_all_white.
    + unfold submitted_lead. simpl. by rewrite trim_all_white.
  - rewrite approve_outcome. destruct (intakeRequests w !! iid); [|done].
    by rewrite decide_True by by apply trim_all_white.
Qed.

Lemma blank_fields_are_empty_witness :
  let E := Sample.env Sample.noon in
  let body : gmap string string := {[ "name" := "Bo"; "phone" := "   " ]} in
  let abody : gmap string string := {[ "code" := "  " ]} in
  (∃ w' l, post_lead E "acme" body Sample.world = (Returned (Render "thanks"), w') ∧
     leads w' = leads Sample.world ++ [l] ∧ phone l = None ∧ message l = None) ∧
  post_admin_intake_approve E true "i1" abody Sample.world
    = (Returned (Redirect "/admin"), Sample.world).
Proof.
  intros E body abody.
  exact (blank_fields_are_empty E Sample.world "c1" "i1" Sample.soon body abody
           eq_refl eq_refl eq_refl eq_refl).
Defined.

(** X12.  The landing page and the lead form agree: [GET /c/:code] changes
    nothing; where it answers "Client not found" a lead for that code is
    refused the same way, and where it shows a client a lead for that code
    is stored, and the page shows the client as paused exactly when the lead
    triggers no mail. *)
Theorem landing_agrees_with_lead (E : Env) (w : World) (cd : string)
    (body : gmap string string) :
  ∃ p, get_landing cd w = (Returned p, w) ∧
    match p with
    | PageNotFound _ =>
        post_lead E cd body w = (Returned (NotFound "Client not found"), w)
    | Landing client paused =>
        code client = cd ∧
        ∃ w' l, post_lead E cd body w = (Returned (Render "thanks"), w') ∧
          leads w' = leads w ++ [l] ∧
          (paused = true ↔ calls w' = calls w)
    end.
Proof.
  destruct (head (filter (λ ic : string * Client, code ic.2 = cd)
                    (map_to_list (clients w)))) as [[id client]|] eqn:Hhead.
  - exists (Landing client (negb (bool_decide (status client = "ACTIVE")))). split.
    { unfold get_landing, bind, client_findUnique_code, gets. by rewrite Hhead. }
    split; [by apply findUnique_code_head_Some in Hhead as [_ ?]|].
    destruct (lead_run E cd body id client w Hhead)
      as (r & w' & Hrun & -> & _ & _ & Hl & Hm).
    exists w', (submitted_lead id body). split_and!; [done..|].
    rewrite Hm. destruct (bool_decide (status client = "ACTIVE")); simpl.
    + split; [done|]. intros Heq. apply (f_equal length) in Heq.
      rewrite length_app in Heq. simpl in Heq. lia.
    + by rewrite app_nil_r.
  - exists (PageNotFound "Client not found").
    unfold get_landing, post_lead, bind, client_findUnique_code, gets. by rewrite Hhead.
Qed.

(** X13.  [sendEmail] hands a message to the transport exactly when the four
    SMTP settings are set, and then exactly one, whose sender is a non-empty
    string (MAIL_FROM, or else SMTP_USER); it reports [ok] exactly when the
    transport accepts the message, and writes a line to the log in every
    other case. *)
Theorem sendEmail_hands_over_iff_configured (E : Env) (m : Mail) (w : World) :
  ∃ r w', sendEmail E m w = (Returned r, w') ∧
    if smtpReady E then
      wire w' = wire w ++ [outgoing E m] ∧
      (∃ sender, msg_from (outgoing E m) = Some sender ∧ sender ≠ "") ∧
      match sendMail_error E (length (wire w)) (outgoing E m) with
      | None => r = {| ok := true; error := None |} ∧ console w' = console w
      | Some err =>
          r = {| ok := false; error := Some err |} ∧
          console w' = console w ++ [SendFailed err]
      end
    else
      wire w' = wire w ∧ r = {| ok := false; error := None |} ∧
      console w' = console w ++ [NotConfigured (to m) (subject m)].
Proof.
  unfold sendEmail, bind, try_catch, modify, console_log, ret, transporter_sendMail.
  destruct (smtpReady E) eqn:Hready; simpl.
  - assert (∃ sender, msg_from (outgoing E m) = Some sender ∧ sender ≠ "") as Hfrom.
    { unfold smtpReady in Hready. repeat apply andb_true_iff in Hready as [Hready ?].
      unfold outgoing, Js.or_else. simpl.
      destruct (Js.truthy_opt (getenv E "MAIL_FROM")) eqn:Hmf.
      - destruct (getenv E "MAIL_FROM") as [s|]; [|done]. exists s. split; [done|].
        by apply bool_decide_eq_true_1 in Hmf.
      - destruct (getenv E "SMTP_USER") as [s|]; [|done]. exists s. split; [done|].
        simpl in *. by eapply bool_decide_eq_true_1. }
    destruct (sendMail_error E _ _) as [e|]; simpl; eexists _, _; split_and!; done.
  - eexists _, _. split_and!; done.
Qed.

(** X14.  After a pass taken at one instant no ACTIVE client is overdue:
    every client that is still ACTIVE and has a due date has at least one
    day left by [getDaysLeft]. *)
Theorem pass_leaves_no_overdue_active (E : Env) (now : Z) (w : World) :
  frozen E now →
  ∃ w', subscriptionCheck E w = (Returned tt, w') ∧
    ∀ id c, clients w' !! id = Some c → status c = "ACTIVE" → is_Some (dueAt c) →
      ∃ left_, getDaysLeft E (dueAt c) w' = (Returned (Some left_), with_reads S w') ∧
               0 < left_.
Proof.
  intros Hfr.
  destruct (subscriptionCheck_run E now Hfr w) as ([] & w' & Hrun & Hc' & _).
  exists w'. split; [done|]. intros id c' Hlook Hst [due Hdue].
  rewrite Hc' in Hlook. destruct (clients w !! id) as [c|]; [|done].
  simpl in Hlook. injection Hlook as <-.
  exists (daysLeft now due). rewrite Hdue.
  split; [unfold getDaysLeft, bind, Date_now, ret; by rewrite (Hfr (reads w'))|].
  revert Hst Hdue. unfold verdict. destruct (dueAt c) as [due0|] eqn:Hdue0; [|by simpl; congruence].
  case_bool_decide as Hact.
  2:{ simpl. congruence. }
  destruct (0 <? daysLeft now due0) eqn:Hpos.
  2:{ simpl. done. }
  destruct (_ && _); simpl; intros _ Heq; rewrite Hdue0 in Heq || simpl in Heq;
    simplify_eq; lia.
Qed.

Lemma pass_leaves_no_overdue_active_witness :
  ∃ w', subscriptionCheck (Sample.env Sample.noon) Sample.world = (Returned tt, w') ∧
    ∀ id c, clients w' !! id = Some c → status c = "ACTIVE" → is_Some (dueAt c) →
      ∃ left_, getDaysLeft (Sample.env Sample.noon) (dueAt c) w'
                 = (Returned (Some left_), with_reads S w') ∧
               0 < left_.
Proof.
  apply (pass_leaves_no_overdue_active (Sample.env Sample.noon) Sample.noon), sample_frozen.
Defined.

End ServerProps.

(** ** The billing check and the routes of the [isPaused] variant *)

Module BillingRunFacts.
Import Async AsyncFacts Billing BillingRun BillingPass.
Local Open Scope Z_scope.

Section Facts.
Variable E : BillingRun.Env.

Lemma sendEmailSafe_returns (m : Mail) (w : BillingRun.World) :
  returns (sendEmailSafe E m) w (λ _ w',
    db w' = db w ∧ leads w' = leads w ∧ calls w' = calls w ++ [m]).
Proof.
  unfold returns, sendEmailSafe, bind, try_catch, modify, console_log, ret,
    transporter_sendMail.
  destruct (_ || _); simpl; [eauto 10|].
  destruct (sendMail_error E _ _); simpl; eauto 10.
Qed.

Lemma returns_sendEmailSafe (m : Mail) w (Q : SendResult → BillingRun.World → Prop) :
  (∀ r w', db w' = db w → leads w' = leads w → calls w' = calls w ++ [m] → Q r w') →
  returns (sendEmailSafe E m) w Q.
Proof.
  intros Hk. eapply returns_mono; [apply sendEmailSafe_returns|].
  intros r w' (?&?&?). by apply Hk.
Qed.

Lemma returns_lift_update id data r w (Q : unit → BillingRun.World → Prop) :
  clients (db w) !! id = Some r →
  (∀ w', clients (db w') = <[id := data r]> (clients (db w)) →
         clientIntakes (db w') = clientIntakes (db w) → reads (db w') = reads (db w) →
         leads w' = leads w → calls w' = calls w → Q tt w') →
  returns (lift (client_update id data)) w Q.
Proof.
  intros Hr HQ. unfold returns, lift, client_update. rewrite Hr. simpl.
  eexists _, _. split; [done|]. by apply HQ.
Qed.

(** One iteration of the loop. *)
Lemma billClient_run now id c r w :
  clients (db w) !! id = Some r →
  returns (billClient E now (id, c)) w (λ _ w',
    clients (db w') =
      <[id := if overdue now c then set_paused true (Some "Payment overdue") r
              else if negb (reminded_today E now c) && on_reminder_day E now c
                   then set_lastReminderAt (Some now) r
                   else r]> (clients (db w)) ∧
    clientIntakes (db w') = clientIntakes (db w) ∧ reads (db w') = reads (db w) ∧
    leads w' = leads w ∧
    calls w' = calls w ++ bill_mails E now c).
Proof.
  intros Hr. unfold billClient, bill_mails. fold (overdue now c).
  destruct (overdue now c).
  - apply returns_bind. eapply returns_lift_update; [done|].
    intros w1 Hc1 Hi1 Hr1 Hl1 Hm1.
    apply returns_bind, returns_sendEmailSafe. intros ? w2 Hd2 Hl2 Hm2.
    destruct (Js.truthy_opt (getenv E "YOUR_NOTIFY_EMAIL")); cbn [when].
    + apply returns_bind, returns_sendEmailSafe. intros ? w3 Hd3 Hl3 Hm3.
      apply returns_ret. rewrite Hd3, Hd2, Hl3, Hl2, Hm3, Hm2, Hm1, Hl1.
      split_and!; try done. by rewrite <- app_assoc.
    + apply returns_ret. rewrite Hd2, Hl2, Hm2, Hm1, Hl1. done.
  - fold (reminded_today E now c). fold (on_reminder_day E now c).
    destruct (negb (reminded_today E now c) && on_reminder_day E now c); cbn [when].
    + apply returns_bind, returns_sendEmailSafe. intros ? w1 Hd1 Hl1 Hm1.
      apply returns_bind.
      assert (clients (db w1) !! id = Some r) as Hr1 by by rewrite Hd1.
      destruct (Js.truthy_opt (getenv E "YOUR_NOTIFY_EMAIL")); cbn [when].
      * apply returns_bind, returns_sendEmailSafe. intros ? w2 Hd2 Hl2 Hm2.
        apply returns_ret. eapply returns_lift_update; [by rewrite Hd2|].
        intros w3 Hc3 Hi3 Hr3 Hl3 Hm3.
        rewrite Hc3, Hi3, Hr3, Hl3, Hm3, Hd2, Hd1, Hl2, Hl1, Hm2, Hm1.
        split_and!; try done. by rewrite <- app_assoc.
      * apply returns_ret. eapply returns_lift_update; [done|].
        intros w3 Hc3 Hi3 Hr3 Hl3 Hm3.
        rewrite Hc3, Hi3, Hr3, Hl3, Hm3, Hd1, Hl1, Hm1. done.
    + apply returns_ret. rewrite insert_id by done. by rewrite app_nil_r.
Qed.

Lemma bill_loop_run now (l : list (string * Client)) w :
  NoDup (l.*1) →
  (∀ id c, (id, c) ∈ l → clients (db w) !! id = Some c) →
  returns (for_of l (billClient E now)) w (λ _ w',
    (∀ j, j ∉ l.*1 → clients (db w') !! j = clients (db w) !! j) ∧
    (∀ id c, (id, c) ∈ l → clients (db w') !! id = Some (billed E now c)) ∧
    clientIntakes (db w') = clientIntakes (db w) ∧ reads (db w') = reads (db w) ∧
    leads w' = leads w ∧
    calls w' = calls w ++ concat (map (λ ic, bill_mails E now ic.2) l)).
Proof.
  revert w. induction l as [|[id c] l IH]; intros w Hnd Hin; simpl.
  - apply returns_ret. rewrite app_nil_r. split_and!; try done.
    intros ?? H. by apply elem_of_nil in H.
  - apply NoDup_cons in Hnd as [Hid Hnd]. apply returns_bind.
    eapply returns_mono; [apply (billClient_run now id c c), Hin; left|].
    intros _ w1 (Hc1 & Hi1 & Hr1 & Hl1 & Hm1).
    eapply returns_mono.
    + apply IH; [done|]. intros id' c' Hel. rewrite Hc1.
      rewrite lookup_insert_ne.
      * apply Hin. by right.
      * intros <-. apply Hid. apply list_elem_of_fmap. by exists (id, c').
    + intros _ w' (Hout & Hin' & Hi' & Hr' & Hl' & Hm'). split_and!.
      * intros j Hj. apply not_elem_of_cons in Hj as [Hne Hj].
        rewrite Hout by done. rewrite Hc1. by rewrite lookup_insert_ne.
      * intros id' c' [Heq|Hel]%elem_of_cons.
        -- simplify_eq. rewrite Hout by done. rewrite Hc1, lookup_insert_eq.
           unfold billed. done.
        -- by apply Hin'.
      * congruence.
      * congruence.
      * congruence.
      * rewrite Hm', Hm1. by rewrite <- app_assoc.
Qed.

(** The check reads the clock once, returns, and leaves every record and
    the mail log as the decisions for the records say. *)
Lemma runBillingCheck_run w :
  let now := clock (base E) (reads (db w)) in
  returns (runBillingCheck E) w (λ _ w',
    (∀ id, clients (db w') !! id = billed E now <$> clients (db w) !! id) ∧
    clientIntakes (db w') = clientIntakes (db w) ∧ reads (db w') = S (reads (db w)) ∧
    leads w' = leads w ∧
    calls w' = calls w ++
      concat (map (λ ic, bill_mails E now ic.2) (map_to_list (clients (db w))))).
Proof.
  intros now. unfold runBillingCheck. apply returns_bind.
  exists now, (with_db (λ _, (Date_now (base E) (db w)).2) w). split; [done|].
  apply returns_bind, returns_gets. cbn [db with_db Date_now snd clients].
  eapply returns_mono.
  - apply bill_loop_run; [apply NoDup_fst_map_to_list|].
    intros id c Hel. by apply elem_of_map_to_list in Hel.
  - intros _ w' (Hout & Hin & Hi & Hr & Hl & Hm). split_and!; try done.
    intros id. destruct (clients (db w) !! id) as [c|] eqn:Hc; simpl.
    + apply Hin. by apply elem_of_map_to_list.
    + rewrite Hout; [done|]. intros Hid.
      apply list_elem_of_fmap in Hid as ([id' c'] & -> & Hel).
      apply elem_of_map_to_list in Hel. simpl in Hc. congruence.
Qed.

(** The check on one record: what becomes of it, and where its mails stand
    in the log. *)
Lemma runBillingCheck_client w id c :
  clients (db w) !! id = Some c →
  let now := clock (base E) (reads (db w)) in
  ∃ w' pre post,
    runBillingCheck E w = (Returned tt, w') ∧
    clients (db w') !! id = Some (billed E now c) ∧
    calls w' = calls w ++ pre ++ bill_mails E now c ++ post.
Proof.
  intros Hc now.
  destruct (runBillingCheck_run w) as ([] & w' & Hrun & Hc' & _ & _ & _ & Hm).
  apply elem_of_map_to_list, list_elem_of_split in Hc as (before & after & Hlist).
  exists w', (concat (map (λ ic, bill_mails E now ic.2) before)),
    (concat (map (λ ic, bill_mails E now ic.2) after)).
  split; [done|]. split.
  - rewrite Hc'. assert ((id, c) ∈ map_to_list (clients (db w))) as Hel.
    { rewrite Hlist. apply elem_of_app. right. left. }
    apply elem_of_map_to_list in Hel. by rewrite Hel.
  - rewrite Hm. fold now. rewrite Hlist, map_app, concat_app. simpl. done.
Qed.

Lemma overdue_daysBetween now c :
  nextDueDate c < now → daysBetween now (nextDueDate c) ≤ 0.
Proof.
  intros Hlt. unfold daysBetween. change (1000 * 60 * 60 * 24) with Date.msPerDay.
  apply DateFacts.ceil_div_nonpos; [done|lia].
Qed.

End Facts.

Lemma billing_findUnique_code_unique (w : Billing.World) cd id client :
  clients w !! id = Some client → code client = cd →
  (∀ j c', clients w !! j = Some c' → code c' = cd → j = id) →
  head (filter (λ ic : string * Client, code ic.2 = cd) (map_to_list (clients w)))
    = Some (id, client).
Proof.
  intros Hc Hcd Huniq.
  assert ((id, client) ∈ filter (λ ic : string * Client, code ic.2 = cd)
            (map_to_list (clients w))) as Hin.
  { apply list_elem_of_filter. split; [done|]. by apply elem_of_map_to_list. }
  destruct (filter _ _) as [|[j c'] l] eqn:Hf; [by apply elem_of_nil in Hin|].
  assert ((j, c') ∈ filter (λ ic : string * Client, code ic.2 = cd)
            (map_to_list (clients w))) as Hj by (rewrite Hf; left).
  apply list_elem_of_filter in Hj as [Hcode Hj]. apply elem_of_map_to_list in Hj.
  simpl in Hcode. assert (j = id) as -> by eauto. simpl. by simplify_eq.
Qed.

(** A second check at the same instant finds nothing to do on a record the
    first one has dealt with. *)
Lemma billed_twice (E : BillingRun.Env) now c :
  (∀ d, remind1 E = Some d → 0 < d) → (∀ d, remind2 E = Some d → 0 < d) →
  billed E now (billed E now c) = billed E now c ∧
  bill_mails E now (billed E now c) = [].
Proof.
  intros H1 H2. unfold billed at 2 3 4. destruct (overdue now c) eqn:Hov.
  - assert (overdue now (set_paused true (Some "Payment overdue") c) = false) as Hov'.
    { unfold overdue. simpl. by rewrite andb_false_r. }
    assert (on_reminder_day E now (set_paused true (Some "Payment overdue") c) = false)
      as Hon.
    { unfold on_reminder_day. simpl.
      apply andb_true_iff in Hov as [Hlt _]. apply Z.ltb_lt in Hlt.
      pose proof (overdue_daysBetween now c Hlt) as Hle.
      apply orb_false_iff. split.
      - destruct (remind1 E) as [d|] eqn:Hd; [|done]. simpl.
        specialize (H1 d eq_refl). lia.
      - destruct (remind2 E) as [d|] eqn:Hd; [|done]. simpl.
        specialize (H2 d eq_refl). lia. }
    unfold billed, bill_mails. by rewrite Hov', Hon, andb_false_r.
  - destruct (negb (reminded_today E now c) && on_reminder_day E now c) eqn:Hcond.
    + assert (overdue now (set_lastReminderAt (Some now) c) = false) as Hov' by done.
      assert (reminded_today E now (set_lastReminderAt (Some now) c) = true) as Htoday.
      { unfold reminded_today, same_local_day. simpl. lia. }
      unfold billed, bill_mails. by rewrite Hov', Htoday.
    + unfold billed, bill_mails. by rewrite Hov, Hcond.
Qed.

Lemma sample_code_unique id c :
  clients (db BillingSample.world) !! id = Some c →
  ∀ j c', clients (db BillingSample.world) !! j = Some c' → code c' = code c → j = id.
Proof.
  intros Hi j c' Hj Hcode. unfold BillingSample.world in Hi, Hj. simpl in Hi, Hj.
  repeat (apply lookup_insert_Some in Hi as [[<- <-]|[_ Hi]];
          [repeat (apply lookup_insert_Some in Hj as [[<- <-]|[_ Hj]]; [done|]);
           by rewrite lookup_empty in Hj|]).
  by rewrite lookup_empty in Hi.
Qed.

End BillingRunFacts.

Module BillingProps.
Import Async AsyncFacts Billing BillingRun BillingPass BillingRunFacts.
Local Open Scope Z_scope.

(** X15.  Under every clock and transport the billing check returns and
    reads the clock once.  It neither adds nor removes a client and leaves
    intakes and leads alone; of a client it changes nothing but [isPaused],
    [pauseReason] and [lastReminderAt], and it never lifts a pause. *)
Theorem billing_check_changes_only_pause_and_stamp (E : BillingRun.Env)
    (w : BillingRun.World) :
  ∃ w', runBillingCheck E w = (Returned tt, w') ∧
    clientIntakes (db w') = clientIntakes (db w) ∧ leads w' = leads w ∧
    reads (db w') = S (reads (db w)) ∧
    ∀ id, match clients (db w) !! id with
          | None => clients (db w') !! id = None
          | Some c =>
              ∃ c', clients (db w') !! id = Some c' ∧
                name c' = name c ∧ code c' = code c ∧ email c' = email c ∧
                bookingUrl c' = bookingUrl c ∧
                subscriptionStart c' = subscriptionStart c ∧
                nextDueDate c' = nextDueDate c ∧
                (isPaused c = true → isPaused c' = true)
          end.
Proof.
  destruct (runBillingCheck_run E w) as ([] & w' & Hrun & Hc' & Hi & Hr & Hl & _).
  exists w'. split_and!; [done..|]. intros id. rewrite Hc'.
  destruct (clients (db w) !! id) as [c|]; [|done]. simpl.
  eexists. split; [done|]. unfold billed.
  destruct (overdue _ c); [done|]. by destruct (_ && _).
Qed.

(** X16.  A client whose due date has passed and who is not paused is
    paused by the check with the reason "Payment overdue"; the pause mail to
    the client, and with an operator address configured the operator's mail
    after it, are in the log; the reminder stamp stays as it was, whatever
    the reminder days are. *)
Theorem overdue_client_is_paused (E : BillingRun.Env) (w : BillingRun.World)
    (id : string) (c : Client) :
  clients (db w) !! id = Some c →
  nextDueDate c < clock (base E) (reads (db w)) → isPaused c = false →
  ∃ w' c' pre post,
    runBillingCheck E w = (Returned tt, w') ∧
    clients (db w') !! id = Some c' ∧
    isPaused c' = true ∧ pauseReason c' = Some "Payment overdue" ∧
    lastReminderAt c' = lastReminderAt c ∧
    calls w' = calls w ++ pre ++
      (pausedMail E c ::
       (if Js.truthy_opt (getenv E "YOUR_NOTIFY_EMAIL")
        then [adminPausedMail E c (nextDueDate c)] else [])) ++ post.
Proof.
  intros Hc Hdue Hp.
  destruct (runBillingCheck_client E w id c Hc) as (w' & pre & post & Hrun & Hc' & Hm).
  assert (overdue (clock (base E) (reads (db w))) c = true) as Hov.
  { unfold overdue. rewrite Hp. simpl. rewrite andb_true_r. lia. }
  unfold billed, bill_mails in *. rewrite Hov in *.
  eexists w', _, pre, post. split_and!; done.
Qed.

Lemma overdue_client_is_paused_witness :
  let E := BillingSample.env Sample.at_00_05 in
  ∃ w' c' pre post,
    runBillingCheck E BillingSample.world = (Returned tt, w') ∧
    clients (db w') !! "b1" = Some c' ∧
    isPaused c' = true ∧ pauseReason c' = Some "Payment overdue" ∧
    lastReminderAt c' = lastReminderAt BillingSample.late ∧
    calls w' = calls BillingSample.world ++ pre ++
      (pausedMail E BillingSample.late ::
       (if Js.truthy_opt (getenv E "YOUR_NOTIFY_EMAIL")
        then [adminPausedMail E BillingSample.late (nextDueDate BillingSample.late)]
        else [])) ++ post.
Proof.
  intros E.
  apply (overdue_client_is_paused E BillingSample.world "b1" BillingSample.late).
  - reflexivity.
  - reflexivity.
  - reflexivity.
Defined.

(** X17.  A client that the check does not pause is reminded exactly when
    the count of days left equals one of the two reminder days and the last
    reminder was not sent on the same calendar day of the local zone: then
    the reminder is in the log and the stamp is set to the instant of the
    check; otherwise the record is left as it was.  A paused client is
    reminded like any other. *)
Theorem reminder_on_the_reminder_days (E : BillingRun.Env) (w : BillingRun.World)
    (id : string) (c : Client) :
  clients (db w) !! id = Some c →
  (clock (base E) (reads (db w)) ≤ nextDueDate c ∨ isPaused c = true) →
  let now := clock (base E) (reads (db w)) in
  let left_ := daysBetween now (nextDueDate c) in
  ∃ w' c' pre post,
    runBillingCheck E w = (Returned tt, w') ∧
    clients (db w') !! id = Some c' ∧
    if negb (reminded_today E now c) &&
       (is_day left_ (remind1 E) || is_day left_ (remind2 E))
    then
      c' = set_lastReminderAt (Some now) c ∧
      calls w' = calls w ++ pre ++
        (reminderMail E c left_ ::
         (if Js.truthy_opt (getenv E "YOUR_NOTIFY_EMAIL")
          then [adminReminderMail E c left_] else [])) ++ post
    else c' = c.
Proof.
  intros Hc Hnot now left_.
  destruct (runBillingCheck_client E w id c Hc) as (w' & pre & post & Hrun & Hc' & Hm).
  assert (overdue now c = false) as Hov.
  { unfold overdue. destruct Hnot as [Hle | ->]; [|by rewrite andb_false_r].
    apply andb_false_iff. left. fold now in Hle. lia. }
  fold now in Hc', Hm. unfold billed, bill_mails in *. rewrite Hov in *.
  unfold on_reminder_day in *. fold left_ in Hc', Hm.
  eexists w', _, pre, post. split_and!; [done..|].
  by destruct (_ && _).
Qed.

Lemma reminder_on_the_reminder_days_witness :
  let E := BillingSample.env Sample.at_00_05 in
  let now := Sample.at_00_05 in
  let c := BillingSample.held in
  isPaused c = true ∧
  ∃ w' c' pre post,
    runBillingCheck E BillingSample.world = (Returned tt, w') ∧
    clients (db w') !! "b2" = Some c' ∧
    c' = set_lastReminderAt (Some now) c ∧
    calls w' = calls BillingSample.world ++ pre ++
      [reminderMail E c 5; adminReminderMail E c 5] ++ post.
Proof.
  intros E now c. split; [reflexivity|].
  exact (reminder_on_the_reminder_days E BillingSample.world "b2" c eq_refl
           (or_intror eq_refl)).
Defined.

(** X18.  The reminder is held back per calendar day, not per 24 hours: a
    client reminded on an earlier day of the local calendar, however
    recently, is reminded again when the count of days left is a reminder
    day. *)
Theorem reminder_repeats_after_midnight (E : BillingRun.Env) (w : BillingRun.World)
    (id : string) (c : Client) (last : Z) :
  let now := clock (base E) (reads (db w)) in
  let tz := zone (base E) in
  clients (db w) !! id = Some c →
  now ≤ nextDueDate c →
  lastReminderAt c = Some last →
  Date.LocalTime tz last / Date.msPerDay < Date.LocalTime tz now / Date.msPerDay →
  is_day (daysBetween now (nextDueDate c)) (remind1 E) = true ∨
  is_day (daysBetween now (nextDueDate c)) (remind2 E) = true →
  ∃ w' c' pre post,
    runBillingCheck E w = (Returned tt, w') ∧
    clients (db w') !! id = Some c' ∧
    lastReminderAt c' = Some now ∧
    calls w' = calls w ++ pre ++
      [reminderMail E c (daysBetween now (nextDueDate c))] ++ post.
Proof.
  intros now tz Hc Hdue Hlast Hday Hrem.
  destruct (runBillingCheck_client E w id c Hc) as (w' & pre & post & Hrun & Hc' & Hm).
  fold now in Hc', Hm.
  assert (overdue now c = false) as Hov.
  { unfold overdue. apply andb_false_iff. left. lia. }
  assert (reminded_today E now c = false) as Htoday.
  { unfold reminded_today, same_local_day. rewrite Hlast. fold tz. lia. }
  assert (on_reminder_day E now c = true) as Hon.
  { unfold on_reminder_day. apply orb_true_iff. done. }
  unfold billed, bill_mails in *. rewrite Hov, Htoday, Hon in *. simpl in *.
  eexists w', _, pre,
    ((if Js.truthy_opt (getenv E "YOUR_NOTIFY_EMAIL")
      then [adminReminderMail E c (daysBetween now (nextDueDate c))] else []) ++ post).
  split_and!; done.
Qed.

Lemma reminder_repeats_after_midnight_witness :
  let E := BillingSample.env Sample.at_00_05 in
  let now := Sample.at_00_05 in
  let c := BillingSample.nagged in
  lastReminderAt c = Some Sample.at_23_59 ∧
  now - Sample.at_23_59 = 6 * 60 * 1000 ∧
  ∃ w' c' pre post,
    runBillingCheck E BillingSample.world = (Returned tt, w') ∧
    clients (db w') !! "b3" = Some c' ∧
    lastReminderAt c' = Some now ∧
    calls w' = calls BillingSample.world ++ pre ++ [reminderMail E c 1] ++ post.
Proof.
  intros E now c. split; [reflexivity|]. split; [reflexivity|].
  assert (Date.LocalTime Date.utc_zone Sample.at_23_59 / Date.msPerDay <
          Date.LocalTime Date.utc_zone Sample.at_00_05 / Date.msPerDay) as Hday
    by reflexivity.
  assert (Sample.at_00_05 ≤ nextDueDate c) as Hdue by (vm_compute; discriminate).
  exact (reminder_repeats_after_midnight E BillingSample.world "b3" c Sample.at_23_59
           eq_refl Hdue eq_refl Hday (or_intror eq_refl)).
Defined.

(** X19.  With reminder days of at least one, a second check at the same
    instant does nothing: it changes no record and asks for no mail. *)
Theorem second_billing_check_is_idle (E : BillingRun.Env) (now : Z)
    (w : BillingRun.World) :
  (∀ k, clock (base E) k = now) →
  (∀ d, remind1 E = Some d → 0 < d) → (∀ d, remind2 E = Some d → 0 < d) →
  ∃ w1 w2,
    runBillingCheck E w = (Returned tt, w1) ∧
    runBillingCheck E w1 = (Returned tt, w2) ∧
    clients (db w2) = clients (db w1) ∧ leads w2 = leads w1 ∧ calls w2 = calls w1.
Proof.
  intros Hfr H1 H2.
  destruct (runBillingCheck_run E w) as ([] & w1 & Hrun1 & Hc1 & _).
  destruct (runBillingCheck_run E w1) as ([] & w2 & Hrun2 & Hc2 & _ & _ & Hl2 & Hm2).
  rewrite Hfr in Hc1, Hc2, Hm2.
  assert (∀ id c, clients (db w1) !! id = Some c →
            billed E now c = c ∧ bill_mails E now c = []) as Hidle.
  { intros id c Hc. rewrite Hc1 in Hc. destruct (clients (db w) !! id) as [c0|]; [|done].
    simpl in Hc. injection Hc as <-. by apply billed_twice. }
  exists w1, w2. split_and!; try done.
  - apply map_eq. intros id. rewrite Hc2.
    destruct (clients (db w1) !! id) as [c|] eqn:Hc; [|done]. simpl.
    by destruct (Hidle id c Hc) as [-> _].
  - rewrite Hm2. rewrite <- (app_nil_r (calls w1)) at 2. f_equal.
    assert (∀ ic, ic ∈ map_to_list (clients (db w1)) → bill_mails E now ic.2 = [])
      as Hall.
    { intros [id c] Hel%elem_of_map_to_list. by apply (Hidle id c). }
    revert Hall. generalize (map_to_list (clients (db w1))). intros l Hall.
    induction l as [|ic l IH]; [done|]. simpl.
    rewrite Hall by left. simpl. apply IH. intros ??. apply Hall. by right.
Qed.

Lemma second_billing_check_is_idle_witness :
  let E := BillingSample.env Sample.at_00_05 in
  ∃ w1 w2,
    runBillingCheck E BillingSample.world = (Returned tt, w1) ∧
    runBillingCheck E w1 = (Returned tt, w2) ∧
    clients (db w2) = clients (db w1) ∧ leads w2 = leads w1 ∧ calls w2 = calls w1.
Proof.
  intros E. apply (second_billing_check_is_idle E Sample.at_00_05 BillingSample.world).
  - done.
  - intros d [= <-]. done.
  - intros d [= <-]. done.
Defined.

(** X20.  [sendEmailSafe] never throws and touches neither the database nor
    the leads.  It skips the mail, handing nothing to the transport, exactly
    when SMTP_HOST, SMTP_USER or SMTP_PASS is missing or the recipient is
    empty; otherwise it hands over one message and reports [Sent] or, when
    the transport rejects it, the error. *)
Theorem sendEmailSafe_never_throws (E : BillingRun.Env) (m : Mail) (w : BillingRun.World) :
  ∃ r w', sendEmailSafe E m w = (Returned r, w') ∧
    db w' = db w ∧ leads w' = leads w ∧
    if Js.truthy_opt (getenv E "SMTP_HOST") && Js.truthy_opt (getenv E "SMTP_USER") &&
       Js.truthy_opt (getenv E "SMTP_PASS") && Js.truthy (to m)
    then
      ∃ msg, wire w' = wire w ++ [msg] ∧
        msg_to msg = to m ∧ msg_subject msg = subject m ∧ msg_text msg = text m ∧
        match sendMail_error E (length (wire w)) msg with
        | None => r = Sent ∧ console w' = console w ++ [EmailSent (to m)]
        | Some err => r = Failed err ∧ console w' = console w ++ [EmailError err]
        end
    else
      r = Skipped ∧ wire w' = wire w ∧ console w' = console w ++ [EmailSkipped].
Proof.
  unfold sendEmailSafe, bind, try_catch, modify, console_log, ret, transporter_sendMail.
  destruct (Js.truthy_opt (getenv E "SMTP_HOST"));
    destruct (Js.truthy_opt (getenv E "SMTP_USER"));
    destruct (Js.truthy_opt (getenv E "SMTP_PASS"));
    destruct (Js.truthy (to m)); simpl;
    try (eexists _, _; split_and!; done).
  destruct (sendMail_error E _ _) as [err|] eqn:Herr; simpl.
  - eexists _, _. split_and!; try done. eexists. split_and!; try done.
    simpl. by rewrite Herr.
  - eexists _, _. split_and!; try done. eexists. split_and!; try done.
    simpl. by rewrite Herr.
Qed.

(** X21.  Two toggles restore the pause flag and keep every other column
    but the reason, which is not restored: it ends as "Paused by admin" on a
    paused client and as null on one that is not. *)
Theorem toggle_twice (w : Billing.World) (id : string) (c : Client) :
  clients w !! id = Some c →
  ∃ w1 w2,
    post_admin_clients_toggle true id w = (Returned (Redirect "/admin"), w1) ∧
    post_admin_clients_toggle true id w1 = (Returned (Redirect "/admin"), w2) ∧
    clients w2 =
      <[id := set_paused (isPaused c)
                (if isPaused c then Some "Paused by admin" else None) c]> (clients w) ∧
    clientIntakes w2 = clientIntakes w ∧ reads w2 = reads w.
Proof.
  intros Hc.
  assert (∀ v r, clients v !! id = Some r →
            post_admin_clients_toggle true id v =
            (Returned (Redirect "/admin"),
             {| clients :=
                  <[id := set_paused (negb (isPaused r))
                            (if negb (isPaused r) then Some "Paused by admin" else None) r]>
                    (clients v);
                clientIntakes := clientIntakes v; reads := reads v |})) as Hstep.
  { intros v r Hr. unfold post_admin_clients_toggle, requireAdmin. cbn [negb].
    unfold bind, gets, client_update, ret. rewrite Hr. simpl. by rewrite Hr. }
  eexists _, _. split; [by apply Hstep|]. split.
  { apply Hstep. simpl. by rewrite lookup_insert_eq. }
  simpl. rewrite insert_insert_eq, negb_involutive.
  split_and!; try done; f_equal; unfold set_paused; simpl; by destruct (isPaused c).
Qed.

Lemma toggle_twice_witness :
  ∃ w1 w2,
    post_admin_clients_toggle true "b1" (db BillingSample.world)
      = (Returned (Redirect "/admin"), w1) ∧
    post_admin_clients_toggle true "b1" w1 = (Returned (Redirect "/admin"), w2) ∧
    clients w2 =
      <["b1" := set_paused (isPaused BillingSample.late)
                  (if isPaused BillingSample.late then Some "Paused by admin" else None)
                  BillingSample.late]> (clients (db BillingSample.world)) ∧
    clientIntakes w2 = clientIntakes (db BillingSample.world) ∧
    reads w2 = reads (db BillingSample.world).
Proof.
  apply (toggle_twice (db BillingSample.world) "b1" BillingSample.late). reflexivity.
Defined.

(** X22.  Lifting the pause of an overdue client by the toggle does not
    last: the next billing check pauses the client again, with the reason
    "Payment overdue", and sends the pause mail again. *)
Theorem toggle_of_overdue_client_does_not_last (E : BillingRun.Env)
    (w : BillingRun.World) (id : string) (c : Client) :
  clients (db w) !! id = Some c →
  isPaused c = true → nextDueDate c < clock (base E) (reads (db w)) →
  ∃ w1 w2 c1 c2 pre post,
    lift (post_admin_clients_toggle true id) w = (Returned (Redirect "/admin"), w1) ∧
    clients (db w1) !! id = Some c1 ∧ isPaused c1 = false ∧ pauseReason c1 = None ∧
    runBillingCheck E w1 = (Returned tt, w2) ∧
    clients (db w2) !! id = Some c2 ∧
    isPaused c2 = true ∧ pauseReason c2 = Some "Payment overdue" ∧
    calls w2 = calls w ++ pre ++ [pausedMail E c] ++ post.
Proof.
  intros Hc Hp Hdue.
  set (c1 := set_paused false None c).
  set (w1 := with_db (λ _, {| clients := <[id := c1]> (clients (db w));
                              clientIntakes := clientIntakes (db w);
                              reads := reads (db w) |}) w).
  assert (lift (post_admin_clients_toggle true id) w = (Returned (Redirect "/admin"), w1))
    as Hrun1.
  { unfold lift, post_admin_clients_toggle, requireAdmin. cbn [negb].
    unfold bind, gets, client_update, ret. rewrite Hc. simpl. rewrite Hc. simpl.
    unfold w1, c1. by rewrite Hp. }
  assert (clients (db w1) !! id = Some c1) as Hc1 by (simpl; by rewrite lookup_insert_eq).
  destruct (runBillingCheck_client E w1 id c1 Hc1) as (w2 & pre & post & Hrun2 & Hc2 & Hm2).
  assert (overdue (clock (base E) (reads (db w1))) c1 = true) as Hov.
  { unfold overdue. simpl. rewrite andb_true_r. simpl in Hdue. lia. }
  unfold billed, bill_mails in *. rewrite Hov in *.
  eexists w1, w2, c1, _, pre.
  exists ((if Js.truthy_opt (getenv E "YOUR_NOTIFY_EMAIL")
           then [adminPausedMail E c1 (nextDueDate c1)] else []) ++ post).
  split_and!; try done.
Qed.

Lemma toggle_of_overdue_client_does_not_last_witness :
  let E := BillingSample.env Sample.at_00_05 in
  ∃ w1 w2 c1 c2 pre post,
    lift (post_admin_clients_toggle true "b4") BillingSample.world
      = (Returned (Redirect "/admin"), w1) ∧
    clients (db w1) !! "b4" = Some c1 ∧ isPaused c1 = false ∧ pauseReason c1 = None ∧
    runBillingCheck E w1 = (Returned tt, w2) ∧
    clients (db w2) !! "b4" = Some c2 ∧
    isPaused c2 = true ∧ pauseReason c2 = Some "Payment overdue" ∧
    calls w2 = calls BillingSample.world ++ pre ++
      [pausedMail E BillingSample.lapsed] ++ post.
Proof.
  intros E.
  apply (toggle_of_overdue_client_does_not_last E BillingSample.world "b4"
           BillingSample.lapsed).
  - reflexivity.
  - reflexivity.
  - reflexivity.
Defined.

(** X23.  A paused client's page is refused but its leads are not: for the
    code of a paused client [GET /c/:code] answers 403, while [POST /lead]
    with that code stores the lead for that client and renders the thanks
    page; neither sends a mail. *)
Theorem paused_client_still_collects_leads (E : BillingRun.Env) (w : BillingRun.World)
    (id : string) (c : Client) (name email : string) (phone message : option string) :
  clients (db w) !! id = Some c → isPaused c = true →
  (∀ j c', clients (db w) !! j = Some c' → code c' = code c → j = id) →
  get_landing (code c) (db w)
    = (Returned (PageStatus 403 "This client is paused. Please contact support."), db w) ∧
  ∃ w' l,
    post_lead (code c) name email phone message w = (Returned (PageRender "thanks" c), w') ∧
    leads w' = leads w ++ [l] ∧
    clientId l = id ∧ lead_name l = name ∧ lead_email l = email ∧
    db w' = db w ∧ calls w' = calls w ∧ wire w' = wire w.
Proof.
  intros Hc Hp Huniq.
  pose proof (billing_findUnique_code_unique (db w) (code c) id c Hc eq_refl Huniq) as Hfind.
  split.
  - unfold get_landing, bind, client_findUnique_code, gets. rewrite Hfind. by rewrite Hp.
  - unfold post_lead, lift, bind, client_findUnique_code, gets, modify, ret.
    cbn [fst snd]. rewrite Hfind. eexists _, _. split; [reflexivity|].
    simpl. split_and!; done.
Qed.

Lemma paused_client_still_collects_leads_witness :
  let E := BillingSample.env Sample.at_00_05 in
  let w := BillingSample.world in
  get_landing "held" (db w)
    = (Returned (PageStatus 403 "This client is paused. Please contact support."), db w) ∧
  ∃ w' l,
    post_lead "held" "Bo" "bo@mail.test" None (Some "") w
      = (Returned (PageRender "thanks" BillingSample.held), w') ∧
    leads w' = leads w ++ [l] ∧
    clientId l = "b2" ∧ lead_name l = "Bo" ∧ lead_email l = "bo@mail.test" ∧
    db w' = db w ∧ calls w' = calls w ∧ wire w' = wire w.
Proof.
  intros E w.
  exact (paused_client_still_collects_leads E w "b2" BillingSample.held "Bo" "bo@mail.test"
           None (Some "") eq_refl eq_refl (sample_code_unique "b2" BillingSample.held eq_refl)).
Defined.

(** X24.  For an id no client has, the three admin actions differ: the
    toggle answers 404 and changes nothing, while mark-paid and the booking
    update throw, the store finding no record to update. *)
Theorem unknown_client_id (E : Billing.Env) (w : Billing.World) (id : string)
    (bookingUrl : option string) :
  clients w !! id = None →
  post_admin_clients_toggle true id w = (Returned (Status 404 "Client not found"), w) ∧
  post_admin_clients_booking true id bookingUrl w
    = (Thrown "Record to update not found.", w) ∧
  ∃ w', post_admin_clients_paid E true id w = (Thrown "Record to update not found.", w') ∧
        clients w' = clients w ∧ clientIntakes w' = clientIntakes w.
Proof.
  intros Hc. split_and!.
  - unfold post_admin_clients_toggle, requireAdmin. cbn [negb].
    unfold bind, gets. by rewrite Hc.
  - unfold post_admin_clients_booking, requireAdmin. cbn [negb].
    unfold bind, client_update. by rewrite Hc.
  - unfold post_admin_clients_paid, requireAdmin. cbn [negb].
    unfold bind, Date_now, client_update. cbn [clients]. rewrite Hc. eauto.
Qed.

Lemma unknown_client_id_witness :
  let w := db BillingSample.world in
  post_admin_clients_toggle true "zz" w = (Returned (Status 404 "Client not found"), w) ∧
  post_admin_clients_booking true "zz" (Some "https://cal.test/x") w
    = (Thrown "Record to update not found.", w) ∧
  ∃ w', post_admin_clients_paid Sample.billing_env true "zz" w
          = (Thrown "Record to update not found.", w') ∧
        clients w' = clients w ∧ clientIntakes w' = clientIntakes w.
Proof.
  intros w.
  exact (unknown_client_id Sample.billing_env w "zz" (Some "https://cal.test/x") eq_refl).
Defined.

End BillingProps.

(** ** The checker of the earlier [server.js] *)

Module EarlyCheckFacts.
Import Async AsyncFacts Server Reconciler Pass ServerFacts.
Local Open Scope Z_scope.

Section Facts.
Variable E : Env.
Variable now : Z.
Hypothesis Hfr : frozen E now.

(** An iteration for a record on which nothing is to be done reads the
    clock and nothing else. *)
Lemma early_checkClient_idle id c w :
  verdict (REMIND_DAYS_BEFORE E) now c = Idle →
  returns (EarlyCheck.checkClient E (id, c)) w (λ _ w',
    clients w' = clients w ∧ leads w' = leads w ∧
    intakeRequests w' = intakeRequests w ∧
    calls w' = calls w ∧ wire w' = wire w ∧ console w' = console w).
Proof.
  unfold verdict, EarlyCheck.checkClient.
  destruct (dueAt c) as [due|] eqn:Hdue; [|intros _; by step Hfr].
  unfold getDaysLeft. intros Hv. do 4 step Hfr.
  change (1000 * 60 * 60 * 24) with Date.msPerDay. fold (daysLeft now due).
  revert Hv. generalize (daysLeft now due). intros l.
  unfold reminded_within_24h.
  destruct (bool_decide (status c = "ACTIVE")); simpl.
  2:{ intros _. by repeat step Hfr. }
  destruct (0 <? l) eqn:Hpos; [|done].
  assert ((l <=? 0) = false) as -> by lia.
  destruct (l <=? REMIND_DAYS_BEFORE E); simpl.
  - destruct (lastReminderAt c) as [last|]; [|done].
    destruct (now - last <? 24 * 60 * 60 * 1000) eqn:Hlt; simpl; [|done].
    intros _. do 5 step Hfr. rewrite Hlt. simpl. by repeat step Hfr.
  - intros _. by repeat step Hfr.
Qed.

Lemma early_idle_loop (l : list (string * Client)) w :
  (∀ ic, ic ∈ l → verdict (REMIND_DAYS_BEFORE E) now ic.2 = Idle) →
  returns (for_of l (EarlyCheck.checkClient E)) w (λ _ w',
    clients w' = clients w ∧ leads w' = leads w ∧
    intakeRequests w' = intakeRequests w ∧
    calls w' = calls w ∧ wire w' = wire w ∧ console w' = console w).
Proof.
  intros Hidle.
  apply (returns_for_of l (EarlyCheck.checkClient E)
           (λ v, clients v = clients w ∧ leads v = leads w ∧
                 intakeRequests v = intakeRequests w ∧
                 calls v = calls w ∧ wire v = wire w ∧ console v = console w)); [|done].
  intros [id c] v Hel (Hc & Hl & Hi & Hm & Hw & Hk).
  eapply returns_mono; [apply early_checkClient_idle; by apply (Hidle (id, c))|].
  simpl. intros _ v' (? & ? & ? & ? & ? & ?). split_and!; congruence.
Qed.

Lemma bind_apply {A B} (m : M A) (k : A → M B) (w : World) :
  bind m k w =
  match m w with
  | (Returned a, w') => k a w'
  | (Thrown e, w') => (Thrown e, w')
  end.
Proof. done. Qed.

Lemma ret_apply {A} (a : A) (w : World) : ret a w = (Returned a, w).
Proof. done. Qed.

Lemma Date_now_run w : Date_now E w = (Returned now, with_reads S w).
Proof. unfold Date_now. by rewrite Hfr. Qed.

Lemma getDaysLeft_run due w :
  getDaysLeft E (Some due) w = (Returned (Some (daysLeft now due)), with_reads S w).
Proof. unfold getDaysLeft. by rewrite bind_apply, Date_now_run. Qed.

Lemma client_update_run id f r w :
  clients w !! id = Some r →
  client_update id f w = (Returned tt, with_clients (insert id (f r)) w).
Proof. intros Hr. unfold client_update. by rewrite Hr. Qed.

Lemma early_sendEmail_rejected m w err :
  smtpReady E = true →
  (∀ k msg, sendMail_error E k msg = Some err) →
  Early.sendEmail E m w =
    (Thrown err, with_wire (λ l, l ++ [outgoing E m]) (with_calls (λ l, l ++ [m]) w)).
Proof.
  intros Hready Hrefuse. unfold Early.sendEmail. rewrite bind_apply, Hready. simpl.
  rewrite bind_apply. unfold transporter_sendMail. by rewrite Hrefuse.
Qed.

(** With SMTP configured and a transport that rejects the message, the
    iteration for a record on which something is to be done throws after
    the update of the record. *)
Lemma early_checkClient_throws id c w err :
  smtpReady E = true →
  (∀ k msg, sendMail_error E k msg = Some err) →
  clients w !! id = Some c →
  verdict (REMIND_DAYS_BEFORE E) now c ≠ Idle →
  ∃ w' m,
    EarlyCheck.checkClient E (id, c) w = (Thrown err, w') ∧
    clients w' = <[id := apply_verdict now (verdict (REMIND_DAYS_BEFORE E) now c) c]>
                   (clients w) ∧
    leads w' = leads w ∧ intakeRequests w' = intakeRequests w ∧
    EarlyPass.first_mail E c (verdict (REMIND_DAYS_BEFORE E) now c) = Some m ∧
    calls w' = calls w ++ [m] ∧
    wire w' = wire w ++ [outgoing E m].
Proof.
  intros Hready Hrefuse Hc.
  unfold verdict, EarlyCheck.checkClient.
  destruct (dueAt c) as [due|] eqn:Hdue; [|done].
  rewrite bind_apply, getDaysLeft_run.
  generalize (daysLeft now due). intros l.
  unfold reminded_within_24h.
  destruct (bool_decide (status c = "ACTIVE")); simpl; [|done].
  destruct (0 <? l) eqn:Hpos.
  - assert ((l <=? 0) = false) as Hle by lia.
    destruct (l <=? REMIND_DAYS_BEFORE E); simpl; [|done].
    destruct (lastReminderAt c) as [last|].
    + destruct (now - last <? 24 * 60 * 60 * 1000) eqn:Hlt; simpl; [done|]. intros _.
      rewrite !bind_apply, Date_now_run, ret_apply, Hlt.
      repeat first [ rewrite bind_apply | rewrite Date_now_run | rewrite ret_apply
                   | progress cbn [when negb]
                   | rewrite (client_update_run id _ c) by done
                   | rewrite (early_sendEmail_rejected _ _ err Hready Hrefuse) ].
      eexists _, _. split_and!; done.
    + intros _.
      repeat first [ rewrite bind_apply | rewrite Date_now_run | rewrite ret_apply
                   | progress cbn [when negb]
                   | rewrite (client_update_run id _ c) by done
                   | rewrite (early_sendEmail_rejected _ _ err Hready Hrefuse) ].
      eexists _, _. split_and!; done.
  - assert ((l <=? 0) = true) as Hle by lia. intros _.
    rewrite Hle, andb_false_r.
      repeat first [ rewrite bind_apply | rewrite Date_now_run | rewrite ret_apply
                   | progress cbn [when negb]
                   | rewrite (client_update_run id _ c) by done
                   | rewrite (early_sendEmail_rejected _ _ err Hready Hrefuse) ].
    eexists _, _. split_and!; done.
Qed.

End Facts.

End EarlyCheckFacts.

Module EarlyProps.
Import Async AsyncFacts Server Reconciler Pass ServerFacts EarlyCheckFacts.
Local Open Scope Z_scope.

(** X25.  In the earlier [server.js] a rejected mail aborts the pass.  With
    SMTP configured and a transport that rejects every message, a pass taken
    at one instant throws at the first client on which something is to be
    done: that client's record is already updated (stamped as reminded, or
    paused), its mail is the only one attempted, and the clients after it
    are left as they were.  On the same world the checker of [src/server.js]
    returns. *)
Theorem early_pass_aborts_on_rejected_mail (E : Env) (now : Z) (w : World)
    (id : string) (c : Client) (before after : list (string * Client)) (err : string) :
  frozen E now →
  smtpReady E = true →
  (∀ k msg, sendMail_error E k msg = Some err) →
  listing w = before ++ (id, c) :: after →
  (∀ ic, ic ∈ before → verdict (REMIND_DAYS_BEFORE E) now ic.2 = Idle) →
  verdict (REMIND_DAYS_BEFORE E) now c ≠ Idle →
  (∃ w' m,
     EarlyCheck.subscriptionCheck E w = (Thrown err, w') ∧
     clients w' = <[id := apply_verdict now (verdict (REMIND_DAYS_BEFORE E) now c) c]>
                    (clients w) ∧
     calls w' = calls w ++ [m] ∧ to m = email c ∧
     wire w' = wire w ++ [outgoing E m]) ∧
  ∃ w'', subscriptionCheck E w = (Returned tt, w'').
Proof.
  intros Hfr Hready Hrefuse Hlist Hidle Hact. split.
  - assert (clients w !! id = Some c) as Hc.
    { apply (elem_of_listing w id c). rewrite Hlist. apply elem_of_app. right. left. }
    destruct (early_idle_loop E now Hfr before w Hidle)
      as ([] & w1 & Hrun1 & Hc1 & Hl1 & Hi1 & Hm1 & Hw1 & _).
    destruct (early_checkClient_throws E now Hfr id c w1 err Hready Hrefuse)
      as (w' & m & Hrun & Hc' & _ & _ & Hfirst & Hm & Hw); [by rewrite Hc1|done|].
    exists w', m. split_and!.
    + unfold EarlyCheck.subscriptionCheck. rewrite bind_apply.
      unfold client_findMany_status, gets. fold (listing w).
      rewrite Hlist, for_of_app, bind_apply, Hrun1. cbn [for_of].
      by rewrite bind_apply, Hrun.
    + by rewrite Hc', Hc1.
    + by rewrite Hm, Hm1.
    + destruct (verdict _ now c); simpl in Hfirst; [done|by injection Hfirst as <-..].
    + by rewrite Hw, Hw1.
  - destruct (subscriptionCheck_returns E w) as ([] & w'' & Hrun & _). eauto.
Qed.

Lemma early_pass_aborts_on_rejected_mail_witness :
  let E := Sample.env_refusing Sample.noon in
  let v := verdict (REMIND_DAYS_BEFORE E) Sample.noon Sample.soon in
  (∃ w' m,
     EarlyCheck.subscriptionCheck E Sample.world = (Thrown "connect ECONNREFUSED", w') ∧
     clients w' = <["c1" := apply_verdict Sample.noon v Sample.soon]>
                    (clients Sample.world) ∧
     calls w' = calls Sample.world ++ [m] ∧ to m = email Sample.soon ∧
     wire w' = wire Sample.world ++ [outgoing E m]) ∧
  ∃ w'', subscriptionCheck E Sample.world = (Returned tt, w'').
Proof.
  intros E v.
  apply (early_pass_aborts_on_rejected_mail E Sample.noon Sample.world "c1" Sample.soon
           [("c3", Sample.paused)] [("c2", Sample.overdue)] "connect ECONNREFUSED").
  - intros k. reflexivity.
  - reflexivity.
  - intros k msg. reflexivity.
  - vm_compute. reflexivity.
  - intros ic Hel. apply list_elem_of_singleton in Hel as ->. vm_compute. reflexivity.
  - vm_compute. discriminate.
Defined.

End EarlyProps.
